(** * FNote frontend: state store, optimistic transactions, virtual list,
      render scheduler and seek-bar markers.

    A shallow embedding of the JavaScript sources (state.js, playlist.js,
    ui/virtualList.js, main.js, player.js) together with the properties
    that the design document states about them.

    Conventions of the embedding.
    - A JS object used as a dictionary is a [gmap string _] of its own
      properties; a property read that yields [undefined] is a lookup
      that yields [None]. The dictionaries are plain objects, so a read
      of a key that the object does not hold itself goes on to
      [Object.prototype]: [js_get] is the read with that step, and the
      functions that are written with a bare lookup are meant for keys
      that the object holds or that [Object.prototype] does not have.
    - A JS array is a [list]; [arr[i]] with a number [i] is [js_index].
    - A JS [Set] is an insertion-ordered list without duplicates.
    - A number is an IEEE 754 double; a finite one is the rational it
      stands for ([scrollTop], marker timestamps, [currentTime]). A sum
      or difference whose rounding a comparison can see is rounded to
      the nearest double by [Double.round].
    - An [async] function is split at its [await]: the part before it
      returns the suspended frame, the part after it consumes the frame
      and the way the promise settled.
    - The media element and the DOM outside the row pool are not part of
      the model; calls that only touch them are left out. *)

From Stdlib Require Import ZArith QArith Qround Qabs Qpower Lqa Lia.
From stdpp Require Import base option list strings pretty gmap.

Open Scope Z_scope.

(** ** JavaScript helpers *)

(** [arr[i]]: [undefined] outside the array, also for a negative index. *)
Definition js_index {A} (arr : list A) (i : Z) : option A :=
  if decide (i < 0) then None else arr !! Z.to_nat i.

(** [a || b] on a value that is either an object or [undefined]. *)
Definition js_or {A} (a : option A) (b : A) : A :=
  match a with Some x => x | None => b end.

(** [arr.findIndex(pred)]: the first index, or -1. *)
Fixpoint findIndex_from {A} (pred : A -> bool) (arr : list A) (i : Z) : Z :=
  match arr with
  | [] => -1
  | x :: rest => if pred x then i else findIndex_from pred rest (i + 1)
  end.

Definition findIndex {A} (pred : A -> bool) (arr : list A) : Z :=
  findIndex_from pred arr 0.

(** [arr.includes(x)] on strings. *)
Definition includes (arr : list string) (x : string) : bool :=
  bool_decide (x ∈ arr).

(** The properties of [Object.prototype]. *)
Definition objectPrototype : list string :=
  [ "constructor"; "hasOwnProperty"; "isPrototypeOf"; "propertyIsEnumerable";
    "toLocaleString"; "toString"; "valueOf"; "__defineGetter__";
    "__defineSetter__"; "__lookupGetter__"; "__lookupSetter__"; "__proto__" ]%string.

(** What a read [obj[key]] of a plain object finds: a property of the
    object itself, a member of [Object.prototype] (a function, or for
    [__proto__] the prototype object), or [undefined]. *)
Inductive Property (V : Type) : Type :=
| Own (value : V)
| Inherited (key : string)
| Undefined.
Arguments Own {V} value.
Arguments Inherited {V} key.
Arguments Undefined {V}.

(** [obj[key]] *)
Definition js_get {V} (obj : gmap string V) (key : string) : Property V :=
  match obj !! key with
  | Some value => Own value
  | None => if bool_decide (key ∈ objectPrototype) then Inherited key else Undefined
  end.

(** How a promise settles. *)
Inductive Settled (R : Type) : Type :=
| Resolved (result : R)
| Rejected (message : string).
Arguments Resolved {R} result.
Arguments Rejected {R} message.

(** A JS [Set] of strings: insertion order, no duplicates. *)
Module JsSet.
Definition t := list string.
Definition has (s : t) (x : string) : bool := bool_decide (x ∈ s).
Definition add (x : string) (s : t) : t := if has s x then s else s ++ [x].
Definition delete (x : string) (s : t) : t :=
  filter (fun y => y ≠ x) s.
Definition clear (s : t) : t := [].
Definition size (s : t) : nat := length s.
(** [new Set(iterable)] *)
Definition from (l : list string) : t := foldl (fun s x => add x s) [] l.
End JsSet.

(** ** Numbers

    The arithmetic of the program is that of IEEE 754 doubles. A finite
    double is written as the rational it stands for, and the result of
    an operation is the exact result rounded to the nearest double. *)

Module Double.

(** The largest [e] with [2 ^ e <= x], for a positive [x]. *)
Definition exponent (x : Q) : Z :=
  let e := Z.log2 (Qnum x) - Z.log2 (Zpos (Qden x)) in
  if Qle_bool (2 ^ e) x then e else e - 1.

(** The integer nearest to [q]; of two that are equally near, the even
    one. *)
Definition nearestEven (q : Q) : Z :=
  let f := Qfloor q in
  let r := (q - inject_Z f)%Q in
  if Qle_bool r (1 # 2) then
    if Qeq_bool r (1 # 2) then (if Z.even f then f else f + 1) else f
  else f + 1.

(** The double nearest to [a], for [a >= 0]: 53 significant bits, the
    last of them worth [2 ^ (exponent a - 52)] and never less than
    [2 ^ -1074]. The overflow to [Infinity], which takes an [a] of
    [2 ^ 1024] or more, is left out. *)
Definition magnitude (a : Q) : Q :=
  let e := Z.max (exponent a - 52) (-1074) in
  (inject_Z (nearestEven (a / 2 ^ e)) * 2 ^ e)%Q.

(** Round to nearest, ties to even. *)
Definition round (x : Q) : Q :=
  let r := magnitude (Qred (Qabs x)) in
  if Qle_bool 0 x then r else (- r)%Q.

(** [a + b] and [a - b] on doubles. *)
Definition add (a b : Q) : Q := round (a + b).
Definition sub (a b : Q) : Q := round (a - b).

(** The literal [0.1]: the double nearest to one tenth. The literal
    [0.5] is one half itself. *)
Definition tenth : Q := round (1 # 10).

End Double.

(** ** state.js *)

Module State.

Record Marker := { id : string; timestamp : Q }.

Record Song := {
  path : string;
  name : option string;
  artist : option string;
  isMissing : bool;
  markers : option (list Marker);
  isPlaceholder : bool
}.

(** [{ path, isPlaceholder: true }] *)
Definition placeholder (p : string) : Song :=
  {| path := p; name := None; artist := None; isMissing := false;
     markers := None; isPlaceholder := true |}.

Record MusicData := {
  songs : gmap string Song;
  playlists : gmap string (list string);
  playlistOrder : list string;
  activePlaylist : string
}.

Inductive ViewMode := ViewPlaylist | ViewQueue.

(** The fields of [state] that the modelled functions read or write.
    The settings, cover cache and drag state are left out. *)
Record AppState := {
  musicData : MusicData;
  playQueue : list Song;
  currentSongIndex : Z;
  isShuffling : bool;
  shuffledPlaylist : list Song;
  shuffledIndex : Z;
  selectedSongPaths : list string;
  lastClickedPath : option string;
  viewMode : ViewMode;
  selectedMarker : option Marker
}.

Inductive ToastKind := info | success | error.

Inductive ApiRequest :=
| addSongsToPlaylist (playlistName : string) (songObjects : list Song)
| deleteSongs (paths : list string)
| saveMarkers (songPath : string) (timestamps : list Q)
| getSongsByPaths (paths : list string)
| otherRequest (label : string).

(** What code outside state.js can reach: the [state] object and the
    surroundings of the module, namely the events it publishes, the
    toasts it shows, the backend calls it starts, and the values that
    [Math.random] hands out ([random k] is the [k]-th one, scaled by
    the caller). *)
Record Store := {
  state : AppState;
  published : list string;
  toasts : list (string * ToastKind);
  apiCalls : list ApiRequest;
  random : nat -> nat;
  randomCalls : nat
}.

(** *** Field updates *)

Definition with_state (f : AppState -> AppState) (s : Store) : Store :=
  {| state := f (state s);
     published := published s; toasts := toasts s;
     apiCalls := apiCalls s; random := random s;
     randomCalls := randomCalls s |}.

Definition with_musicData (f : MusicData -> MusicData) (a : AppState) : AppState :=
  {| musicData := f (musicData a); playQueue := playQueue a;
     currentSongIndex := currentSongIndex a; isShuffling := isShuffling a;
     shuffledPlaylist := shuffledPlaylist a; shuffledIndex := shuffledIndex a;
     selectedSongPaths := selectedSongPaths a;
     lastClickedPath := lastClickedPath a; viewMode := viewMode a;
     selectedMarker := selectedMarker a |}.

Definition with_songs (v : gmap string Song) (m : MusicData) : MusicData :=
  {| songs := v; playlists := playlists m;
     playlistOrder := playlistOrder m; activePlaylist := activePlaylist m |}.

Definition with_playlists (v : gmap string (list string)) (m : MusicData) : MusicData :=
  {| songs := songs m; playlists := v;
     playlistOrder := playlistOrder m; activePlaylist := activePlaylist m |}.

Definition with_playlistOrder (v : list string) (m : MusicData) : MusicData :=
  {| songs := songs m; playlists := playlists m;
     playlistOrder := v; activePlaylist := activePlaylist m |}.

Definition with_activePlaylist (v : string) (m : MusicData) : MusicData :=
  {| songs := songs m; playlists := playlists m;
     playlistOrder := playlistOrder m; activePlaylist := v |}.

Definition with_playQueue (v : list Song) (a : AppState) : AppState :=
  {| musicData := musicData a; playQueue := v;
     currentSongIndex := currentSongIndex a; isShuffling := isShuffling a;
     shuffledPlaylist := shuffledPlaylist a; shuffledIndex := shuffledIndex a;
     selectedSongPaths := selectedSongPaths a;
     lastClickedPath := lastClickedPath a; viewMode := viewMode a;
     selectedMarker := selectedMarker a |}.

Definition with_currentSongIndex (v : Z) (a : AppState) : AppState :=
  {| musicData := musicData a; playQueue := playQueue a;
     currentSongIndex := v; isShuffling := isShuffling a;
     shuffledPlaylist := shuffledPlaylist a; shuffledIndex := shuffledIndex a;
     selectedSongPaths := selectedSongPaths a;
     lastClickedPath := lastClickedPath a; viewMode := viewMode a;
     selectedMarker := selectedMarker a |}.

Definition with_shuffledPlaylist (v : list Song) (a : AppState) : AppState :=
  {| musicData := musicData a; playQueue := playQueue a;
     currentSongIndex := currentSongIndex a; isShuffling := isShuffling a;
     shuffledPlaylist := v; shuffledIndex := shuffledIndex a;
     selectedSongPaths := selectedSongPaths a;
     lastClickedPath := lastClickedPath a; viewMode := viewMode a;
     selectedMarker := selectedMarker a |}.

Definition with_shuffledIndex (v : Z) (a : AppState) : AppState :=
  {| musicData := musicData a; playQueue := playQueue a;
     currentSongIndex := currentSongIndex a; isShuffling := isShuffling a;
     shuffledPlaylist := shuffledPlaylist a; shuffledIndex := v;
     selectedSongPaths := selectedSongPaths a;
     lastClickedPath := lastClickedPath a; viewMode := viewMode a;
     selectedMarker := selectedMarker a |}.

Definition with_selectedSongPaths (v : list string) (a : AppState) : AppState :=
  {| musicData := musicData a; playQueue := playQueue a;
     currentSongIndex := currentSongIndex a; isShuffling := isShuffling a;
     shuffledPlaylist := shuffledPlaylist a; shuffledIndex := shuffledIndex a;
     selectedSongPaths := v;
     lastClickedPath := lastClickedPath a; viewMode := viewMode a;
     selectedMarker := selectedMarker a |}.

Definition with_lastClickedPath (v : option string) (a : AppState) : AppState :=
  {| musicData := musicData a; playQueue := playQueue a;
     currentSongIndex := currentSongIndex a; isShuffling := isShuffling a;
     shuffledPlaylist := shuffledPlaylist a; shuffledIndex := shuffledIndex a;
     selectedSongPaths := selectedSongPaths a;
     lastClickedPath := v; viewMode := viewMode a;
     selectedMarker := selectedMarker a |}.

Definition with_selectedMarker (v : option Marker) (a : AppState) : AppState :=
  {| musicData := musicData a; playQueue := playQueue a;
     currentSongIndex := currentSongIndex a; isShuffling := isShuffling a;
     shuffledPlaylist := shuffledPlaylist a; shuffledIndex := shuffledIndex a;
     selectedSongPaths := selectedSongPaths a;
     lastClickedPath := lastClickedPath a; viewMode := viewMode a;
     selectedMarker := v |}.

(** *** Effects on the surroundings *)

(** [publish(event, data)] as the store sees it: the event is handed to
    the subscribers. The subscribers that main.js registers only
    schedule renders and broadcast; none writes the store, so here an
    event is recorded and the store is otherwise unchanged. What
    [publish] does with the callbacks themselves is [PubSub.publish]. *)
Definition publish (event : string) (s : Store) : Store :=
  {| state := state s;
     published := published s ++ [event]; toasts := toasts s;
     apiCalls := apiCalls s; random := random s;
     randomCalls := randomCalls s |}.

(** [UI.showToast(message, kind)] *)
Definition showToast (message : string) (kind : ToastKind) (s : Store) : Store :=
  {| state := state s;
     published := published s; toasts := toasts s ++ [(message, kind)];
     apiCalls := apiCalls s; random := random s;
     randomCalls := randomCalls s |}.

(** Starting a backend call: the request leaves, a promise comes back. *)
Definition callApi (req : ApiRequest) (s : Store) : Store :=
  {| state := state s;
     published := published s; toasts := toasts s;
     apiCalls := apiCalls s ++ [req]; random := random s;
     randomCalls := randomCalls s |}.

(** [Math.floor(Math.random() * bound)] *)
Definition randomBelow (bound : nat) (s : Store) : nat * Store :=
  ((random s (randomCalls s) `mod` bound)%nat,
  {| state := state s;
     published := published s; toasts := toasts s;
     apiCalls := apiCalls s; random := random s;
     randomCalls := S (randomCalls s) |}).

(** *** Getters *)

Definition getState (s : Store) : AppState := state s.

(** [getActivePlaylist()] for a store in which the name of the active
    playlist and the paths of that playlist are keys that the
    dictionaries hold, or keys that [Object.prototype] does not have. *)
Definition getActivePlaylist (s : Store) : list Song :=
  let activePlaylistPaths :=
    js_or (playlists (musicData (state s)) !! activePlaylist (musicData (state s))) [] in
  map (fun path => js_or (songs (musicData (state s)) !! path) (placeholder path))
      activePlaylistPaths.

(** An element of the array that [getActivePlaylist()] returns: a song
    object, or the member of [Object.prototype] that [songs[path]]
    found. *)
Inductive Entry :=
| SongObject (song : Song)
| PrototypeMember (key : string).

(** [getActivePlaylist()] for any store. [None]: the call throws a
    TypeError, because [playlists[activePlaylist]] found a member of
    [Object.prototype], which is truthy and has no [map]. *)
Definition getActivePlaylist_read (s : Store) : option (list Entry) :=
  let activePlaylistPaths :=
    match js_get (playlists (musicData (state s))) (activePlaylist (musicData (state s))) with
    | Own paths => Some paths
    | Undefined => Some []
    | Inherited _ => None
    end in
  map (fun path =>
         match js_get (songs (musicData (state s))) path with
         | Own song => SongObject song
         | Undefined => SongObject (placeholder path)
         | Inherited key => PrototypeMember key
         end)
    <$> activePlaylistPaths.

(** *** Mutators *)

(** The argument of [setMusicData]: any of the four properties may be
    absent. *)
Record MusicDataUpdate := {
  data_songs : option (gmap string Song);
  data_playlists : option (gmap string (list string));
  data_playlistOrder : option (list string);
  data_activePlaylist : option string
}.

(** [{ ...a, ...b }] on dictionaries: the keys of [b] win. *)
Definition merge_objects {V} (a b : gmap string V) : gmap string V := b ∪ a.

(** A string is truthy when it is not empty. *)
Definition truthy (v : string) : bool := negb (bool_decide (v = ""%string)).

Definition setMusicData (data : MusicDataUpdate) (s : Store) : Store :=
  let s1 :=
    match data_songs data with
    | Some v =>
        with_state (with_musicData (fun m => with_songs (merge_objects (songs m) v) m)) s
    | None => s
    end in
  let s2 :=
    match data_playlists data with
    | Some v => with_state (with_musicData (with_playlists v)) s1
    | None => s1
    end in
  let s3 :=
    match data_playlistOrder data with
    | Some v => with_state (with_musicData (with_playlistOrder v)) s2
    | None => s2
    end in
  let s4 :=
    match data_activePlaylist data with
    | Some v =>
        if truthy v then with_state (with_musicData (with_activePlaylist v)) s3 else s3
    | None => s3
    end in
  publish "musicData" s4.

Definition setActivePlaylist (playlistName : string) (s : Store) : Store :=
  publish "activePlaylist"
    (with_state (with_musicData (with_activePlaylist playlistName)) s).

Definition setPlaylistOrder (order : list string) (s : Store) : Store :=
  publish "playlistOrder"
    (with_state (with_musicData (with_playlistOrder order)) s).

Definition setPlaylists (v : gmap string (list string)) (s : Store) : Store :=
  publish "playlists" (with_state (with_musicData (with_playlists v)) s).

Definition setPlayQueue (queue : list Song) (s : Store) : Store :=
  publish "playQueue" (with_state (with_playQueue queue) s).

Definition setCurrentSongIndex (index : Z) (s : Store) : Store :=
  publish "currentSongIndex" (with_state (with_currentSongIndex index) s).

Definition setSelectedSongPaths (paths : list string) (s : Store) : Store :=
  publish "selectedSongPaths" (with_state (with_selectedSongPaths paths) s).

Definition setLastClickedPath (p : option string) (s : Store) : Store :=
  publish "lastClickedPath" (with_state (with_lastClickedPath p) s).

Definition setShuffledPlaylist (l : list Song) (s : Store) : Store :=
  publish "shuffledPlaylist" (with_state (with_shuffledPlaylist l) s).

Definition setShuffledIndex (index : Z) (s : Store) : Store :=
  publish "shuffledIndex" (with_state (with_shuffledIndex index) s).

Definition setSelectedMarker (m : option Marker) (s : Store) : Store :=
  publish "selectedMarker" (with_state (with_selectedMarker m) s).

(** [addSongsToCache(songsMap)]: merges, publishes nothing. *)
Definition addSongsToCache (songsMap : option (gmap string Song)) (s : Store) : Store :=
  match songsMap with
  | None => s
  | Some m =>
      if decide (size m = 0%nat) then s
      else with_state (with_musicData (fun d => with_songs (merge_objects (songs d) m) d)) s
  end.

Definition with_viewMode (v : ViewMode) (a : AppState) : AppState :=
  {| musicData := musicData a; playQueue := playQueue a;
     currentSongIndex := currentSongIndex a; isShuffling := isShuffling a;
     shuffledPlaylist := shuffledPlaylist a; shuffledIndex := shuffledIndex a;
     selectedSongPaths := selectedSongPaths a;
     lastClickedPath := lastClickedPath a; viewMode := v;
     selectedMarker := selectedMarker a |}.

Definition setViewMode (mode : ViewMode) (s : Store) : Store :=
  publish "viewMode" (with_state (with_viewMode mode) s).

(** *** The cover cache *)






(** *** Optimistic transactions *)

(** A call that either returns a value or throws, and the store it
    leaves behind. *)
Inductive Completion (A : Type) : Type :=
| Returned (value : A) (s : Store)
| Threw (message : string) (s : Store).
Arguments Returned {A} value s.
Arguments Threw {A} message s.

(** The closure that an optimistic action returns. *)
Definition UndoAction : Type := Store -> Store.

(** [optimisticAction]: writes the store and returns its undo closure. *)
Definition OptimisticAction : Type := Store -> Completion UndoAction.

(** What the backend promise resolves to. *)
Definition ApiResult : Type := option string.

(** [options.successMessage] is a string or a function of the result. *)
Inductive Message :=
| Text (message : string)
| Computed (f : ApiResult -> string).

Record Options := {
  successMessage : option Message;
  errorMessagePrefix : option string;
  onSuccess : option (ApiResult -> Store -> Completion unit);
  playerWasReset : bool
}.

(** [options = {}] *)
Definition noOptions : Options :=
  {| successMessage := None; errorMessagePrefix := None;
     onSuccess := None; playerWasReset := false |}.

(** The variables of state.js: the store and the private lock flag
    [isUpdating], which no code outside the module can write. *)
Record Runtime := {
  store : Store;
  isUpdating : bool
}.

(** The frame of [performOptimisticUpdate] that is suspended at
    [await apiCall()]: its local [undoAction] and its options. *)
Record Pending := {
  undoAction : UndoAction;
  options : Options
}.

(** The [catch] block. Its first statement, the [console.error] call,
    reads [errorMessagePrefix]. That name is a constant of the [try]
    block, declared there by the destructuring of [options], and is not
    in scope in the [catch] block: reading it throws a ReferenceError.
    The error toast and the call of [undoAction], which stand after that
    statement, are never reached, whatever [undo] and the caught error
    are, and the store is left as it was. *)
Definition catchBlock (undo : option UndoAction) (message : string) (s : Store)
    : Completion unit :=
  Threw "errorMessagePrefix is not defined" s.

(** The store that a call leaves behind, however it ended. *)
Definition storeAfter {A} (c : Completion A) : Store :=
  match c with
  | Returned _ s => s
  | Threw _ s => s
  end.

(** The success path after the [await]. *)
Definition successBlock (opts : Options) (result : ApiResult) (s : Store) : Completion unit :=
  let afterHook :=
    match onSuccess opts with
    | Some hook => hook result s
    | None => Returned tt s
    end in
  match afterHook with
  | Threw message s1 => Threw message s1
  | Returned _ s1 =>
      match successMessage opts with
      | Some (Text message) =>
          if truthy message then Returned tt (showToast message success s1)
          else Returned tt s1
      | Some (Computed f) => Returned tt (showToast (f result) success s1)
      | None => Returned tt s1
      end
  end.

(** [performOptimisticUpdate], up to [await apiCall()]. The result is
    the runtime and, when the function is suspended at the [await], its
    frame; [None] means that the function has ended. *)
Definition performOptimisticUpdate (optimisticAction : OptimisticAction)
    (apiCall : Store -> ApiRequest) (opts : Options) (r : Runtime)
    : Runtime * option Pending :=
  if isUpdating r then
    ({| store := showToast "Please wait for the current operation to complete." info (store r);
        isUpdating := isUpdating r |}, None)
  else
    (* isUpdating = true *)
    match optimisticAction (store r) with
    | Threw message s1 =>
        (* catch, with undoAction still null; then finally *)
        ({| store := storeAfter (catchBlock None message s1); isUpdating := false |}, None)
    | Returned undo s1 =>
        ({| store := callApi (apiCall s1) s1; isUpdating := true |},
         Some {| undoAction := undo; options := opts |})
    end.

(** The [try] block from the moment the promise of [apiCall()] settles,
    with the [catch] block where something was thrown. [Threw] is an
    error that leaves the [catch] block: the promise that
    [performOptimisticUpdate] returned is rejected with it. *)
Definition tryCatch_resume (frame : Pending) (outcome : Settled ApiResult) (s : Store)
    : Completion unit :=
  match outcome with
  | Resolved result =>
      match successBlock (options frame) result s with
      | Returned _ s1 => Returned tt s1
      | Threw message s1 => catchBlock (Some (undoAction frame)) message s1
      end
  | Rejected message => catchBlock (Some (undoAction frame)) message s
  end.

(** [performOptimisticUpdate], from the moment the promise of
    [apiCall()] settles to the end of the [finally] block. *)
Definition performOptimisticUpdate_resume (frame : Pending)
    (outcome : Settled ApiResult) (r : Runtime) : Runtime :=
  let s1 := storeAfter (tryCatch_resume frame outcome (store r)) in
  (* finally *)
  {| store := s1; isUpdating := false |}.

(** *** The store over time

    Between the two halves of a transaction anything else may run: a
    further call of [performOptimisticUpdate], the settling of a
    pending backend call, or any other code that writes the store. *)
Inductive Event :=
| call (optimisticAction : OptimisticAction) (apiCall : Store -> ApiRequest) (opts : Options)
| settle (k : nat) (outcome : Settled ApiResult)
| write (f : Store -> Store).

Record System := {
  runtime : Runtime;
  suspended : list Pending
}.

Definition step (sys : System) (e : Event) : System :=
  match e with
  | call optimisticAction apiCall opts =>
      match performOptimisticUpdate optimisticAction apiCall opts (runtime sys) with
      | (r, Some frame) => {| runtime := r; suspended := suspended sys ++ [frame] |}
      | (r, None) => {| runtime := r; suspended := suspended sys |}
      end
  | settle k outcome =>
      match suspended sys !! k with
      | Some frame =>
          {| runtime := performOptimisticUpdate_resume frame outcome (runtime sys);
             suspended := delete k (suspended sys) |}
      | None => sys
      end
  | write f =>
      {| runtime := {| store := f (store (runtime sys));
                       isUpdating := isUpdating (runtime sys) |};
         suspended := suspended sys |}
  end.

Definition run (sys : System) (events : list Event) : System :=
  foldl step sys events.

(** The module as loaded: nothing in flight, the lock free. *)
Definition loaded (s : Store) : System :=
  {| runtime := {| store := s; isUpdating := false |}; suspended := [] |}.

End State.

(** ** state.js: publish and subscribe

    The callbacks act on whatever they close over; [W] is that world and
    [Data] the payload of an event. A callback returns or throws. *)

Module PubSub.
Section WithWorld.

Context {W Data : Type}.

Inductive Outcome : Type :=
| normal (w : W)
| thrown (exn : string) (w : W).

Definition Callback : Type := Data -> W -> Outcome.

(** [const subscribers = {}] *)
Definition Subscribers : Type := gmap string (list Callback).

(** [callbacks.forEach(callback => callback(data))]: an exception
    leaves the loop. *)
Fixpoint forEach (callbacks : list Callback) (data : Data) (w : W) : Outcome :=
  match callbacks with
  | [] => normal w
  | callback :: rest =>
      match callback data w with
      | normal w1 => forEach rest data w1
      | thrown exn w1 => thrown exn w1
      end
  end.

(** [subscribers[event]?.forEach(...)] *)
Definition publish (subscribers : Subscribers) (event : string) (data : Data) (w : W)
    : Outcome :=
  match subscribers !! event with
  | Some callbacks => forEach callbacks data w
  | None => normal w
  end.




End WithWorld.
Arguments Outcome W : clear implicits.
Arguments Callback W Data : clear implicits.
Arguments Subscribers W Data : clear implicits.
End PubSub.

(** ** playlist.js *)

Module Playlist.
Import State.

(** [[a[i], a[j]] = [a[j], a[i]]] *)
Definition swap {A} (a : list A) (i j : nat) : list A :=
  match a !! i, a !! j with
  | Some x, Some y => <[i := y]> (<[j := x]> a)
  | _, _ => a
  end.

(** The Fisher-Yates loop, [for (let i = ...; i > 0; i--)], entered
    with the current [i]. *)
Fixpoint fisherYates (i : nat) (shuffled : list Song) (s : Store) : list Song * Store :=
  match i with
  | O => (shuffled, s)
  | S i' =>
      let '(j, s1) := randomBelow (i + 1) s in
      fisherYates i' (swap shuffled i j) s1
  end.

Definition generateShuffledPlaylist (s : Store) : Store :=
  let currentPlaylist := getActivePlaylist s in
  let '(shuffled, s1) := fisherYates (length currentPlaylist - 1) currentPlaylist s in
  let index := currentSongIndex (getState s1) in
  match (if decide (index > -1) then js_index currentPlaylist index else None) with
  | Some currentSong =>
      let nowPlayingIndexInShuffle :=
        findIndex (fun x => bool_decide (path x = path currentSong)) shuffled in
      let shuffled1 :=
        if decide (nowPlayingIndexInShuffle > 0)
        then swap shuffled 0 (Z.to_nat nowPlayingIndexInShuffle)
        else shuffled in
      setShuffledPlaylist shuffled1 (setShuffledIndex 0 s1)
  | None =>
      setShuffledPlaylist shuffled (setShuffledIndex (-1) s1)
  end.

(** *** addSongsToActivePlaylist *)

Definition addSongsToActivePlaylist_optimisticAction
    (activePlaylistName : string) (songsToAddToPlaylist : list Song)
    : OptimisticAction := fun s =>
  (* 1. Backup: JSON.parse(JSON.stringify(...)) is a deep copy *)
  let originalPlaylists := playlists (musicData (getState s)) in
  (* 2. Action *)
  let currentMusicData := musicData (getState s) in
  let newSongsMap :=
    foldl (fun m song => <[path song := song]> m) (songs currentMusicData)
          songsToAddToPlaylist in
  let newPathsForPlaylist :=
    foldl (fun paths song => paths ++ [path song])
          (js_or (playlists currentMusicData !! activePlaylistName) [])
          songsToAddToPlaylist in
  let newPlaylistsMap :=
    <[activePlaylistName := newPathsForPlaylist]> (playlists currentMusicData) in
  let s1 := addSongsToCache (Some newSongsMap) s in
  let s2 := setPlaylists newPlaylistsMap s1 in
  let s3 := if isShuffling (getState s2) then generateShuffledPlaylist s2 else s2 in
  (* 3. Undo: the cache is left alone, only the playlists go back *)
  Returned
    (fun u =>
       let u1 := setPlaylists originalPlaylists u in
       if isShuffling (getState u1) then generateShuffledPlaylist u1 else u1)
    s3.

(** [songObjects] is [None] for a null argument. *)
Definition addSongsToActivePlaylist (songObjects : option (list Song)) (r : Runtime)
    : Runtime * option Pending :=
  match songObjects with
  | None => (r, None)
  | Some [] => (r, None)
  | Some songObjects =>
      let musicData := musicData (getState (store r)) in
      let activePlaylistName := activePlaylist musicData in
      let activePlaylistPaths :=
        JsSet.from (js_or (playlists musicData !! activePlaylistName) []) in
      let songsToAddToPlaylist :=
        List.filter (fun song => negb (JsSet.has activePlaylistPaths (path song)))
                    songObjects in
      match songsToAddToPlaylist with
      | [] =>
          ({| store := showToast "Selected song(s) already exist in this playlist." info (store r);
              isUpdating := isUpdating r |}, None)
      | _ =>
          performOptimisticUpdate
            (addSongsToActivePlaylist_optimisticAction activePlaylistName songsToAddToPlaylist)
            (fun _ => addSongsToPlaylist activePlaylistName songsToAddToPlaylist)
            {| successMessage :=
                 Some (Text (pretty (length songsToAddToPlaylist) ++ " song(s) added to "
                             ++ activePlaylistName ++ "."));
               errorMessagePrefix := Some "Error adding songs"%string;
               onSuccess := None;
               playerWasReset := false |}
            r
      end
  end.

(** *** deleteSelectedSongs *)

Definition deleteSelectedSongs_optimisticAction
    (selectedSongPaths : list string) (playingSong : option Song)
    (wasPlayingSongDeleted : bool) : OptimisticAction := fun s =>
  (* 1. Backup *)
  let musicData0 := musicData (getState s) in
  let playQueue0 := playQueue (getState s) in
  let currentSongIndex0 := currentSongIndex (getState s) in
  let isShuffling0 := isShuffling (getState s) in
  let deletedSongObjects : gmap string Song :=
    foldl (fun acc p =>
             match songs musicData0 !! p with
             | Some song => <[p := song]> acc
             | None => acc
             end) ∅ selectedSongPaths in
  let originalPlaylists := playlists musicData0 in
  let originalPlayQueue := playQueue0 in
  (* 2. Action *)
  let newSongsMap := foldl (fun m p => delete p m) (songs musicData0) selectedSongPaths in
  let newPlaylistsMap :=
    (fun pPaths => List.filter (fun p => negb (includes selectedSongPaths p)) pPaths)
      <$> playlists musicData0 in
  let newMusicData :=
    {| data_songs := Some newSongsMap; data_playlists := Some newPlaylistsMap;
       data_playlistOrder := Some (playlistOrder musicData0);
       data_activePlaylist := Some (activePlaylist musicData0) |} in
  let s1 := setMusicData newMusicData s in
  let optimisticPlayQueue :=
    List.filter (fun song => negb (includes selectedSongPaths (path song))) playQueue0 in
  let optimisticCurrentSongIndex : option Z :=
    if wasPlayingSongDeleted then Some (-1)
    else
      match playingSong with
      | Some playing =>
          (* [musicData] is the live object, read after [setMusicData] *)
          match newPlaylistsMap !! activePlaylist (musicData (getState s1)) with
          | Some newActivePlaylistPaths =>
              Some (findIndex (fun p => bool_decide (p = path playing)) newActivePlaylistPaths)
          | None => None
          end
      | None => Some currentSongIndex0
      end in
  match optimisticCurrentSongIndex with
  | None => Threw "Cannot read properties of undefined (reading 'findIndex')" s1
  | Some index =>
      let s2 := setPlayQueue optimisticPlayQueue s1 in
      let s3 := setCurrentSongIndex index s2 in
      let s4 := setSelectedSongPaths [] s3 in
      let s5 := setLastClickedPath None s4 in
      let s6 := if isShuffling0 then generateShuffledPlaylist s5 else s5 in
      (* 3. Undo *)
      Returned
        (fun u =>
           let live := musicData (getState u) in
           let restoredMusicData :=
             {| data_songs := Some (merge_objects (songs live) deletedSongObjects);
                data_playlists := Some originalPlaylists;
                data_playlistOrder := Some (playlistOrder live);
                data_activePlaylist := Some (activePlaylist live) |} in
           let u1 := setMusicData restoredMusicData u in
           let u2 := setPlayQueue originalPlayQueue u1 in
           let u3 := setCurrentSongIndex currentSongIndex0 u2 in
           if isShuffling0 then generateShuffledPlaylist u3 else u3)
        s6
  end.

(** [deleteSelectedSongs] up to [await UI.showConfirmation(message)]:
    the selection it has read, or [None] when it returned at once. *)
Definition deleteSelectedSongs (r : Runtime) : option (list string) :=
  match selectedSongPaths (getState (store r)) with
  | [] => None
  | selected => Some selected
  end.

(** [deleteSelectedSongs] after the confirmation dialog has answered. *)
Definition deleteSelectedSongs_confirmed (selectedSongPaths : list string)
    (confirmed : bool) (r : Runtime) : Runtime * option Pending :=
  if negb confirmed then (r, None)
  else
    let playingSong :=
      js_index (getActivePlaylist (store r)) (currentSongIndex (getState (store r))) in
    let wasPlayingSongDeleted :=
      match playingSong with
      | Some playing => truthy (path playing) && includes selectedSongPaths (path playing)
      | None => false
      end in
    performOptimisticUpdate
      (deleteSelectedSongs_optimisticAction selectedSongPaths playingSong wasPlayingSongDeleted)
      (fun _ => deleteSongs selectedSongPaths)
      {| successMessage :=
           Some (Text (pretty (length selectedSongPaths) ++ " song(s) deleted."));
         errorMessagePrefix := Some "Error deleting songs"%string;
         onSuccess := None;
         playerWasReset := wasPlayingSongDeleted |}
      r.

(** *** The play queue *)

(** The double quote character of the toast texts. *)
Definition quote : string := String (Ascii.ascii_of_nat 34) EmptyString.

(** [`${song.name}`] for a name that may be [undefined]. *)
Definition nameText (song : Song) : string := js_or (name song) "undefined".

Definition addSelectedToQueue (s : Store) : Store :=
  let selected := selectedSongPaths (getState s) in
  let queue := playQueue (getState s) in
  let songsToAdd :=
    List.filter (fun song => includes selected (path song) && negb (isMissing song))
                (getActivePlaylist s) in
  match songsToAdd with
  | [] => s
  | first :: rest =>
      let message :=
        match rest with
        | [] => (quote ++ nameText first ++ quote ++ " added to queue")%string
        | _ => (pretty (length songsToAdd) ++ " songs added to queue")%string
        end in
      showToast message info (setPlayQueue (queue ++ songsToAdd) s)
  end.

Definition playSelectedNext (s : Store) : Store :=
  let selected := selectedSongPaths (getState s) in
  let queue := playQueue (getState s) in
  let songsToAdd :=
    List.filter (fun song => includes selected (path song) && negb (isMissing song))
                (getActivePlaylist s) in
  match songsToAdd with
  | [] => s
  | first :: rest =>
      let message :=
        match rest with
        | [] => (quote ++ nameText first ++ quote ++ " will play next")%string
        | _ => (pretty (length songsToAdd) ++ " songs will play next")%string
        end in
      showToast message info (setPlayQueue (songsToAdd ++ queue) s)
  end.

Definition removeSelectedFromQueue (s : Store) : Store :=
  let selected := selectedSongPaths (getState s) in
  match selected with
  | [] => s
  | _ =>
      setLastClickedPath None
        (setSelectedSongPaths []
           (setPlayQueue
              (List.filter (fun song => negb (includes selected (path song)))
                           (playQueue (getState s)))
              s))
  end.

(** *** Selection *)

(** The modifier keys of a click. *)
Record ClickEvent := {
  shiftKey : bool;
  ctrlKey : bool;
  metaKey : bool
}.

(** [arr.slice(start, end)] for bounds inside the array. *)
Definition slice {A} (arr : list A) (start stop : Z) : list A :=
  take (Z.to_nat (stop - start)) (drop (Z.to_nat start) arr).

(** [handleSongSelection]; [vListDataSource] is what
    [UI.getVisibleSongDataSource()] returns. *)
Definition handleSongSelection (vListDataSource : list Song) (clickedPath : string)
    (event : ClickEvent) (s : Store) : Store :=
  let selected := selectedSongPaths (getState s) in
  let anchor :=
    match lastClickedPath (getState s) with
    | Some p => if truthy p then Some p else None
    | None => None
    end in
  match (if shiftKey event then anchor else None) with
  | Some lastClicked =>
      let startIdx :=
        findIndex (fun x => bool_decide (path x = lastClicked)) vListDataSource in
      let endIdx :=
        findIndex (fun x => bool_decide (path x = clickedPath)) vListDataSource in
      if decide (startIdx > -1 /\ endIdx > -1) then
        let start := Z.min startIdx endIdx in
        let stop := Z.max startIdx endIdx in
        setSelectedSongPaths (map path (slice vListDataSource start (stop + 1))) s
      else s
  | None =>
      if ctrlKey event || metaKey event then
        let newSelection := JsSet.from selected in
        let toggled :=
          if JsSet.has newSelection clickedPath
          then JsSet.delete clickedPath newSelection
          else JsSet.add clickedPath newSelection in
        setLastClickedPath (Some clickedPath) (setSelectedSongPaths toggled s)
      else
        setLastClickedPath (Some clickedPath) (setSelectedSongPaths [clickedPath] s)
  end.

(** *** Imported playlists *)

(** The playlist object that the backend hands over after an import;
    each of its properties may be missing. *)
Record PlaylistData := {
  imported_name : option string;
  imported_paths : option (list string);
  imported_songs : option (gmap string Song)
}.

(** [addPlaylistToState(playlistData)]; [None] is a null argument. *)
Definition addPlaylistToState (playlistData : option PlaylistData) (s : Store) : Store :=
  match playlistData with
  | Some {| imported_name := Some name; imported_paths := Some paths;
            imported_songs := Some songs |} =>
      if negb (truthy name) then s
      else
        let musicData := musicData (getState s) in
        let newSongs := merge_objects (State.songs musicData) songs in
        let newPlaylists := <[name := paths]> (playlists musicData) in
        let newPlaylistOrder := playlistOrder musicData ++ [name] in
        setMusicData
          {| data_songs := Some newSongs; data_playlists := Some newPlaylists;
             data_playlistOrder := Some newPlaylistOrder;
             data_activePlaylist := Some (activePlaylist musicData) |}
          s
  | _ => s
  end.

(** *** Keyboard navigation *)

Inductive Arrow := up | down.

(** [navigateSongList(direction)] on the visible list [dataSource],
    without the scroll position that it sets at the end. [None]: the
    function threw, [dataSource[nextIndex]] being [undefined]. *)
Definition navigateSongList (direction : Arrow) (dataSource : list Song) (s : Store)
    : option Store :=
  match dataSource with
  | [] => Some s
  | _ =>
      let currentIndex :=
        match lastClickedPath (getState s) with
        | Some p =>
            if truthy p then findIndex (fun x => bool_decide (path x = p)) dataSource
            else -1
        | None => -1
        end in
      let len := Z.of_nat (length dataSource) in
      let nextIndex :=
        match direction with
        | up => if decide (currentIndex > 0) then currentIndex - 1 else 0
        | down => if decide (currentIndex < len - 1) then currentIndex + 1 else len - 1
        end in
      if decide (nextIndex = currentIndex) then Some s
      else
        match js_index dataSource nextIndex with
        | Some nextSong =>
            Some (setLastClickedPath (Some (path nextSong))
                    (setSelectedSongPaths [path nextSong] s))
        | None => None
        end
  end.

(** *** Switching playlists *)

(** [switchPlaylist] up to [await Api.saveActivePlaylist(name)]; a
    failure of that call is only logged. The search box that it clears
    and the media element that it stops afterwards are not part of the
    store. *)
Definition switchPlaylist (playlistName : string) (s : Store) : Store :=
  if bool_decide (activePlaylist (musicData (getState s)) = playlistName) then s
  else
    let s1 := setActivePlaylist playlistName s in
    let s2 := setViewMode ViewPlaylist s1 in
    let s3 := setCurrentSongIndex (-1) s2 in
    let s4 := setSelectedSongPaths [] s3 in
    let s5 := setLastClickedPath None s4 in
    let s6 := setPlayQueue [] s5 in
    let s7 := if isShuffling (getState s6) then generateShuffledPlaylist s6 else s6 in
    callApi (otherRequest "saveActivePlaylist") s7.

Inductive Direction := next | prev.

(** The remainder operator [%]: the sign follows the dividend. *)
Definition js_rem (a b : Z) : Z := Z.rem a b.

Definition cyclePlaylist (direction : Direction) (s : Store) : Store :=
  let order := playlistOrder (musicData (getState s)) in
  let active := activePlaylist (musicData (getState s)) in
  let len := Z.of_nat (length order) in
  if decide (len < 2) then s
  else
    let currentIndex := findIndex (fun n => bool_decide (n = active)) order in
    let nextIndex :=
      match direction with
      | next => js_rem (currentIndex + 1) len
      | prev => js_rem (currentIndex - 1 + len) len
      end in
    match js_index order nextIndex with
    | Some nextPlaylist => if truthy nextPlaylist then switchPlaylist nextPlaylist s else s
    | None => s
    end.

(** *** Renaming, deleting and creating playlists *)

Definition renamePlaylist_optimisticAction (oldName newName : string)
    : OptimisticAction := fun s =>
  (* 1. Backup *)
  let data := musicData (getState s) in
  let originalPlaylists := playlists data in
  let originalOrder := playlistOrder data in
  let originalActivePlaylist := activePlaylist data in
  (* 2. Action. A playlist that is missing under [oldName] would leave
     [newName] with the value [undefined], which reads like no entry. *)
  let optimisticPlaylists :=
    delete oldName
      (match playlists data !! oldName with
       | Some paths => <[newName := paths]> (playlists data)
       | None => playlists data
       end) in
  let optimisticOrder :=
    map (fun n => if bool_decide (n = oldName) then newName else n) (playlistOrder data) in
  let optimisticActivePlaylist :=
    if bool_decide (activePlaylist data = oldName) then newName else activePlaylist data in
  let s1 := setActivePlaylist optimisticActivePlaylist s in
  let s2 := setPlaylistOrder optimisticOrder s1 in
  let s3 := setPlaylists optimisticPlaylists s2 in
  (* 3. Undo *)
  Returned
    (fun u =>
       setPlaylists originalPlaylists
         (setPlaylistOrder originalOrder
            (setActivePlaylist originalActivePlaylist u)))
    s3.

(** [renamePlaylist] with its [finalize]; [newName] is the trimmed text
    of the input field. *)
Definition renamePlaylist (oldName newName : string) (r : Runtime)
    : Runtime * option Pending :=
  if bool_decide (oldName = "Default"%string) then
    ({| store := showToast "Cannot rename the Default playlist." error (store r);
        isUpdating := isUpdating r |}, None)
  else if negb (truthy newName) || bool_decide (newName = oldName) then (r, None)
  else
    match js_get (playlists (musicData (getState (store r)))) newName with
    | Own _ | Inherited _ =>
        ({| store := showToast "A playlist with this name already exists." error (store r);
            isUpdating := isUpdating r |}, None)
    | Undefined =>
        performOptimisticUpdate
          (renamePlaylist_optimisticAction oldName newName)
          (fun _ => otherRequest "renamePlaylist")
          {| successMessage := Some (Text ("Playlist renamed to " ++ quote ++ newName ++ quote));
             errorMessagePrefix := Some "Error renaming playlist"%string;
             onSuccess := None;
             playerWasReset := false |}
          r
    end.

Definition deletePlaylist_optimisticAction (playlistName : string)
    (wasPlayingInDeletedPlaylist : bool) : OptimisticAction := fun s =>
  (* 1. Backup *)
  let data := musicData (getState s) in
  let currentSongIndex0 := currentSongIndex (getState s) in
  let originalPlaylists := playlists data in
  let originalPlaylistOrder := playlistOrder data in
  let originalActivePlaylist := activePlaylist data in
  let originalPlayQueue := playQueue (getState s) in
  (* 2. Action *)
  let optimisticPlaylists := delete playlistName (playlists data) in
  let optimisticPlaylistOrder :=
    List.filter (fun n => negb (bool_decide (n = playlistName))) (playlistOrder data) in
  let s1 :=
    if wasPlayingInDeletedPlaylist then
      setPlayQueue []
        (setLastClickedPath None
           (setSelectedSongPaths []
              (setCurrentSongIndex (-1)
                 (setViewMode ViewPlaylist
                    (setActivePlaylist "Default" s)))))
    else s in
  let s2 := setPlaylistOrder optimisticPlaylistOrder s1 in
  let s3 := setPlaylists optimisticPlaylists s2 in
  (* 3. Undo *)
  Returned
    (fun u =>
       let u1 := setPlaylists originalPlaylists u in
       let u2 := setPlaylistOrder originalPlaylistOrder u1 in
       let u3 := setActivePlaylist originalActivePlaylist u2 in
       let u4 := setPlayQueue originalPlayQueue u3 in
       if wasPlayingInDeletedPlaylist then setCurrentSongIndex currentSongIndex0 u4 else u4)
    s3.

(** [deletePlaylist] from the answer of the confirmation dialog on. The
    backend call stands for [Api.deletePlaylist] followed, on success, by
    [Api.saveActivePlaylist]. The media element, which the action stops
    when the playlist was the active one, is not part of the store. *)
Definition deletePlaylist (playlistName : string) (confirmed : bool) (r : Runtime)
    : Runtime * option Pending :=
  if bool_decide (playlistName = "Default"%string) then
    ({| store := showToast "Cannot delete the Default playlist." error (store r);
        isUpdating := isUpdating r |}, None)
  else if negb confirmed then (r, None)
  else
    let wasPlayingInDeletedPlaylist :=
      bool_decide (activePlaylist (musicData (getState (store r))) = playlistName) in
    performOptimisticUpdate
      (deletePlaylist_optimisticAction playlistName wasPlayingInDeletedPlaylist)
      (fun _ => otherRequest "deletePlaylist")
      {| successMessage := Some (Text ("Playlist " ++ quote ++ playlistName ++ quote ++ " deleted."));
         errorMessagePrefix := Some "Error deleting playlist"%string;
         onSuccess := None;
         playerWasReset := wasPlayingInDeletedPlaylist |}
      r.

Definition createNewPlaylist_optimisticAction (newName : string) : OptimisticAction :=
  fun s =>
  let data := musicData (getState s) in
  let originalPlaylists := playlists data in
  let originalOrder := playlistOrder data in
  let optimisticOrder := playlistOrder data ++ [newName] in
  let s1 := setPlaylists (<[newName := []]> (playlists data)) s in
  let s2 := setPlaylistOrder optimisticOrder s1 in
  Returned
    (fun u => setPlaylistOrder originalOrder (setPlaylists originalPlaylists u))
    s2.

(** [createNewPlaylist] from the answer of the prompt on; [None] is a
    cancelled prompt and [newName] the trimmed answer. *)
Definition createNewPlaylist (newNameRaw : option string) (r : Runtime)
    : Runtime * option Pending :=
  match newNameRaw with
  | None => (r, None)
  | Some newName =>
      performOptimisticUpdate
        (createNewPlaylist_optimisticAction newName)
        (fun _ => otherRequest "reorderPlaylists")
        {| successMessage := Some (Text ("Playlist " ++ quote ++ newName ++ quote ++ " created."));
           errorMessagePrefix := Some "Failed to save new playlist"%string;
           onSuccess := None;
           playerWasReset := false |}
        r
  end.

(** *** Reordering by drag and drop *)

(** [arr.splice(start, 0, ...items)] *)
Definition splice_insert {A} (arr : list A) (start : Z) (items : list A) : list A :=
  let len := Z.of_nat (length arr) in
  let at_ := if decide (start < 0) then Z.max (len + start) 0 else Z.min start len in
  take (Z.to_nat at_) arr ++ items ++ drop (Z.to_nat at_) arr.

(** The new order that [handleSongReorderDrop] computes, for the rows of
    the queue or the paths of a playlist; [key] gives the path of a row
    and [targetIndex] is [Math.round(relativeY / ITEM_HEIGHT)]. *)
Definition reorderedByDrop {A} (key : A -> string) (selectedSongPaths : list string)
    (targetIndex : Z) (original : list A) : list A :=
  let targetIndex := Z.max 0 (Z.min targetIndex (Z.of_nat (length original))) in
  let toMove := List.filter (fun x => includes selectedSongPaths (key x)) original in
  let remaining :=
    List.filter (fun x => negb (includes selectedSongPaths (key x))) original in
  let movedItemsBeforeTarget :=
    Z.of_nat (length (List.filter (fun x => includes selectedSongPaths (key x))
                                  (slice original 0 targetIndex))) in
  splice_insert remaining (targetIndex - movedItemsBeforeTarget) toMove.

Definition handleSongReorderDrop_optimisticAction (currentPlaylistName : string)
    (newOrderedPaths : list string) : OptimisticAction := fun s =>
  (* 1. Backup: the array itself, or undefined *)
  let originalPaths := playlists (musicData (getState s)) !! currentPlaylistName in
  (* 2. Action *)
  let optimisticPlaylists :=
    <[currentPlaylistName := newOrderedPaths]> (playlists (musicData (getState s))) in
  let s1 := setPlaylists optimisticPlaylists s in
  let s2 := if isShuffling (getState s1) then generateShuffledPlaylist s1 else s1 in
  (* 3. Undo. Restoring [undefined] leaves a property that reads like
     no entry. *)
  Returned
    (fun u =>
       let live := playlists (musicData (getState u)) in
       let restoredPlaylists :=
         match originalPaths with
         | Some paths => <[currentPlaylistName := paths]> live
         | None => delete currentPlaylistName live
         end in
       let u1 := setPlaylists restoredPlaylists u in
       if isShuffling (getState u1) then generateShuffledPlaylist u1 else u1)
    s2.

Definition handleSongReorderDrop (targetIndex : Z) (r : Runtime)
    : Runtime * option Pending :=
  let selected := selectedSongPaths (getState (store r)) in
  match selected with
  | [] => (r, None)
  | _ =>
      match viewMode (getState (store r)) with
      | ViewQueue =>
          let originalQueue := playQueue (getState (store r)) in
          ({| store := setPlayQueue (reorderedByDrop path selected targetIndex originalQueue)
                                    (store r);
              isUpdating := isUpdating r |}, None)
      | ViewPlaylist =>
          let currentPlaylistName := activePlaylist (musicData (getState (store r))) in
          let originalPlaylistPaths :=
            js_or (playlists (musicData (getState (store r))) !! currentPlaylistName) [] in
          let newOrderedPaths :=
            reorderedByDrop (fun p => p) selected targetIndex originalPlaylistPaths in
          performOptimisticUpdate
            (handleSongReorderDrop_optimisticAction currentPlaylistName newOrderedPaths)
            (fun _ => otherRequest "reorderPlaylistSongs")
            {| successMessage := None;
               errorMessagePrefix := Some "Failed to save song order"%string;
               onSuccess := None;
               playerWasReset := false |}
            r
      end
  end.

End Playlist.

(** ** ui/virtualList.js *)

Module VirtualList.

Definition ITEM_HEIGHT : Z := 46.
Definition BUFFER_ITEMS : Z := 5.

(** A pooled [<li>]: its position, its [dataset] (the memo of what was
    painted last), its two text spans and its classes. *)
Record Node := {
  transform : option Z;             (* translateY(<n>px) *)
  dataset_path : option string;
  dataset_loading : option bool;    (* String(isLoading) *)
  dataset_title : option string;
  dataset_artist : option string;
  dataset_playing : option bool;
  dataset_missing : option bool;
  dataset_selected : option bool;
  draggable : bool;
  title_text : string;
  artist_text : string;
  class_is_loading : bool;
  class_playing : bool;
  class_missing : bool;
  class_selected : bool;
  class_hidden : bool
}.

(** [document.createElement('li')] with [draggable = true] and the two
    empty spans. *)
Definition createNode : Node :=
  {| transform := None; dataset_path := None; dataset_loading := None;
     dataset_title := None; dataset_artist := None; dataset_playing := None;
     dataset_missing := None; dataset_selected := None; draggable := true;
     title_text := ""; artist_text := ""; class_is_loading := false;
     class_playing := false; class_missing := false; class_selected := false;
     class_hidden := false |}.

(** [vList] with the scroll position and height of its container, and
    the module-level variables of the file. [fetchTimer] tells whether
    the timer of the debounced [processPendingFetches] is armed. *)
Record VList := {
  scrollTop : Q;
  clientHeight : Z;
  visibleNodes : list Node;
  dataSource : list State.Song;
  isRenderScheduled : bool;
  pathsCurrentlyFetching : JsSet.t;
  pendingPathsToFetch : JsSet.t;
  fetchTimer : bool
}.

(** [Math.floor(scrollTop / ITEM_HEIGHT)] *)
Definition startIndex (scrollTop : Q) : Z :=
  Qfloor (scrollTop / inject_Z ITEM_HEIGHT).

(** [Math.ceil(clientHeight / ITEM_HEIGHT)] *)
Definition numVisibleItems (clientHeight : Z) : Z :=
  Qceiling (inject_Z clientHeight / inject_Z ITEM_HEIGHT).

Definition renderStartIndex (scrollTop : Q) : Z :=
  Z.max 0 (startIndex scrollTop - BUFFER_ITEMS).

Definition renderEndIndex (scrollTop : Q) (clientHeight : Z) (len : Z) : Z :=
  Z.min (len - 1)
        (startIndex scrollTop + numVisibleItems clientHeight + BUFFER_ITEMS).

(** [while (visibleNodes.length <= d) visibleNodes.push(li)]: the pool
    ends with more than [d] nodes and never shrinks. *)
Definition growPool (d : Z) (nodes : list Node) : list Node :=
  nodes ++ replicate (Z.to_nat (d + 1) - length nodes) createNode.

(** The body of the row loop up to the loading memo. *)
Definition paintPosition (i : Z) (songData : State.Song) (isLoading : bool)
    (node : Node) : Node :=
  let changed := negb (bool_decide (dataset_loading node = Some isLoading)) in
  let cleared := changed && isLoading in
  {| transform := Some (i * ITEM_HEIGHT);
     dataset_path := Some (State.path songData);
     dataset_loading := if changed then Some isLoading else dataset_loading node;
     dataset_title := if cleared then None else dataset_title node;
     dataset_artist := if cleared then None else dataset_artist node;
     dataset_playing := dataset_playing node;
     dataset_missing := dataset_missing node;
     dataset_selected := dataset_selected node;
     draggable := if changed then negb isLoading else draggable node;
     title_text := if cleared then "" else title_text node;
     artist_text := if cleared then "" else artist_text node;
     class_is_loading := if changed then isLoading else class_is_loading node;
     class_playing := class_playing node;
     class_missing := class_missing node;
     class_selected := class_selected node;
     class_hidden := class_hidden node |}.

(** [value || fallback] on an optional string. *)
Definition textOr (value : option string) (fallback : string) : string :=
  match value with
  | Some v => if State.truthy v then v else fallback
  | None => fallback
  end.

(** The [else] branch for a hydrated row: text and flags, each written
    only when it differs from the memo. *)
Definition paintSong (song : State.Song) (isPlaying isSelected isMissing : bool)
    (node : Node) : Node :=
  let newTitle := textOr (State.name song) "Untitled" in
  let newArtist := textOr (State.artist song) "Unknown Artist" in
  let titleChanged := negb (bool_decide (dataset_title node = Some newTitle)) in
  let artistChanged := negb (bool_decide (dataset_artist node = Some newArtist)) in
  let playingChanged := negb (bool_decide (dataset_playing node = Some isPlaying)) in
  let missingChanged := negb (bool_decide (dataset_missing node = Some isMissing)) in
  let selectedChanged := negb (bool_decide (dataset_selected node = Some isSelected)) in
  {| transform := transform node;
     dataset_path := dataset_path node;
     dataset_loading := dataset_loading node;
     dataset_title := if titleChanged then Some newTitle else dataset_title node;
     dataset_artist := if artistChanged then Some newArtist else dataset_artist node;
     dataset_playing := if playingChanged then Some isPlaying else dataset_playing node;
     dataset_missing := if missingChanged then Some isMissing else dataset_missing node;
     dataset_selected := if selectedChanged then Some isSelected else dataset_selected node;
     draggable := draggable node;
     title_text := if titleChanged then newTitle else title_text node;
     artist_text := if artistChanged then newArtist else artist_text node;
     class_is_loading := class_is_loading node;
     class_playing := if playingChanged then isPlaying else class_playing node;
     class_missing := if missingChanged then isMissing else class_missing node;
     class_selected := if selectedChanged then isSelected else class_selected node;
     class_hidden := class_hidden node |}.

(** [classList.remove('hidden')] and [classList.add('hidden')] *)
Definition setHidden (b : bool) (node : Node) : Node :=
  {| transform := transform node;
     dataset_path := dataset_path node;
     dataset_loading := dataset_loading node;
     dataset_title := dataset_title node;
     dataset_artist := dataset_artist node;
     dataset_playing := dataset_playing node;
     dataset_missing := dataset_missing node;
     dataset_selected := dataset_selected node;
     draggable := draggable node;
     title_text := title_text node;
     artist_text := artist_text node;
     class_is_loading := class_is_loading node;
     class_playing := class_playing node;
     class_missing := class_missing node;
     class_selected := class_selected node;
     class_hidden := b |}.

(** One pass of the body of the row loop on the node it is given. *)
Definition paintRow (songCache : gmap string State.Song)
    (playingSongPath : option string) (selectedSongPaths : list string)
    (i : Z) (songData : State.Song) (node : Node) : Node :=
  let song := songCache !! State.path songData in
  match song with
  | None => setHidden false (paintPosition i songData true node)
  | Some song =>
      let isPlaying := bool_decide (Some (State.path song) = playingSongPath) in
      let isSelected := includes selectedSongPaths (State.path song) in
      let isMissing := State.isMissing song in
      setHidden false
        (paintSong song isPlaying isSelected isMissing
           (paintPosition i songData false node))
  end.

(** The row loop [for (let i = renderStartIndex; i <= renderEndIndex;
    i++, nodeIndex++)], entered with [n] indices still to visit. The
    result is [None] when [dataSource[i]] or [visibleNodes[nodeIndex]]
    is [undefined], which makes the body throw. *)
Fixpoint rowLoop (songCache : gmap string State.Song)
    (playingSongPath : option string) (selectedSongPaths : list string)
    (dataSource : list State.Song)
    (n : nat) (i : Z) (nodeIndex : nat)
    (nodes : list Node) (pending : JsSet.t)
    : option (list Node * JsSet.t * nat) :=
  match n with
  | O => Some (nodes, pending, nodeIndex)
  | S n' =>
      match js_index dataSource i, nodes !! nodeIndex with
      | Some songData, Some node =>
          let node' := paintRow songCache playingSongPath selectedSongPaths i songData node in
          let pending' :=
            match songCache !! State.path songData with
            | None => JsSet.add (State.path songData) pending
            | Some _ => pending
            end in
          rowLoop songCache playingSongPath selectedSongPaths dataSource
                  n' (i + 1) (S nodeIndex) (<[nodeIndex := node']> nodes) pending'
      | _, _ => None
      end
  end.

(** [for (let i = nodeIndex; i < visibleNodes.length; i++)] *)
Definition hideFrom (nodeIndex : nat) (nodes : list Node) : list Node :=
  take nodeIndex nodes ++ map (setHidden true) (drop nodeIndex nodes).

Definition renderVisibleSongs (s : State.Store) (v : VList) : option VList :=
  let first := renderStartIndex (scrollTop v) in
  let last :=
    renderEndIndex (scrollTop v) (clientHeight v) (Z.of_nat (length (dataSource v))) in
  let currentSongIndex := State.currentSongIndex (State.getState s) in
  let selectedSongPaths := State.selectedSongPaths (State.getState s) in
  let playingSongPath :=
    State.path <$> js_index (State.getActivePlaylist s) currentSongIndex in
  let songCache := State.songs (State.musicData (State.getState s)) in
  let pool := growPool (last - first) (visibleNodes v) in
  match rowLoop songCache playingSongPath selectedSongPaths (dataSource v)
                (Z.to_nat (last - first + 1)) first 0 pool (pendingPathsToFetch v) with
  | None => None
  | Some (nodes, pending, nodeIndex) =>
      Some {| scrollTop := scrollTop v;
              clientHeight := clientHeight v;
              visibleNodes := hideFrom nodeIndex nodes;
              dataSource := dataSource v;
              isRenderScheduled := false;
              pathsCurrentlyFetching := pathsCurrentlyFetching v;
              pendingPathsToFetch := pending;
              (* processPendingFetches(): the debounce timer is re-armed *)
              fetchTimer := true |}
  end.

(** The rows that are shown: the positions of the nodes without the
    class [hidden], in pool order. *)
Definition shownPositions (nodes : list Node) : list (option Z) :=
  map transform (List.filter (fun node => negb (class_hidden node)) nodes).

(** *** Lazy fetch *)

(** The debounced body of [processPendingFetches] together with
    [fetchSongData] up to [await Api.getSongsByPaths(newPaths)]. The
    second component is the frame that is suspended at the [await],
    holding [newPaths]. *)
Definition processPendingFetches (s : State.Store) (v : VList)
    : State.Store * VList * option (list string) :=
  let disarmed pending fetching :=
    {| scrollTop := scrollTop v; clientHeight := clientHeight v;
       visibleNodes := visibleNodes v; dataSource := dataSource v;
       isRenderScheduled := isRenderScheduled v;
       pathsCurrentlyFetching := fetching;
       pendingPathsToFetch := pending;
       fetchTimer := false |} in
  if decide (JsSet.size (pendingPathsToFetch v) = 0%nat)
  then (s, disarmed (pendingPathsToFetch v) (pathsCurrentlyFetching v), None)
  else
    let pathsToFetch := JsSet.from (pendingPathsToFetch v) in
    let pending := JsSet.clear (pendingPathsToFetch v) in
    (* fetchSongData(pathsToFetch) *)
    if decide (JsSet.size pathsToFetch = 0%nat)
    then (s, disarmed pending (pathsCurrentlyFetching v), None)
    else
      let newPaths :=
        List.filter (fun p => negb (JsSet.has (pathsCurrentlyFetching v) p)) pathsToFetch in
      match newPaths with
      | [] => (s, disarmed pending (pathsCurrentlyFetching v), None)
      | _ =>
          let fetching :=
            foldl (fun acc p => JsSet.add p acc) (pathsCurrentlyFetching v) newPaths in
          (State.callApi (State.getSongsByPaths newPaths) s,
           disarmed pending fetching, Some newPaths)
      end.

(** [fetchSongData] from the moment the backend answers: the [try]
    body after the [await], the [catch], and the [finally]. *)
Definition fetchSongData_resume (newPaths : list string)
    (outcome : Settled (option (gmap string State.Song)))
    (s : State.Store) (v : VList) : State.Store * VList :=
  let '(s1, v1) :=
    match outcome with
    | Resolved songsMap =>
        let s1 := State.addSongsToCache songsMap s in
        (* an exception of the render pass is caught and logged *)
        (s1, js_or (renderVisibleSongs s1 v) v)
    | Rejected _ => (s, v)
    end in
  (s1,
   {| scrollTop := scrollTop v1; clientHeight := clientHeight v1;
      visibleNodes := visibleNodes v1; dataSource := dataSource v1;
      isRenderScheduled := isRenderScheduled v1;
      pathsCurrentlyFetching :=
        foldl (fun acc p => JsSet.delete p acc) (pathsCurrentlyFetching v1) newPaths;
      pendingPathsToFetch := pendingPathsToFetch v1;
      fetchTimer := fetchTimer v1 |}).

(** *** The list over time *)

Inductive Event :=
| scroll (top : Q)                 (* the scroll listener *)
| resize (height : Z)
| setDataSource (rows : list State.Song)
| render                           (* renderVisibleSongs, from a frame or directly *)
| timer                            (* the debounce timer fires *)
| settle (k : nat) (outcome : Settled (option (gmap string State.Song)))
| write (f : State.Store -> State.Store).

Record Engine := {
  store : State.Store;
  vList : VList;
  awaiting : list (list string)     (* the suspended fetchSongData frames *)
}.

Definition step (e : Engine) (ev : Event) : Engine :=
  let v := vList e in
  match ev with
  | scroll top =>
      {| store := store e;
         vList := {| scrollTop := top; clientHeight := clientHeight v;
                     visibleNodes := visibleNodes v; dataSource := dataSource v;
                     isRenderScheduled := true;
                     pathsCurrentlyFetching := pathsCurrentlyFetching v;
                     pendingPathsToFetch := pendingPathsToFetch v;
                     fetchTimer := fetchTimer v |};
         awaiting := awaiting e |}
  | resize height =>
      {| store := store e;
         vList := {| scrollTop := scrollTop v; clientHeight := height;
                     visibleNodes := visibleNodes v; dataSource := dataSource v;
                     isRenderScheduled := isRenderScheduled v;
                     pathsCurrentlyFetching := pathsCurrentlyFetching v;
                     pendingPathsToFetch := pendingPathsToFetch v;
                     fetchTimer := fetchTimer v |};
         awaiting := awaiting e |}
  | setDataSource rows =>
      {| store := store e;
         vList := {| scrollTop := scrollTop v; clientHeight := clientHeight v;
                     visibleNodes := visibleNodes v; dataSource := rows;
                     isRenderScheduled := isRenderScheduled v;
                     pathsCurrentlyFetching := pathsCurrentlyFetching v;
                     pendingPathsToFetch := pendingPathsToFetch v;
                     fetchTimer := fetchTimer v |};
         awaiting := awaiting e |}
  | render =>
      {| store := store e;
         vList := js_or (renderVisibleSongs (store e) v) v;
         awaiting := awaiting e |}
  | timer =>
      if fetchTimer v then
        match processPendingFetches (store e) v with
        | (s1, v1, Some newPaths) =>
            {| store := s1; vList := v1; awaiting := awaiting e ++ [newPaths] |}
        | (s1, v1, None) =>
            {| store := s1; vList := v1; awaiting := awaiting e |}
        end
      else e
  | settle k outcome =>
      match awaiting e !! k with
      | Some newPaths =>
          let '(s1, v1) := fetchSongData_resume newPaths outcome (store e) v in
          {| store := s1; vList := v1; awaiting := delete k (awaiting e) |}
      | None => e
      end
  | write f =>
      {| store := f (store e); vList := v; awaiting := awaiting e |}
  end.

Definition run (e : Engine) (events : list Event) : Engine :=
  foldl step e events.

(** The list as [initVirtualList] leaves it: nothing pending, nothing
    in flight. *)
Definition initial (s : State.Store) (rows : list State.Song) (height : Z) : Engine :=
  {| store := s;
     vList := {| scrollTop := 0; clientHeight := height; visibleNodes := [];
                 dataSource := rows; isRenderScheduled := false;
                 pathsCurrentlyFetching := []; pendingPathsToFetch := [];
                 fetchTimer := false |};
     awaiting := [] |}.

(** *** renderSongList *)





End VirtualList.

(** ** main.js: the render scheduler *)

Module Main.

(** The keys of [dirty]. *)
Inductive Flag :=
| songList | songListStyles | playlists | player | header | shuffleRepeat | marker.

Global Instance Flag_eq_dec : EqDecision Flag.
Proof. solve_decision. Defined.

(** The [dirty] object: a value for each key. *)
Definition Dirty : Type := Flag -> bool.

(** The argument of [scheduleRender]: an object literal, its properties
    in source order. *)
Definition Updates : Type := list (Flag * bool).

(** [Object.assign(dirty, updates)]: every property of [updates] is
    written over the one in [dirty]. *)
Definition assign (dirty : Dirty) (updates : Updates) : Dirty :=
  foldl (fun d kv => fun key => if decide (key = kv.1) then kv.2 else d key)
        dirty updates.

Inductive Draw :=
| renderSongList
| updateSongListUI
| renderPlaylists
| updateActiveListHeader
| updateSearchUI
| updatePlayerInfo (song : State.Entry)
| resetPlayerUI
| broadcastStateChange
| updateShuffleButtonUI
| updateRepeatButtonUI
| updateMarkerSelectionUI.

(** [isRenderScheduled] and [dirty], the number of callbacks handed to
    [requestAnimationFrame] that have not run yet, and the redraws that
    were carried out, oldest first. *)
Record Scheduler := {
  isRenderScheduled : bool;
  dirty : Dirty;
  requestedFrames : nat;
  drawn : list Draw
}.

Definition scheduleRender (updates : Updates) (m : Scheduler) : Scheduler :=
  let dirty1 := assign (dirty m) updates in
  if isRenderScheduled m then
    {| isRenderScheduled := true; dirty := dirty1;
       requestedFrames := requestedFrames m; drawn := drawn m |}
  else
    {| isRenderScheduled := true; dirty := dirty1;
       requestedFrames := S (requestedFrames m); drawn := drawn m |}.

(** The scheduler between two frames: nothing dirty, nothing requested. *)
Definition idle (done : list Draw) : Scheduler :=
  {| isRenderScheduled := false; dirty := fun _ => false;
     requestedFrames := 0; drawn := done |}.

(** The calls of [scheduleRender] between two frames, in order. *)
Definition scheduleAll (calls : list Updates) (m : Scheduler) : Scheduler :=
  foldl (fun acc updates => scheduleRender updates acc) m calls.

(** *** The frame callback

    [performScheduledRenders] is an [async] function without a [try].
    It is suspended at [await UI.renderSongList()] and at
    [await UI.updatePlayerInfo(song)]; other code may run while it
    waits, and [dirty] and the store are read when it goes on. An error
    (an awaited promise that is rejected, or the TypeError of
    [State.getActivePlaylist()]) leaves the callback where it arises:
    the rest of the body, the reset of [isRenderScheduled] and [dirty]
    included, is not run, and the promise of the callback is rejected.
    [State.getActivePlaylist()] is called by the callback itself, by
    [UI.updateSongListUI()] through [renderVisibleSongs], and by
    [window.getCurrentStateForSync()] for the broadcast; the other
    redraws only write the DOM and are taken to return. *)
Inductive Suspension := atRenderSongList | atUpdatePlayerInfo.

(** The message of the TypeError of [State.getActivePlaylist()]. *)
Definition notAnArray : string := "activePlaylistPaths.map is not a function".

(** Where a piece of the callback stops: at an [await], or at the end
    of the callback with the way its promise settled. *)
Inductive Progress :=
| Suspended (suspension : Suspension)
| Ended (outcome : Settled unit).

Definition draw (draws : list Draw) (m : Scheduler) : Scheduler :=
  {| isRenderScheduled := isRenderScheduled m; dirty := dirty m;
     requestedFrames := requestedFrames m; drawn := drawn m ++ draws |}.

(** From [if (dirty.shuffleRepeat)] to the end of the callback. *)
Definition frameEnd (m : Scheduler) : Scheduler :=
  let m1 :=
    draw (if dirty m shuffleRepeat
          then [updateShuffleButtonUI; updateRepeatButtonUI] else []) m in
  let m2 := draw (if dirty m1 marker then [updateMarkerSelectionUI] else []) m1 in
  {| isRenderScheduled := false; dirty := fun _ => false;
     requestedFrames := requestedFrames m2; drawn := drawn m2 |}.

(** From the broadcast after the player section on. Its argument is
    built by [window.getCurrentStateForSync()], which reads
    [State.getActivePlaylist()] on the store of that moment. *)
Definition frameAfterPlayer (s : State.Store) (m : Scheduler) : Scheduler * Progress :=
  match State.getActivePlaylist_read s with
  | None => (m, Ended (Rejected notAnArray))
  | Some _ => (frameEnd (draw [broadcastStateChange] m), Ended (Resolved tt))
  end.

(** From [if (dirty.playlists)] on. *)
Definition frameAfterSongList (s : State.Store) (m : Scheduler) : Scheduler * Progress :=
  let m1 := draw (if dirty m playlists then [renderPlaylists] else []) m in
  let m2 :=
    draw (if dirty m1 header then [updateActiveListHeader; updateSearchUI] else []) m1 in
  if dirty m2 player then
    match State.getActivePlaylist_read s with
    | None => (m2, Ended (Rejected notAnArray))
    | Some activePlaylist =>
        match js_index activePlaylist (State.currentSongIndex (State.getState s)) with
        | Some song => (draw [updatePlayerInfo song] m2, Suspended atUpdatePlayerInfo)
        | None => frameAfterPlayer s (draw [resetPlayerUI] m2)
        end
    end
  else (frameEnd m2, Ended (Resolved tt)).

(** The frame callback from its start to its first [await], or to its
    end when it meets none. *)
Definition performScheduledRenders_start (s : State.Store) (m : Scheduler)
    : Scheduler * Progress :=
  let m0 :=
    {| isRenderScheduled := isRenderScheduled m; dirty := dirty m;
       requestedFrames := pred (requestedFrames m); drawn := drawn m |} in
  if dirty m0 songList then (draw [renderSongList] m0, Suspended atRenderSongList)
  else if dirty m0 songListStyles then
    (* UI.updateSongListUI() *)
    match State.getActivePlaylist_read s with
    | None => (m0, Ended (Rejected notAnArray))
    | Some _ => frameAfterSongList s (draw [updateSongListUI] m0)
    end
  else frameAfterSongList s m0.

(** The frame callback from the end of an [await] to the next one, or
    to its end. *)
Definition performScheduledRenders_resume (suspension : Suspension)
    (outcome : Settled unit) (s : State.Store) (m : Scheduler) : Scheduler * Progress :=
  match outcome with
  | Rejected message => (m, Ended (Rejected message))
  | Resolved _ =>
      match suspension with
      | atRenderSongList => frameAfterSongList s m
      | atUpdatePlayerInfo => frameAfterPlayer s m
      end
  end.

(** What happens at an [await] of the callback: the calls of
    [scheduleRender] that arrive while it waits, the store that it finds
    when it goes on, and the way the awaited promise settled. *)
Record Await := {
  arrivals : list Updates;
  storeThen : State.Store;
  settled : Settled unit
}.

(** The callback goes on from the [await] at which it is suspended. *)
Definition goOn (await : Await) (p : Scheduler * Progress) : Scheduler * Progress :=
  match p with
  | (m, Suspended suspension) =>
      performScheduledRenders_resume suspension (settled await) (storeThen await)
        (scheduleAll (arrivals await) m)
  | (m, Ended outcome) => (m, Ended outcome)
  end.

(** One run of the frame callback. [first] is what happens at the first
    [await] that the run meets, [second] at the second; a run meets at
    most two. *)
Definition performScheduledRenders (s : State.Store) (first second : Await)
    (m : Scheduler) : Scheduler * Progress :=
  goOn second (goOn first (performScheduledRenders_start s m)).

(** *** initSubscriptions *)

(** An event that reaches the callback which main.js subscribed to it,
    with what that callback reads when it runs: the view mode and, for
    [songUpdated], whether the updated song is the playing one. *)
Record Delivery := {
  event : string;
  viewModeThen : State.ViewMode;
  updatedIsCurrent : bool
}.

(** The objects that the callback passes to [scheduleRender], one for
    each call it makes. These are all the calls of [scheduleRender] in
    the program. *)
Definition subscribedUpdates (d : Delivery) : list Updates :=
  let on name := bool_decide (event d = name) in
  if on "isShuffling"%string || on "loopMode"%string then [[(shuffleRepeat, true)]]
  else if on "selectedMarker"%string then [[(marker, true)]]
  else if on "musicData"%string
  then [[(songList, true); (playlists, true); (header, true)]]
  else if on "playlists"%string then [[(songList, true)]]
  else if on "activePlaylist"%string
  then [[(playlists, true); (songList, true); (header, true)]]
  else if on "playlistOrder"%string then [[(playlists, true)]]
  else if on "playQueue"%string then
    match viewModeThen d with
    | State.ViewQueue => [[(songList, true)]]
    | State.ViewPlaylist => []
    end
  else if on "viewMode"%string || on "searchMode"%string
  then [[(songList, true); (header, true)]]
  else if on "selectedSongPaths"%string then [[(songListStyles, true)]]
  else if on "currentSongIndex"%string then [[(songListStyles, true); (player, true)]]
  else if on "songUpdated"%string then
    [(songListStyles, true)] :: (if updatedIsCurrent d then [[(player, true)]] else [])
  else [].

(** The scheduler after the callbacks of a sequence of events. *)
Definition deliver (deliveries : list Delivery) (m : Scheduler) : Scheduler :=
  scheduleAll (concat (map subscribedUpdates deliveries)) m.

End Main.

(** ** player.js: seek-bar markers *)

Module Player.
Import State.

(** What the handlers read from the media element; [duration] is
    [None] while it is [NaN]. *)
Record AudioPlayer := {
  currentTime : Q;
  duration : option Q
}.

(** [!audioPlayer.duration] *)
Definition noDuration (audio : AudioPlayer) : bool :=
  match duration audio with
  | Some d => Qeq_bool d 0
  | None => true
  end.

Definition with_markers (v : option (list Marker)) (song : Song) : Song :=
  {| path := path song; name := name song; artist := artist song;
     isMissing := isMissing song; markers := v;
     isPlaceholder := isPlaceholder song |}.

(** The key under which the playing song sits in the cache, that is
    the entry of the active playlist at [currentSongIndex]. *)
Definition currentKey (s : Store) : option string :=
  js_index (js_or (playlists (musicData (getState s))
                     !! activePlaylist (musicData (getState s))) [])
           (currentSongIndex (getState s)).

(** [currentSong.markers = v]. [currentSong] is the object held by the
    cache when the song is hydrated; for a placeholder it is an object
    that nothing else refers to, and the write is lost with it. *)
Definition assignMarkers (key : string) (v : list Marker) (s : Store) : Store :=
  with_state
    (with_musicData (fun m => with_songs (alter (with_markers (Some v)) key (songs m)) m))
    s.

(** [markers.sort((a, b) => a.timestamp - b.timestamp)]: the stable
    ascending arrangement, written as an insertion sort. The difference
    of two doubles is rounded, but it is negative, zero or positive as
    the exact difference is. *)
Fixpoint insertByTimestamp (m : Marker) (sorted : list Marker) : list Marker :=
  match sorted with
  | [] => [m]
  | x :: rest =>
      if Qle_bool (timestamp m) (timestamp x) then m :: x :: rest
      else x :: insertByTimestamp m rest
  end.

Definition sortByTimestamp (l : list Marker) : list Marker :=
  foldr insertByTimestamp [] l.

(** [markers.some(m => Math.abs(m.timestamp - t) < 0.5)]: the
    difference is a double, rounded before it is compared. *)
Definition tooClose (t : Q) (l : list Marker) : bool :=
  existsb (fun m => negb (Qle_bool (1 # 2) (Qabs (Double.sub (timestamp m) t)))) l.

(** [markers.push({ id, timestamp }); markers.sort(...)] *)
Definition pushMarker (now : Z) (t : Q) (l : list Marker) : list Marker :=
  sortByTimestamp (l ++ [{| id := "marker_" ++ pretty now; timestamp := t |}]).

(** The click handler of the add-marker button. [now] is [Date.now()].
    [None]: the handler threw, because [currentSong] is [undefined]. *)
Definition addMarkerBtn_click (now : Z) (audio : AudioPlayer) (s : Store)
    : option Store :=
  if bool_decide (currentSongIndex (getState s) = -1) || noDuration audio then
    Some (showToast "A song must be playing to add a marker." error s)
  else
    match js_index (getActivePlaylist s) (currentSongIndex (getState s)), currentKey s with
    | Some currentSong, Some key =>
        let markers0 := js_or (markers currentSong) [] in
        let newTimestamp := currentTime audio in
        if tooClose newTimestamp markers0 then
          Some (showToast "New marker is too close to an existing one." info
                  (assignMarkers key markers0 s))
        else
          let markers1 := pushMarker now newTimestamp markers0 in
          Some (callApi (saveMarkers (path currentSong) (map timestamp markers1))
                  (assignMarkers key markers1 s))
    | _, _ => None
    end.

(** The frame of [deleteMarker] or [updateMarkerTimestamp] suspended at
    [await Api.saveMarkers(...)]. *)
Record MarkerFrame := {
  songKey : string;
  originalMarkers : list Marker;
  wasSelected : bool;
  frameMarkerId : string
}.

Definition deleteMarker (markerId : string) (s : Store) : Store * option MarkerFrame :=
  match js_index (getActivePlaylist s) (currentSongIndex (getState s)), currentKey s with
  | Some currentSong, Some key =>
      match markers currentSong with
      | Some markers0 =>
          if negb (truthy markerId) then (s, None)
          else
            let wasSelected :=
              bool_decide (id <$> selectedMarker (getState s) = Some markerId) in
            let markers1 :=
              List.filter (fun m => negb (bool_decide (id m = markerId))) markers0 in
            let s1 := assignMarkers key markers1 s in
            let s2 := if wasSelected then setSelectedMarker None s1 else s1 in
            (callApi (saveMarkers (path currentSong) (map timestamp markers1)) s2,
             Some {| songKey := key; originalMarkers := markers0;
                     wasSelected := wasSelected; frameMarkerId := markerId |})
      | None => (s, None)
      end
  | _, _ => (s, None)
  end.

Definition deleteMarker_resume (frame : MarkerFrame) (outcome : Settled unit)
    (s : Store) : Store :=
  match outcome with
  | Resolved _ => showToast "Marker deleted." info s
  | Rejected message =>
      let s1 := showToast ("Failed to save marker changes: " ++ message) error s in
      let s2 := assignMarkers (songKey frame) (originalMarkers frame) s1 in
      if wasSelected frame then
        setSelectedMarker
          (List.find (fun m => bool_decide (id m = frameMarkerId frame))
                     (originalMarkers frame))
          s2
      else s2
  end.

(** [markerToUpdate.timestamp = newTimestamp] on the first marker with
    the id, which is the one that [find] returns. *)
Fixpoint retime (markerId : string) (newTimestamp : Q) (l : list Marker)
    : option (list Marker) :=
  match l with
  | [] => None
  | m :: rest =>
      if bool_decide (id m = markerId)
      then Some ({| id := id m; timestamp := newTimestamp |} :: rest)
      else cons m <$> retime markerId newTimestamp rest
  end.

Definition updateMarkerTimestamp (markerId : string) (newTimestamp : Q) (s : Store)
    : Store * option MarkerFrame :=
  match js_index (getActivePlaylist s) (currentSongIndex (getState s)), currentKey s with
  | Some currentSong, Some key =>
      match markers currentSong with
      | Some markers0 =>
          if negb (truthy markerId) then (s, None)
          else
            match retime markerId newTimestamp markers0 with
            | None => (s, None)
            | Some retimed =>
                let markers1 := sortByTimestamp retimed in
                let s1 := assignMarkers key markers1 s in
                (callApi (saveMarkers (path currentSong) (map timestamp markers1)) s1,
                 Some {| songKey := key; originalMarkers := markers0;
                         wasSelected := false; frameMarkerId := markerId |})
            end
      | None => (s, None)
      end
  | _, _ => (s, None)
  end.

Definition updateMarkerTimestamp_resume (frame : MarkerFrame) (outcome : Settled unit)
    (s : Store) : Store :=
  match outcome with
  | Resolved _ => s
  | Rejected message =>
      assignMarkers (songKey frame) (originalMarkers frame)
        (showToast ("Failed to save marker position: " ++ message) error s)
  end.

(** The markers of the playing song, as the next handler will see
    them. *)
Definition currentMarkers (s : Store) : option (list Marker) :=
  match js_index (getActivePlaylist s) (currentSongIndex (getState s)) with
  | Some currentSong => markers currentSong
  | None => None
  end.

(** Ascending by timestamp. *)
Fixpoint ascending (l : list Marker) : Prop :=
  match l with
  | [] => True
  | m :: rest => Forall (fun x => (timestamp m <= timestamp x)%Q) rest /\ ascending rest
  end.

(** No two markers closer than half a second, the distance being
    measured as the add-marker handler measures it: the difference of
    the two timestamps as a double. *)
Fixpoint spaced (l : list Marker) : Prop :=
  match l with
  | [] => True
  | m :: rest =>
      Forall (fun x => (1 # 2 <= Qabs (Double.sub (timestamp x) (timestamp m)))%Q) rest
      /\ spaced rest
  end.

(** The least exact distance that the handler does not find closer
    than half a second: one half less [2 ^ -55], which rounds to one
    half. *)
Definition leastGap : Q := (1 # 2) - (1 # 2) ^ 55.

(** No two markers closer than [gap] seconds, the distance being the
    exact one. *)
Fixpoint apart (gap : Q) (l : list Marker) : Prop :=
  match l with
  | [] => True
  | m :: rest =>
      Forall (fun x => (gap <= Qabs (timestamp x - timestamp m))%Q) rest /\ apart gap rest
  end.

(** [jumpToMarker(direction)]: the value that the handler assigns to
    [audioPlayer.currentTime], or [None] when it assigns nothing. The
    bounds [currentTime + 0.1] and [currentTime - 0.5] are doubles. *)
Definition jumpToMarker (direction : Playlist.Direction) (audio : AudioPlayer) (s : Store)
    : option Q :=
  match currentMarkers s with
  | None => None
  | Some [] => None
  | Some markers =>
      if noDuration audio then None
      else
        let targetMarker :=
          match direction with
          | Playlist.next =>
              List.find
                (fun m => negb (Qle_bool (timestamp m)
                                         (Double.add (currentTime audio) Double.tenth)))
                markers
          | Playlist.prev =>
              List.find
                (fun m => negb (Qle_bool (Double.sub (currentTime audio) (1 # 2))
                                         (timestamp m)))
                (rev markers)
          end in
        match targetMarker, direction with
        | Some m, _ => Some (timestamp m)
        | None, Playlist.prev => Some 0%Q
        | None, Playlist.next => None
        end
  end.

End Player.

(** ** utils.js *)

Module Utils.

(** *** debounce *)

Section Debounce.
Context {Args : Type}.

(** The closure variable [timeout] of one debounced function, holding
    the arguments that the armed timer will pass on, and the calls of
    [func] made so far. *)
Record Debounced := {
  timeout : option Args;
  funcCalls : list Args
}.

(** [debounce(func, wait)] *)
Definition debounce : Debounced := {| timeout := None; funcCalls := [] |}.

(** [executedFunction(...args)]: the armed timer is cleared and a new
    one is set. *)
Definition executedFunction (args : Args) (d : Debounced) : Debounced :=
  {| timeout := Some args; funcCalls := funcCalls d |}.

(** The armed timer expires and runs [later]. *)
Definition later (d : Debounced) : Debounced :=
  match timeout d with
  | Some args => {| timeout := None; funcCalls := funcCalls d ++ [args] |}
  | None => d
  end.

Inductive Event :=
| invoke (args : Args)
| expire.

Definition step (d : Debounced) (e : Event) : Debounced :=
  match e with
  | invoke args => executedFunction args d
  | expire => later d
  end.

Definition run (d : Debounced) (events : list Event) : Debounced :=
  foldl step d events.

End Debounce.
Arguments Debounced Args : clear implicits.
Arguments Event Args : clear implicits.

(** *** formatTime *)

(** [String(n).padStart(2, '0')] *)
Definition padStart2 (text : string) : string :=
  match String.length text with
  | O => "00"
  | S O => "0" ++ text
  | _ => text
  end.

(** The integer part of a number, as the remainder operator takes it. *)
Definition trunc (x : Q) : Z := if Qle_bool 0 x then Qfloor x else Qceiling x.

(** [x % y] on numbers, taken as exact *)
Definition js_mod (x y : Q) : Q := (x - y * inject_Z (trunc (x / y)))%Q.

(** [formatTime(seconds)] on [NaN], which is [None], or on a finite
    number. *)
Definition formatTime (seconds : option Q) : string :=
  match seconds with
  | None => "00:00"
  | Some seconds =>
      let min := Qfloor (seconds / 60) in
      let sec := Qfloor (js_mod seconds 60) in
      padStart2 (pretty min) ++ ":" ++ padStart2 (pretty sec)
  end.

(** *** getDragAfterElement *)

(** [child.getBoundingClientRect()] *)
Record Box := {
  top : Q;
  height : Q
}.

(** The accumulator of the [reduce]; [None] is the initial
    [{ offset: Number.NEGATIVE_INFINITY }]. *)
Definition Closest (A : Type) : Type := option (Q * A).

Definition getDragAfterElement {A} (box : A -> Box) (y : Q) (draggableElements : list A)
    : option A :=
  let result :=
    foldl (fun (closest : Closest A) child =>
             let offset := (y - top (box child) - height (box child) / 2)%Q in
             let above :=
               match closest with
               | Some (best, _) => negb (Qle_bool offset best)
               | None => true
               end in
             if negb (Qle_bool 0 offset) && above then Some (offset, child) else closest)
          None draggableElements in
  snd <$> result.

End Utils.

(** * Invariants *)

(** The paths in flight are the paths of the suspended fetches, and no
    path is held by two of them. *)
Definition fetchInvariant (e : VirtualList.Engine) : Prop :=
  NoDup (concat (VirtualList.awaiting e)) /\
  forall p, p ∈ VirtualList.pathsCurrentlyFetching (VirtualList.vList e)
            <-> p ∈ concat (VirtualList.awaiting e).

(** At most one transaction is suspended, and the lock is held exactly
    while one is. *)
Definition lockInvariant (sys : State.System) : Prop :=
  (State.isUpdating (State.runtime sys) = true /\ length (State.suspended sys) = 1%nat) \/
  (State.isUpdating (State.runtime sys) = false /\ State.suspended sys = []).

(** The memo that a pooled node keeps in its [dataset] agrees with
    what the node shows: whatever the memo records is what the text and
    the classes are, and a node recorded as loading shows no text. *)
Definition memoCoherent (node : VirtualList.Node) : Prop :=
  (forall t, VirtualList.dataset_title node = Some t -> VirtualList.title_text node = t) /\
  (forall t, VirtualList.dataset_artist node = Some t -> VirtualList.artist_text node = t) /\
  (forall b, VirtualList.dataset_playing node = Some b -> VirtualList.class_playing node = b) /\
  (forall b, VirtualList.dataset_missing node = Some b -> VirtualList.class_missing node = b) /\
  (forall b, VirtualList.dataset_selected node = Some b ->
             VirtualList.class_selected node = b) /\
  (forall b, VirtualList.dataset_loading node = Some b ->
             VirtualList.class_is_loading node = b /\ VirtualList.draggable node = negb b) /\
  (VirtualList.dataset_loading node = Some true ->
   VirtualList.title_text node = ""%string /\ VirtualList.artist_text node = ""%string /\
   VirtualList.dataset_title node = None /\ VirtualList.dataset_artist node = None).


(** * Sample data *)




(** A small library: one hydrated song in the Default playlist, a second
    song known to the backend only. *)
Definition songA : State.Song :=
  {| State.path := "a.mp3"; State.name := Some "A"%string; State.artist := None;
     State.isMissing := false; State.markers := None; State.isPlaceholder := false |}.

Definition songB : State.Song :=
  {| State.path := "b.mp3"; State.name := Some "B"%string; State.artist := None;
     State.isMissing := false; State.markers := None; State.isPlaceholder := false |}.

Definition sampleStore (selected : list string) : State.Store :=
  {| State.state :=
       {| State.musicData :=
            {| State.songs := {[ "a.mp3"%string := songA ]};
               State.playlists := {[ "Default"%string := ["a.mp3"%string] ]};
               State.playlistOrder := ["Default"%string];
               State.activePlaylist := "Default" |};
          State.playQueue := []; State.currentSongIndex := -1;
          State.isShuffling := false; State.shuffledPlaylist := [];
          State.shuffledIndex := -1; State.selectedSongPaths := selected;
          State.lastClickedPath := None; State.viewMode := State.ViewPlaylist;
          State.selectedMarker := None |};
     State.published := []; State.toasts := []; State.apiCalls := [];
     State.random := fun _ => 0%nat; State.randomCalls := 0 |}.

Definition sampleRuntime (selected : list string) : State.Runtime :=
  {| State.store := sampleStore selected; State.isUpdating := false |}.



(** The sample library after [setActivePlaylist('constructor')]: no
    playlist has that name, and [Object.prototype] has a property of
    it. *)
Definition inheritedActiveName : State.Store :=
  State.setActivePlaylist "constructor" (sampleStore []).

(** The [musicData] event as it reaches its subscriber in main.js. *)
Definition musicDataEvent : Main.Delivery :=
  {| Main.event := "musicData"; Main.viewModeThen := State.ViewPlaylist;
     Main.updatedIsCurrent := false |}.


Definition searchResolved : Main.Await :=
  {| Main.arrivals := []; Main.storeThen := sampleStore [];
     Main.settled := Resolved tt |}.

(** A library with a second playlist, Road trip, which holds [b.mp3]
    and [a.mp3] and is the active one; and the same library in the
    playlist view with [a.mp3] selected. *)
Definition twoPlaylists : State.Runtime :=
  {| State.store :=
       State.setActivePlaylist "Road trip"
         (State.setPlaylistOrder ["Default"%string; "Road trip"%string]
            (State.setPlaylists
               {[ "Default"%string := ["a.mp3"%string];
                  "Road trip"%string := ["b.mp3"%string; "a.mp3"%string] ]}
               (sampleStore [])));
     State.isUpdating := false |}.

Definition roadTripSelected : State.Runtime :=
  {| State.store := State.setSelectedSongPaths ["a.mp3"%string] (State.store twoPlaylists);
     State.isUpdating := false |}.

(** An [await] of the frame callback during which a [playlists] event
    arrives, which asks for the song list once more; the awaited promise
    resolves. *)
Definition playlistsDuringRender : Main.Await :=
  {| Main.arrivals := [[(Main.songList, true)]]; Main.storeThen := sampleStore [];
     Main.settled := Resolved tt |}.

(** Adding [songB] to the active playlist, and the backend rejecting the
    call. *)
Definition startedAdd : State.Runtime * option State.Pending :=
  Playlist.addSongsToActivePlaylist (Some [songB]) (sampleRuntime []).

Definition rejectedAdd : State.Runtime :=
  match startedAdd.2 with
  | Some frame => State.performOptimisticUpdate_resume frame (Rejected "offline") startedAdd.1
  | None => startedAdd.1
  end.

(** Deleting the selected song [a.mp3], confirmed in the dialog. *)
Definition startedDelete : State.Runtime * option State.Pending :=
  Playlist.deleteSelectedSongs_confirmed ["a.mp3"%string] true
    (sampleRuntime ["a.mp3"%string]).

(** A song with two markers, four seconds apart, playing from the
    Default playlist. *)
Definition markedSong : State.Song :=
  {| State.path := "a.mp3"; State.name := Some "A"%string; State.artist := None;
     State.isMissing := false;
     State.markers := Some [ {| State.id := "m1"; State.timestamp := 1 |};
                             {| State.id := "m2"; State.timestamp := 5 |} ];
     State.isPlaceholder := false |}.

Definition markedStore : State.Store :=
  {| State.state :=
       {| State.musicData :=
            {| State.songs := {[ "a.mp3"%string := markedSong ]};
               State.playlists := {[ "Default"%string := ["a.mp3"%string] ]};
               State.playlistOrder := ["Default"%string];
               State.activePlaylist := "Default" |};
          State.playQueue := []; State.currentSongIndex := 0;
          State.isShuffling := false; State.shuffledPlaylist := [];
          State.shuffledIndex := -1; State.selectedSongPaths := [];
          State.lastClickedPath := None; State.viewMode := State.ViewPlaylist;
          State.selectedMarker := None |};
     State.published := []; State.toasts := []; State.apiCalls := [];
     State.random := fun _ => 0%nat; State.randomCalls := 0 |}.

(** Dragging the second marker to 1.25 seconds. *)
Definition draggedMarker : State.Store * option Player.MarkerFrame :=
  Player.updateMarkerTimestamp "m2" (5 # 4) markedStore.

(** The list after some scrolling, one fetch in flight. *)
Definition scrolledList : VirtualList.Engine :=
  VirtualList.run
    (VirtualList.initial (sampleStore []) [songA; songB; State.placeholder "c.mp3"] 100)
    [VirtualList.render; VirtualList.timer; VirtualList.scroll 10; VirtualList.render].

(** * Properties *)

(** ** Array helpers *)

Lemma js_index_map {A B} (f : A -> B) (arr : list A) (i : Z) :
  js_index (map f arr) i = f <$> js_index arr i.
Proof.
  unfold js_index. destruct (decide (i < 0)); [reflexivity|].
  apply list_lookup_fmap.
Qed.

Lemma js_index_Some_range {A} (arr : list A) (i : Z) (x : A) :
  js_index arr i = Some x -> 0 <= i < Z.of_nat (length arr).
Proof.
  unfold js_index. destruct (decide (i < 0)); [discriminate|].
  intros H. apply lookup_lt_Some in H. lia.
Qed.

Lemma js_index_in_range {A} (arr : list A) (i : Z) :
  0 <= i < Z.of_nat (length arr) -> is_Some (js_index arr i).
Proof.
  intros H. unfold js_index. destruct (decide (i < 0)); [lia|].
  apply lookup_lt_is_Some. lia.
Qed.

(** ** getActivePlaylist *)

Lemma js_get_plain {V} (obj : gmap string V) (key : string) :
  is_Some (obj !! key) \/ key ∉ objectPrototype ->
  js_get obj key = match obj !! key with Some value => Own value | None => Undefined end.
Proof.
  intros Hplain. unfold js_get. destruct (obj !! key) as [value|]; [reflexivity|].
  destruct Hplain as [[value Hvalue]|Hkey]; [discriminate|].
  rewrite bool_decide_eq_false_2 by exact Hkey. reflexivity.
Qed.

(** Where the name of the active playlist and the paths of that
    playlist are keys that the dictionaries hold themselves or that
    [Object.prototype] does not have, [getActivePlaylist()] returns, and
    what it returns is what the lookup over own keys gives: one element
    for each path, the cached song or the placeholder. *)
Lemma getActivePlaylist_read_plain (s : State.Store) :
  let data := State.musicData (State.state s) in
  is_Some (State.playlists data !! State.activePlaylist data)
    \/ State.activePlaylist data ∉ objectPrototype ->
  (forall path,
      path ∈ js_or (State.playlists data !! State.activePlaylist data) [] ->
      is_Some (State.songs data !! path) \/ path ∉ objectPrototype) ->
  State.getActivePlaylist_read s = Some (State.SongObject <$> State.getActivePlaylist s) /\
  length (State.getActivePlaylist s)
    = length (js_or (State.playlists data !! State.activePlaylist data) []) /\
  forall (i : nat) path,
    js_or (State.playlists data !! State.activePlaylist data) [] !! i = Some path ->
    State.getActivePlaylist s !! i
      = Some (js_or (State.songs data !! path) (State.placeholder path)).
Proof.
  intros data Hname Hpaths.
  unfold State.getActivePlaylist_read, State.getActivePlaylist. fold data.
  rewrite (js_get_plain _ _ Hname).
  set (paths := js_or (State.playlists data !! State.activePlaylist data) []) in *.
  assert (Hread :
    match State.playlists data !! State.activePlaylist data with
    | Some value => Some value
    | None => Some []
    end = Some paths).
  { unfold paths. destruct (State.playlists data !! State.activePlaylist data); reflexivity. }
  split.
  { replace (match (match State.playlists data !! State.activePlaylist data with
                    | Some value => Own value
                    | None => Undefined
                    end) with
             | Own paths0 => Some paths0
             | Inherited _ => None
             | Undefined => Some []
             end) with (Some paths)
      by (unfold paths; destruct (State.playlists data !! State.activePlaylist data);
          reflexivity).
    simpl. f_equal. clear Hread.
    induction paths as [|path rest IH]; [reflexivity|]. simpl.
    rewrite js_get_plain by (apply Hpaths, list_elem_of_here).
    rewrite IH by (intros p Hp; apply Hpaths, list_elem_of_further, Hp).
    destruct (State.songs data !! path); reflexivity. }
  split; [apply length_map|].
  intros i path Hi. rewrite list_lookup_fmap, Hi. reflexivity.
Qed.

(** C10 fails in the code. In the sample library with the active
    playlist set to [constructor], a name that no playlist has,
    [playlists[activePlaylist]] finds [Object.prototype.constructor],
    the fallback to the empty array is not taken, and the call of [map]
    on what was found throws. [getActivePlaylist()] throws exactly for
    the stores whose active name is no key of the playlists map and is a
    property of [Object.prototype]. *)
Theorem getActivePlaylist_throws_on_inherited_name :
  inheritedActiveName = State.setActivePlaylist "constructor" (sampleStore []) /\
  State.playlists (State.musicData (State.state inheritedActiveName))
    !! State.activePlaylist (State.musicData (State.state inheritedActiveName)) = None /\
  State.getActivePlaylist_read inheritedActiveName = None /\
  forall s,
    State.getActivePlaylist_read s = None <->
    State.playlists (State.musicData (State.state s))
      !! State.activePlaylist (State.musicData (State.state s)) = None /\
    State.activePlaylist (State.musicData (State.state s)) ∈ objectPrototype.
Proof.
  split; [reflexivity|]. split; [vm_compute; reflexivity|].
  split; [vm_compute; reflexivity|].
  intros s. unfold State.getActivePlaylist_read, js_get.
  destruct (State.playlists (State.musicData (State.state s))
              !! State.activePlaylist (State.musicData (State.state s))) as [paths|].
  - simpl. split; [discriminate|]. intros [H _]. discriminate.
  - case_bool_decide as Hkey; simpl.
    + split; [auto|reflexivity].
    + split; [discriminate|]. intros [_ H]. contradiction.
Qed.

(** ** publish and subscribe *)

Section PubSubFacts.
Context {W Data : Type}.
Implicit Types (callbacks : list (PubSub.Callback W Data)) (w : W) (data : Data).

Lemma forEach_app callbacks1 callbacks2 data w :
  PubSub.forEach (callbacks1 ++ callbacks2) data w =
  match PubSub.forEach callbacks1 data w with
  | PubSub.normal w1 => PubSub.forEach callbacks2 data w1
  | PubSub.thrown exn w1 => PubSub.thrown exn w1
  end.
Proof.
  revert w. induction callbacks1 as [|f rest IH]; intros w; simpl; [reflexivity|].
  destruct (f data w); [apply IH|reflexivity].
Qed.



End PubSubFacts.


(** ** The render scheduler *)

Lemma assign_cons (d : Main.Dirty) (kv : Main.Flag * bool) (updates : Main.Updates) :
  Main.assign d (kv :: updates) =
  Main.assign (fun key => if decide (key = kv.1) then kv.2 else d key) updates.
Proof. reflexivity. Qed.

Lemma assign_all_true (updates : Main.Updates) :
  Forall (fun kv => kv.2 = true) updates ->
  forall (d : Main.Dirty) (key : Main.Flag),
    Main.assign d updates key = true <-> d key = true \/ (key, true) ∈ updates.
Proof.
  induction 1 as [|[k v] rest Hv _ IH]; intros d key.
  - unfold Main.assign; simpl. rewrite elem_of_nil. tauto.
  - rewrite assign_cons, IH, elem_of_cons. simpl in *. subst v.
    destruct (decide (key = k)) as [->|Hne].
    + tauto.
    + split; [tauto|]. intros [H|[H|H]]; [tauto| |tauto].
      inversion H; congruence.
Qed.




Lemma scheduleAll_dirty (calls : list Main.Updates) :
  Forall (Forall (fun kv => kv.2 = true)) calls ->
  forall (m : Main.Scheduler) (key : Main.Flag),
    Main.dirty (Main.scheduleAll calls m) key = true <->
    Main.dirty m key = true \/ exists updates, updates ∈ calls /\ (key, true) ∈ updates.
Proof.
  induction 1 as [|u rest Hu _ IH]; intros m key.
  - simpl. split; [tauto|]. intros [H|(u & Hin & _)]; [exact H|].
    apply elem_of_nil in Hin. contradiction.
  - simpl. rewrite IH.
    assert (Hstep : Main.dirty (Main.scheduleRender u m) key = true <->
                    Main.dirty m key = true \/ (key, true) ∈ u).
    { unfold Main.scheduleRender.
      destruct (Main.isRenderScheduled m); simpl; apply assign_all_true; assumption. }
    rewrite Hstep. split.
    + intros [[H|H]|(u' & Hin & Hk)].
      * tauto.
      * right. exists u. split; [apply list_elem_of_here|assumption].
      * right. exists u'. split; [apply list_elem_of_further|]; assumption.
    + intros [H|(u' & Hin & Hk)]; [tauto|].
      apply elem_of_cons in Hin as [->|Hin]; [tauto|].
      right. exists u'. tauto.
Qed.

Lemma scheduleAll_frames (calls : list Main.Updates) (m : Main.Scheduler) :
  calls <> [] ->
  Main.isRenderScheduled (Main.scheduleAll calls m) = true /\
  Main.requestedFrames (Main.scheduleAll calls m) =
    (if Main.isRenderScheduled m then Main.requestedFrames m
     else S (Main.requestedFrames m)) /\
  Main.drawn (Main.scheduleAll calls m) = Main.drawn m.
Proof.
  revert m. induction calls as [|u rest IH]; intros m Hne; [congruence|].
  simpl. destruct rest as [|u' rest'].
  - simpl. unfold Main.scheduleRender. destruct (Main.isRenderScheduled m); simpl; auto.
  - destruct (IH (Main.scheduleRender u m)) as (H1 & H2 & H3); [discriminate|].
    rewrite H1, H2, H3. unfold Main.scheduleRender.
    destruct (Main.isRenderScheduled m); simpl; auto.
Qed.

Lemma scheduleAll_scheduled (calls : list Main.Updates) (m : Main.Scheduler) :
  Main.isRenderScheduled m = true ->
  exists d,
    Main.scheduleAll calls m =
      {| Main.isRenderScheduled := true; Main.dirty := d;
         Main.requestedFrames := Main.requestedFrames m; Main.drawn := Main.drawn m |}.
Proof.
  revert m. induction calls as [|u rest IH]; intros m Hm.
  - exists (Main.dirty m). destruct m; simpl in *; subst; reflexivity.
  - simpl. destruct (IH (Main.scheduleRender u m)) as [d Hd].
    { unfold Main.scheduleRender. destruct (Main.isRenderScheduled m); reflexivity. }
    exists d. rewrite Hd. unfold Main.scheduleRender. rewrite Hm. reflexivity.
Qed.



Ltac arrive :=
  match goal with
  | |- context [Main.scheduleAll ?calls ?m0] =>
      let d := fresh "d" in
      let Hd := fresh "Hd" in
      destruct (scheduleAll_scheduled calls m0 eq_refl) as [d Hd];
      rewrite Hd; clear Hd
  end.

Ltac unfold_frame :=
  unfold Main.goOn, Main.performScheduledRenders_resume, Main.frameAfterSongList,
    Main.frameAfterPlayer, Main.draw; simpl.

Ltac player_flag :=
  match goal with
  | |- context [if ?d Main.player then _ else _] =>
      is_var d; let H := fresh "H" in destruct (d Main.player) eqn:H; simpl
  end.

Ltac flags :=
  repeat match goal with
         | |- context [if ?d ?flag then _ else _] =>
             is_var d; let H := fresh "H" in destruct (d flag) eqn:H; simpl
         end.

Ltac reads :=
  repeat match goal with
         | H : State.getActivePlaylist_read ?x = _
           |- context [State.getActivePlaylist_read ?x] => rewrite H; simpl
         | |- context [State.getActivePlaylist_read ?x] =>
             let H := fresh "Hread" in
             destruct (State.getActivePlaylist_read x) as [?entries|] eqn:H; simpl
         | |- context [js_index ?l ?i] =>
             let H := fresh "Hsong" in destruct (js_index l i) as [?song|] eqn:H; simpl
         end.


Ltac after_list := unfold_frame; try player_flag; reads.






(** ** The virtual list: the rendered window *)

Lemma paintRow_shown (songCache : gmap string State.Song) (playing : option string)
    (selected : list string) (i : Z) (songData : State.Song) (node : VirtualList.Node) :
  let node' := VirtualList.paintRow songCache playing selected i songData node in
  VirtualList.transform node' = Some (i * VirtualList.ITEM_HEIGHT) /\
  VirtualList.class_hidden node' = false.
Proof.
  unfold VirtualList.paintRow.
  destruct (songCache !! State.path songData); simpl; split; reflexivity.
Qed.

Lemma rowLoop_rows (songCache : gmap string State.Song) (playing : option string)
    (selected : list string) (dataSource : list State.Song) (n : nat) :
  forall (i : Z) (k : nat) (nodes : list VirtualList.Node) (pending : JsSet.t),
    0 <= i -> ((0 < n)%nat -> i + Z.of_nat n <= Z.of_nat (length dataSource)) ->
    (k + n <= length nodes)%nat ->
    exists nodes' pending',
      VirtualList.rowLoop songCache playing selected dataSource n i k nodes pending
        = Some (nodes', pending', (k + n)%nat) /\
      length nodes' = length nodes /\
      (forall j, (j < k)%nat -> nodes' !! j = nodes !! j) /\
      (forall j, (k + n <= j)%nat -> nodes' !! j = nodes !! j) /\
      (forall j, (j < n)%nat ->
         exists node, nodes' !! (k + j)%nat = Some node /\
           VirtualList.transform node = Some ((i + Z.of_nat j) * VirtualList.ITEM_HEIGHT) /\
           VirtualList.class_hidden node = false).
Proof.
  induction n as [|n IH]; intros i k nodes pending Hi Hlen Hpool.
  - exists nodes, pending. simpl. rewrite Nat.add_0_r.
    repeat split; auto. intros j Hj. lia.
  - simpl.
    destruct (js_index_in_range dataSource i) as [songData HsongData]; [lia|].
    destruct (lookup_lt_is_Some_2 nodes k) as [node Hnode]; [lia|].
    rewrite HsongData, Hnode.
    set (node' := VirtualList.paintRow songCache playing selected i songData node).
    set (pending1 := match songCache !! State.path songData with
                     | Some _ => pending
                     | None => JsSet.add (State.path songData) pending
                     end).
    destruct (IH (i + 1) (S k) (<[k := node']> nodes) pending1)
      as (nodes' & pending' & Hrun & Hlen' & Hbefore & Hafter & Hrows).
    { lia. } { lia. } { rewrite length_insert. lia. }
    exists nodes', pending'.
    replace (k + S n)%nat with (S k + n)%nat by lia.
    split; [exact Hrun|].
    split; [rewrite Hlen'; apply length_insert|].
    split.
    { intros j Hj. rewrite Hbefore by lia. apply list_lookup_insert_ne. lia. }
    split.
    { intros j Hj. rewrite Hafter by lia. apply list_lookup_insert_ne. lia. }
    intros j Hj. destruct j as [|j].
    + exists node'. rewrite Nat.add_0_r, Hbefore by lia.
      split; [apply list_lookup_insert_eq; lia|].
      replace (i + Z.of_nat 0) with i by lia. apply paintRow_shown.
    + destruct (Hrows j) as (nd & Hnd & Htr & Hhid); [lia|].
      exists nd. replace (k + S j)%nat with (S k + j)%nat by lia.
      split; [exact Hnd|]. split; [|exact Hhid].
      rewrite Htr. f_equal. lia.
Qed.

Lemma filter_shown_hidden (nodes : list VirtualList.Node) :
  List.filter (fun node => negb (VirtualList.class_hidden node))
              (map (VirtualList.setHidden true) nodes) = [].
Proof. induction nodes as [|x rest IH]; simpl; auto. Qed.

Lemma filter_shown_all (nodes : list VirtualList.Node) :
  Forall (fun node => VirtualList.class_hidden node = false) nodes ->
  List.filter (fun node => negb (VirtualList.class_hidden node)) nodes = nodes.
Proof.
  induction 1 as [|x rest Hx _ IH]; simpl; [reflexivity|].
  rewrite Hx. simpl. f_equal. exact IH.
Qed.

Lemma growPool_length (d : Z) (nodes : list VirtualList.Node) :
  (Z.to_nat (d + 1) <= length (VirtualList.growPool d nodes))%nat /\
  (length nodes <= length (VirtualList.growPool d nodes))%nat.
Proof. unfold VirtualList.growPool. rewrite length_app, length_replicate. lia. Qed.

(** One render pass on any list state: it completes, and the nodes
    without the class [hidden] carry, in pool order, the positions of the
    indices from [renderStartIndex] to [renderEndIndex]. *)
Lemma renderVisibleSongs_rows (s : State.Store) (v : VirtualList.VList) :
  let first := VirtualList.renderStartIndex (VirtualList.scrollTop v) in
  let last :=
    VirtualList.renderEndIndex (VirtualList.scrollTop v) (VirtualList.clientHeight v)
      (Z.of_nat (length (VirtualList.dataSource v))) in
  exists v',
    VirtualList.renderVisibleSongs s v = Some v' /\
    VirtualList.shownPositions (VirtualList.visibleNodes v') =
      (fun i => Some (i * VirtualList.ITEM_HEIGHT)) <$> seqZ first (last - first + 1) /\
    VirtualList.pathsCurrentlyFetching v' = VirtualList.pathsCurrentlyFetching v /\
    VirtualList.dataSource v' = VirtualList.dataSource v /\
    (length (VirtualList.visibleNodes v) <= length (VirtualList.visibleNodes v'))%nat.
Proof.
  intros first last. unfold VirtualList.renderVisibleSongs. fold first last.
  set (count := Z.to_nat (last - first + 1)).
  set (pool := VirtualList.growPool (last - first) (VirtualList.visibleNodes v)).
  assert (Hfirst : 0 <= first) by (unfold first, VirtualList.renderStartIndex; lia).
  assert (Hlast : last <= Z.of_nat (length (VirtualList.dataSource v)) - 1)
    by (unfold last, VirtualList.renderEndIndex; lia).
  destruct (growPool_length (last - first) (VirtualList.visibleNodes v)) as [Hpool Hgrow].
  fold pool in Hpool, Hgrow. fold count in Hpool.
  match goal with
  | |- context [VirtualList.rowLoop ?c ?p ?sel ?ds count first 0 pool ?pend] =>
      destruct (rowLoop_rows c p sel ds count first 0 pool pend)
        as (nodes' & pending' & Hrun & Hlen & _ & _ & Hrows)
  end.
  { exact Hfirst. } { unfold count. lia. } { simpl. exact Hpool. }
  rewrite Hrun. simpl. eexists. split; [reflexivity|]. simpl.
  split; [|split; [reflexivity|split; [reflexivity|]]].
  - unfold VirtualList.shownPositions, VirtualList.hideFrom.
    rewrite List.filter_app, filter_shown_hidden, app_nil_r.
    rewrite filter_shown_all.
    + apply list_eq. intros j.
      rewrite list_lookup_fmap, list_lookup_fmap.
      destruct (decide (j < count)%nat) as [Hj|Hj].
      * destruct (Hrows j Hj) as (node & Hnode & Htr & _). simpl in Hnode.
        rewrite lookup_take_lt by exact Hj. rewrite Hnode. simpl.
        rewrite lookup_seqZ_lt by (unfold count in Hj; lia). simpl.
        rewrite Htr. reflexivity.
      * rewrite lookup_take_ge by lia.
        rewrite lookup_seqZ_ge by (unfold count in Hj; lia). reflexivity.
    + apply Forall_lookup. intros j node Hj.
      assert (Hlt : (j < count)%nat).
      { apply lookup_lt_Some in Hj. rewrite length_take in Hj. lia. }
      rewrite lookup_take_lt in Hj by exact Hlt.
      destruct (Hrows j Hlt) as (node0 & Hnode0 & _ & Hhid). simpl in Hnode0.
      congruence.
  - unfold VirtualList.hideFrom.
    rewrite length_app, length_take, length_map, length_drop, Hlen. lia.
Qed.






(** ** The virtual list: lazy fetch *)

Lemma JsSet_add_elem (x p : string) (s : JsSet.t) :
  p ∈ JsSet.add x s <-> p = x \/ p ∈ s.
Proof.
  unfold JsSet.add, JsSet.has. case_bool_decide as Hin.
  - split; [tauto|]. intros [->|H]; assumption.
  - rewrite elem_of_app, list_elem_of_singleton. tauto.
Qed.

Lemma JsSet_add_NoDup (x : string) (s : JsSet.t) : NoDup s -> NoDup (JsSet.add x s).
Proof.
  intros Hs. unfold JsSet.add, JsSet.has. case_bool_decide as Hin; [exact Hs|].
  apply NoDup_app. split; [exact Hs|]. split; [|apply NoDup_singleton].
  intros y Hy Hyx. apply list_elem_of_singleton in Hyx. subst y. contradiction.
Qed.

Lemma JsSet_add_all (l : list string) :
  forall (s : JsSet.t) (p : string),
    p ∈ foldl (fun acc x => JsSet.add x acc) s l <-> p ∈ s \/ p ∈ l.
Proof.
  induction l as [|x rest IH]; intros s p; simpl.
  - rewrite elem_of_nil. tauto.
  - rewrite IH, JsSet_add_elem, elem_of_cons. tauto.
Qed.

Lemma JsSet_add_all_NoDup (l : list string) :
  forall (s : JsSet.t), NoDup s -> NoDup (foldl (fun acc x => JsSet.add x acc) s l).
Proof.
  induction l as [|x rest IH]; intros s Hs; simpl; [exact Hs|].
  apply IH, JsSet_add_NoDup, Hs.
Qed.

Lemma JsSet_from_elem (l : list string) (p : string) : p ∈ JsSet.from l <-> p ∈ l.
Proof. unfold JsSet.from. rewrite JsSet_add_all, elem_of_nil. tauto. Qed.

Lemma JsSet_from_NoDup (l : list string) : NoDup (JsSet.from l).
Proof. apply JsSet_add_all_NoDup, NoDup_nil_2. Qed.

Lemma JsSet_delete_all (batch : list string) :
  forall (s : JsSet.t) (p : string),
    p ∈ foldl (fun acc x => JsSet.delete x acc) s batch <-> p ∈ s /\ p ∉ batch.
Proof.
  induction batch as [|x rest IH]; intros s p; simpl.
  - rewrite elem_of_nil. tauto.
  - rewrite IH. unfold JsSet.delete. rewrite list_elem_of_filter, not_elem_of_cons.
    tauto.
Qed.

Lemma elem_of_List_filter {A} (f : A -> bool) (l : list A) (x : A) :
  x ∈ List.filter f l <-> x ∈ l /\ f x = true.
Proof. rewrite !list_elem_of_In. apply List.filter_In. Qed.

Lemma elem_of_concat {A} (ls : list (list A)) (x : A) :
  x ∈ concat ls <-> exists l, l ∈ ls /\ x ∈ l.
Proof.
  rewrite list_elem_of_In, List.in_concat. split.
  - intros (l & Hl & Hx). exists l. rewrite !list_elem_of_In. tauto.
  - intros (l & Hl & Hx). exists l. rewrite <- !list_elem_of_In. tauto.
Qed.

Lemma concat_snoc {A} (ls : list (list A)) (l : list A) :
  concat (ls ++ [l]) = concat ls ++ l.
Proof. rewrite List.concat_app. simpl. rewrite app_nil_r. reflexivity. Qed.

Lemma concat_delete {A} (ls : list (list A)) :
  forall (k : nat) (batch : list A),
    NoDup (concat ls) -> ls !! k = Some batch ->
    NoDup (concat (delete k ls)) /\
    forall x, x ∈ concat (delete k ls) <-> x ∈ concat ls /\ x ∉ batch.
Proof.
  induction ls as [|l rest IH]; intros k batch Hnd Hk; [discriminate|].
  simpl in Hnd. apply NoDup_app in Hnd as (Hl & Hdisj & Hrest).
  destruct k as [|k]; simpl in *.
  - injection Hk as ->. split; [exact Hrest|].
    intros x. rewrite elem_of_app. split.
    + intros Hx. split; [tauto|]. intros Hb. exact (Hdisj x Hb Hx).
    + tauto.
  - destruct (IH k batch Hrest Hk) as [Hnd' Hmem].
    split.
    + apply NoDup_app. split; [exact Hl|]. split; [|exact Hnd'].
      intros x Hx Hx'. apply Hmem in Hx' as [Hx' _]. exact (Hdisj x Hx Hx').
    + intros x. rewrite !elem_of_app, Hmem. split; [|tauto].
      intros [Hx|Hx]; [|tauto]. split; [tauto|].
      intros Hb. apply (Hdisj x Hx). apply elem_of_concat.
      exists batch. split; [|exact Hb].
      apply list_elem_of_lookup. exists k. exact Hk.
Qed.

(** What the debounced fetch does to the module variables. *)
Lemma processPendingFetches_spec (s : State.Store) (v : VirtualList.VList) :
  match VirtualList.processPendingFetches s v with
  | (s1, v1, None) =>
      s1 = s /\
      VirtualList.pathsCurrentlyFetching v1 = VirtualList.pathsCurrentlyFetching v
  | (s1, v1, Some newPaths) =>
      s1 = State.callApi (State.getSongsByPaths newPaths) s /\
      newPaths <> [] /\ NoDup newPaths /\
      (forall p, p ∈ newPaths <->
                 p ∈ VirtualList.pendingPathsToFetch v /\
                 p ∉ VirtualList.pathsCurrentlyFetching v) /\
      (forall p, p ∈ VirtualList.pathsCurrentlyFetching v1 <->
                 p ∈ VirtualList.pathsCurrentlyFetching v \/ p ∈ newPaths)
  end.
Proof.
  unfold VirtualList.processPendingFetches.
  destruct (decide (JsSet.size (VirtualList.pendingPathsToFetch v) = 0%nat));
    [simpl; auto|].
  destruct (decide (JsSet.size (JsSet.from (VirtualList.pendingPathsToFetch v)) = 0%nat));
    [simpl; auto|].
  destruct (List.filter _ _) as [|p0 rest] eqn:Hnew; [simpl; auto|].
  rewrite <- Hnew. simpl.
  split; [reflexivity|]. split; [rewrite Hnew; discriminate|].
  split; [apply NoDup_ListNoDup, List.NoDup_filter, NoDup_ListNoDup, JsSet_from_NoDup|].
  split.
  - intros p. rewrite elem_of_List_filter, JsSet_from_elem.
    unfold JsSet.has. rewrite negb_true_iff, bool_decide_eq_false. tauto.
  - intros p. apply JsSet_add_all.
Qed.

Lemma renderVisibleSongs_fetching (s : State.Store) (v : VirtualList.VList) :
  VirtualList.pathsCurrentlyFetching (js_or (VirtualList.renderVisibleSongs s v) v) =
  VirtualList.pathsCurrentlyFetching v.
Proof.
  destruct (renderVisibleSongs_rows s v) as (v' & Hrun & _ & Hfetching & _).
  rewrite Hrun. exact Hfetching.
Qed.

Lemma fetchSongData_resume_fetching (newPaths : list string)
    (outcome : Settled (option (gmap string State.Song)))
    (s : State.Store) (v : VirtualList.VList) (p : string) :
  p ∈ VirtualList.pathsCurrentlyFetching
        (VirtualList.fetchSongData_resume newPaths outcome s v).2
  <-> p ∈ VirtualList.pathsCurrentlyFetching v /\ p ∉ newPaths.
Proof.
  unfold VirtualList.fetchSongData_resume.
  destruct outcome as [songsMap|message]; simpl.
  - rewrite JsSet_delete_all, renderVisibleSongs_fetching. tauto.
  - apply JsSet_delete_all.
Qed.

Lemma step_fetchInvariant (e : VirtualList.Engine) (ev : VirtualList.Event) :
  fetchInvariant e -> fetchInvariant (VirtualList.step e ev).
Proof.
  intros [Hnd Hmem]. unfold fetchInvariant.
  destruct ev as [top|height|rows| | |k outcome|f]; simpl.
  - split; assumption.
  - split; assumption.
  - split; assumption.
  - split; [assumption|]. intros p. rewrite renderVisibleSongs_fetching. apply Hmem.
  - destruct (VirtualList.fetchTimer (VirtualList.vList e)); [|split; assumption].
    pose proof (processPendingFetches_spec (VirtualList.store e) (VirtualList.vList e)) as Hspec.
    destruct (VirtualList.processPendingFetches _ _) as [[s1 v1] [newPaths|]]; simpl.
    + destruct Hspec as (_ & _ & Hnew & Hfrom & Hinto).
      rewrite concat_snoc. split.
      * apply NoDup_app. split; [exact Hnd|]. split; [|exact Hnew].
        intros p Hp Hp'. apply Hfrom in Hp' as [_ Hp']. apply Hp', Hmem, Hp.
      * intros p. rewrite elem_of_app, Hinto, Hmem. tauto.
    + destruct Hspec as (_ & Hsame). split; [exact Hnd|].
      intros p. rewrite Hsame. apply Hmem.
  - destruct (VirtualList.awaiting e !! k) as [batch|] eqn:Hk; [|split; assumption].
    destruct (concat_delete _ k batch Hnd Hk) as [Hnd' Hmem'].
    pose proof (fetchSongData_resume_fetching batch outcome
                  (VirtualList.store e) (VirtualList.vList e)) as Hres.
    destruct (VirtualList.fetchSongData_resume _ _ _ _) as [s1 v1]. simpl in *.
    split; [exact Hnd'|].
    intros p. rewrite Hres, Hmem', Hmem. tauto.
  - split; assumption.
Qed.

Lemma run_fetchInvariant (events : list VirtualList.Event) :
  forall e, fetchInvariant e -> fetchInvariant (VirtualList.run e events).
Proof.
  induction events as [|ev rest IH]; intros e He; [exact He|].
  simpl. apply IH, step_fetchInvariant, He.
Qed.

(** C4. At every moment of any run of the list: the in-flight set holds
    exactly the paths of the batches that have not settled, no path in
    two of them; a batch that starts now sends one [getSongsByPaths]
    call that asks for no path in flight, and asks for every pending
    path that is not in flight; when a batch settles, resolved or
    rejected, exactly its paths leave the in-flight set; and no other
    event takes a path out of it. *)
Theorem no_duplicate_fetch
    (s : State.Store) (rows : list State.Song) (height : Z)
    (events : list VirtualList.Event) :
  let e := VirtualList.run (VirtualList.initial s rows height) events in
  let fetching := VirtualList.pathsCurrentlyFetching (VirtualList.vList e) in
  NoDup (concat (VirtualList.awaiting e)) /\
  (forall p, p ∈ fetching <-> exists batch, batch ∈ VirtualList.awaiting e /\ p ∈ batch) /\
  (forall s1 v1 newPaths,
      VirtualList.processPendingFetches (VirtualList.store e) (VirtualList.vList e)
        = (s1, v1, Some newPaths) ->
      State.apiCalls s1 =
        State.apiCalls (VirtualList.store e) ++ [State.getSongsByPaths newPaths] /\
      (forall p, p ∈ newPaths -> p ∉ fetching) /\
      (forall p, p ∈ VirtualList.pendingPathsToFetch (VirtualList.vList e) ->
                 p ∉ fetching -> p ∈ newPaths)) /\
  (forall s1 v1,
      VirtualList.processPendingFetches (VirtualList.store e) (VirtualList.vList e)
        = (s1, v1, None) ->
      State.apiCalls s1 = State.apiCalls (VirtualList.store e)) /\
  (forall k batch outcome,
      VirtualList.awaiting e !! k = Some batch ->
      forall p,
        p ∈ VirtualList.pathsCurrentlyFetching
              (VirtualList.vList (VirtualList.step e (VirtualList.settle k outcome)))
        <-> p ∈ fetching /\ p ∉ batch) /\
  (forall ev p,
      (forall k outcome, ev <> VirtualList.settle k outcome) ->
      p ∈ fetching ->
      p ∈ VirtualList.pathsCurrentlyFetching (VirtualList.vList (VirtualList.step e ev))).
Proof.
  intros e fetching.
  assert (Hinv : fetchInvariant e).
  { apply run_fetchInvariant. split; simpl; [apply NoDup_nil_2|]. tauto. }
  destruct Hinv as [Hnd Hmem].
  split; [exact Hnd|]. split.
  { intros p. unfold fetching. rewrite Hmem. apply elem_of_concat. }
  split.
  { intros s1 v1 newPaths Hrun.
    pose proof (processPendingFetches_spec (VirtualList.store e) (VirtualList.vList e)) as Hspec.
    rewrite Hrun in Hspec. destruct Hspec as (-> & _ & _ & Hfrom & _).
    split; [reflexivity|]. split.
    - intros p Hp. apply Hfrom in Hp. tauto.
    - intros p Hp Hnot. apply Hfrom. tauto. }
  split.
  { intros s1 v1 Hrun.
    pose proof (processPendingFetches_spec (VirtualList.store e) (VirtualList.vList e)) as Hspec.
    rewrite Hrun in Hspec. destruct Hspec as (-> & _). reflexivity. }
  split.
  { intros k batch outcome Hk p. simpl. rewrite Hk.
    pose proof (fetchSongData_resume_fetching batch outcome
                  (VirtualList.store e) (VirtualList.vList e) p) as Hres.
    destruct (VirtualList.fetchSongData_resume _ _ _ _) as [s1 v1]. exact Hres. }
  intros ev p Hother Hp.
  destruct ev as [top|height'|rows'| | |k outcome|f]; simpl; try exact Hp.
  - rewrite renderVisibleSongs_fetching. exact Hp.
  - destruct (VirtualList.fetchTimer (VirtualList.vList e)); [|exact Hp].
    pose proof (processPendingFetches_spec (VirtualList.store e) (VirtualList.vList e)) as Hspec.
    destruct (VirtualList.processPendingFetches _ _) as [[s1 v1] [newPaths|]]; simpl.
    + destruct Hspec as (_ & _ & _ & _ & Hinto). apply Hinto. left. exact Hp.
    + destruct Hspec as (_ & ->). exact Hp.
  - exfalso. exact (Hother k outcome eq_refl).
Qed.

(** ** Optimistic transactions *)

Lemma fisherYates_state (i : nat) :
  forall (shuffled : list State.Song) (s : State.Store),
    State.state (Playlist.fisherYates i shuffled s).2 = State.state s.
Proof.
  induction i as [|i IH]; intros shuffled s; [reflexivity|].
  simpl. rewrite IH. reflexivity.
Qed.

(** Shuffling writes [shuffledPlaylist] and [shuffledIndex] only. *)
Lemma generateShuffledPlaylist_state (s : State.Store) :
  let a := State.state (Playlist.generateShuffledPlaylist s) in
  State.musicData a = State.musicData (State.state s) /\
  State.playQueue a = State.playQueue (State.state s) /\
  State.currentSongIndex a = State.currentSongIndex (State.state s) /\
  State.isShuffling a = State.isShuffling (State.state s) /\
  State.selectedSongPaths a = State.selectedSongPaths (State.state s).
Proof.
  unfold Playlist.generateShuffledPlaylist.
  pose proof (fisherYates_state (length (State.getActivePlaylist s) - 1)
                (State.getActivePlaylist s) s) as Hfy.
  destruct (Playlist.fisherYates _ _ _) as [shuffled s1]. simpl in Hfy.
  unfold State.getState. rewrite Hfy.
  destruct (if decide (State.currentSongIndex (State.state s) > -1)
            then js_index (State.getActivePlaylist s)
                          (State.currentSongIndex (State.state s))
            else None);
    simpl; rewrite Hfy; repeat split; reflexivity.
Qed.

Lemma maybeShuffle_state (s : State.Store) (b : bool) :
  let a := State.state (if b then Playlist.generateShuffledPlaylist s else s) in
  State.musicData a = State.musicData (State.state s) /\
  State.playQueue a = State.playQueue (State.state s) /\
  State.currentSongIndex a = State.currentSongIndex (State.state s) /\
  State.isShuffling a = State.isShuffling (State.state s) /\
  State.selectedSongPaths a = State.selectedSongPaths (State.state s).
Proof.
  destruct b; [apply generateShuffledPlaylist_state|]. repeat split; reflexivity.
Qed.

Lemma insert_all_keeps (added : list State.Song) :
  forall (m : gmap string State.Song) (key : string),
    is_Some (m !! key) ->
    is_Some (foldl (fun acc song => <[State.path song := song]> acc) m added !! key).
Proof.
  induction added as [|song rest IH]; intros m key Hkey; [exact Hkey|].
  simpl. apply IH. rewrite lookup_insert_is_Some.
  destruct (decide (State.path song = key)); auto.
Qed.

Lemma merge_objects_superset (old new : gmap string State.Song) :
  (forall key, is_Some (old !! key) -> is_Some (new !! key)) ->
  State.merge_objects old new = new.
Proof.
  intros Hsub. unfold State.merge_objects. apply map_eq. intros key.
  rewrite lookup_union. destruct (new !! key) as [x|] eqn:Hnew.
  - destruct (old !! key); reflexivity.
  - destruct (old !! key) as [y|] eqn:Hold; [|reflexivity].
    destruct (Hsub key) as [z Hz]; [rewrite Hold; eauto|]. congruence.
Qed.

Lemma addSongsToCache_superset (new : gmap string State.Song) (s : State.Store) :
  (forall key, is_Some (State.songs (State.musicData (State.state s)) !! key) ->
               is_Some (new !! key)) ->
  State.songs (State.musicData (State.state (State.addSongsToCache (Some new) s))) = new /\
  State.playlists (State.musicData (State.state (State.addSongsToCache (Some new) s)))
    = State.playlists (State.musicData (State.state s)) /\
  State.playlistOrder (State.musicData (State.state (State.addSongsToCache (Some new) s)))
    = State.playlistOrder (State.musicData (State.state s)) /\
  State.activePlaylist (State.musicData (State.state (State.addSongsToCache (Some new) s)))
    = State.activePlaylist (State.musicData (State.state s)) /\
  State.playQueue (State.state (State.addSongsToCache (Some new) s))
    = State.playQueue (State.state s) /\
  State.currentSongIndex (State.state (State.addSongsToCache (Some new) s))
    = State.currentSongIndex (State.state s).
Proof.
  intros Hsub. unfold State.addSongsToCache.
  destruct (decide (size new = 0%nat)) as [Hsize|Hsize]; simpl.
  - apply map_size_empty_inv in Hsize. subst new.
    repeat split; try reflexivity.
    apply map_eq. intros key. rewrite lookup_empty.
    destruct (State.songs (State.musicData (State.state s)) !! key) eqn:Hk;
      [|reflexivity].
    destruct (Hsub key) as [x Hx]; [rewrite Hk; eauto|].
    rewrite lookup_empty in Hx. discriminate.
  - repeat split; try reflexivity. apply merge_objects_superset, Hsub.
Qed.

Lemma foldl_push_paths (added : list State.Song) (base : list string) :
  foldl (fun paths song => paths ++ [State.path song]) base added
  = base ++ map State.path added.
Proof.
  revert base. induction added as [|song rest IH]; intros base; simpl.
  - rewrite app_nil_r. reflexivity.
  - rewrite IH, <- app_assoc. reflexivity.
Qed.

(** What the optimistic action of [addSongsToActivePlaylist] and its
    undo closure do to the library fields. *)
Lemma addSongsToActivePlaylist_optimisticAction_spec
    (activePlaylistName : string) (added : list State.Song) (s : State.Store) :
  exists undo s1,
    Playlist.addSongsToActivePlaylist_optimisticAction activePlaylistName added s
      = State.Returned undo s1 /\
    State.songs (State.musicData (State.state s1)) =
      foldl (fun acc song => <[State.path song := song]> acc)
            (State.songs (State.musicData (State.state s))) added /\
    State.playlists (State.musicData (State.state s1)) =
      <[activePlaylistName :=
          js_or (State.playlists (State.musicData (State.state s)) !! activePlaylistName) []
          ++ map State.path added]>
        (State.playlists (State.musicData (State.state s))) /\
    State.playlistOrder (State.musicData (State.state s1))
      = State.playlistOrder (State.musicData (State.state s)) /\
    State.activePlaylist (State.musicData (State.state s1))
      = State.activePlaylist (State.musicData (State.state s)) /\
    State.playQueue (State.state s1) = State.playQueue (State.state s) /\
    State.currentSongIndex (State.state s1) = State.currentSongIndex (State.state s) /\
    forall u,
      State.playlists (State.musicData (State.state (undo u)))
        = State.playlists (State.musicData (State.state s)) /\
      State.songs (State.musicData (State.state (undo u)))
        = State.songs (State.musicData (State.state u)) /\
      State.playlistOrder (State.musicData (State.state (undo u)))
        = State.playlistOrder (State.musicData (State.state u)) /\
      State.activePlaylist (State.musicData (State.state (undo u)))
        = State.activePlaylist (State.musicData (State.state u)) /\
      State.playQueue (State.state (undo u)) = State.playQueue (State.state u) /\
      State.currentSongIndex (State.state (undo u))
        = State.currentSongIndex (State.state u).
Proof.
  unfold Playlist.addSongsToActivePlaylist_optimisticAction. eexists _, _.
  split; [reflexivity|].
  set (new := foldl (fun acc song => <[State.path song := song]> acc)
                    (State.songs (State.musicData (State.getState s))) added).
  destruct (addSongsToCache_superset new s) as (Hsongs & Hpl & Hord & Hact & Hq & Hidx).
  { intros key Hkey. apply insert_all_keeps, Hkey. }
  match goal with
  | |- context [if ?b then Playlist.generateShuffledPlaylist ?x else ?x] =>
      destruct (maybeShuffle_state x b) as (Hm & Hpq & Hci & _)
  end.
  rewrite Hm, Hpq, Hci. simpl.
  split; [exact Hsongs|].
  split; [rewrite foldl_push_paths; reflexivity|].
  split; [exact Hord|]. split; [exact Hact|].
  split; [exact Hq|]. split; [exact Hidx|].
  intros u.
  match goal with
  | |- context [if ?b then Playlist.generateShuffledPlaylist ?x else ?x] =>
      destruct (maybeShuffle_state x b) as (Hm' & Hpq' & Hci' & _)
  end.
  rewrite Hm', Hpq', Hci'. simpl. repeat split; reflexivity.
Qed.

(** C1 fails in the code. For every transaction whose optimistic action
    returned its undo closure, the backend call is started and the
    function waits. When that call is rejected, the [catch] block is
    entered and throws at its first statement: the undo closure is not
    called and no toast is shown, the store stays exactly as the
    rejection found it, and only the lock is released. For
    [addSongsToActivePlaylist], called with an active playlist name
    that the playlists map holds or that [Object.prototype] does not
    have, this means that after a rejected call the active playlist
    still ends with the paths that the optimistic action appended, so
    the playlists map is not the one from before the action, and the
    song cache still holds the added songs. *)
Theorem rejected_call_is_not_rolled_back :
  (forall optimisticAction apiCall opts r undo s1,
      State.isUpdating r = false ->
      optimisticAction (State.store r) = State.Returned undo s1 ->
      exists frame,
        State.performOptimisticUpdate optimisticAction apiCall opts r =
          ({| State.store := State.callApi (apiCall s1) s1; State.isUpdating := true |},
           Some frame) /\
        State.undoAction frame = undo /\
        forall r' message,
          State.tryCatch_resume frame (Rejected message) (State.store r')
            = State.Threw "errorMessagePrefix is not defined" (State.store r') /\
          State.performOptimisticUpdate_resume frame (Rejected message) r'
            = {| State.store := State.store r'; State.isUpdating := false |}) /\
  (forall songObjects r r1 frame message,
      State.isUpdating r = false ->
      is_Some (State.playlists (State.musicData (State.state (State.store r)))
                 !! State.activePlaylist (State.musicData (State.state (State.store r))))
        \/ State.activePlaylist (State.musicData (State.state (State.store r)))
             ∉ objectPrototype ->
      Playlist.addSongsToActivePlaylist (Some songObjects) r = (r1, Some frame) ->
      let before := State.state (State.store r) in
      let active := State.activePlaylist (State.musicData before) in
      let rejected := State.performOptimisticUpdate_resume frame (Rejected message) r1 in
      let after := State.state (State.store rejected) in
      let added :=
        List.filter
          (fun song =>
             negb (JsSet.has
                     (JsSet.from (js_or (State.playlists (State.musicData before) !! active) []))
                     (State.path song)))
          songObjects in
      added <> [] /\
      State.store rejected = State.store r1 /\
      State.isUpdating rejected = false /\
      State.playlists (State.musicData after) =
        <[active := js_or (State.playlists (State.musicData before) !! active) []
                    ++ map State.path added]>
          (State.playlists (State.musicData before)) /\
      State.playlists (State.musicData after) <> State.playlists (State.musicData before) /\
      State.songs (State.musicData after) =
        foldl (fun acc song => <[State.path song := song]> acc)
              (State.songs (State.musicData before)) added).
Proof.
  split.
  - intros optimisticAction apiCall opts r undo s1 Hfree Haction.
    eexists. unfold State.performOptimisticUpdate. rewrite Hfree, Haction.
    split; [reflexivity|]. split; [reflexivity|].
    intros r' message. split; reflexivity.
  - intros songObjects r r1 frame message Hfree _ Hrun before active rejected after added.
    unfold Playlist.addSongsToActivePlaylist in Hrun.
    destruct songObjects as [|song0 others]; [discriminate|].
    unfold State.getState in Hrun. fold before in Hrun. fold active in Hrun.
    change (List.filter _ (song0 :: others)) with added in Hrun.
    destruct added as [|first rest] eqn:Hadded; [discriminate|].
    rewrite <- Hadded in *.
    unfold State.performOptimisticUpdate in Hrun. rewrite Hfree in Hrun.
    destruct (addSongsToActivePlaylist_optimisticAction_spec active added (State.store r))
      as (undo & s1 & Haction & Hsongs & Hpl & _).
    rewrite Haction in Hrun. injection Hrun as <- <-.
    assert (Hne : added <> []) by (rewrite Hadded; discriminate).
    split; [exact Hne|]. split; [reflexivity|]. split; [reflexivity|].
    unfold after, rejected, State.performOptimisticUpdate_resume. simpl.
    split; [exact Hpl|]. split; [|exact Hsongs].
    rewrite Hpl. fold before. intros Heq.
    apply (f_equal (fun m => m !! active)) in Heq.
    rewrite lookup_insert_eq in Heq.
    assert (Hlen : length (js_or (State.playlists (State.musicData before) !! active) []
                           ++ map State.path added)
                   = length (js_or (State.playlists (State.musicData before) !! active) [])).
    { destruct (State.playlists (State.musicData before) !! active) as [paths|];
        [|discriminate].
      simpl in Heq. injection Heq as Heq. simpl. rewrite Heq. reflexivity. }
    rewrite length_app, length_map in Hlen.
    destruct added; [contradiction|simpl in Hlen; lia].
Qed.

(** The failing input of C1: [b.mp3] is added to the Default playlist
    and the backend rejects the call. Before the action the playlist was
    [a.mp3]; after the rejection it is still [a.mp3; b.mp3], no toast
    tells of the failure, and the lock is free. *)
Lemma rejected_call_is_not_rolled_back_witness :
  State.isUpdating (sampleRuntime []) = false /\
  Playlist.addSongsToActivePlaylist (Some [songB]) (sampleRuntime []) = startedAdd /\
  is_Some startedAdd.2 /\
  State.playlists (State.musicData (State.state (State.store (sampleRuntime []))))
    !! "Default"%string = Some ["a.mp3"%string] /\
  State.playlists (State.musicData (State.state (State.store rejectedAdd)))
    !! "Default"%string = Some ["a.mp3"%string; "b.mp3"%string] /\
  State.playlists (State.musicData (State.state (State.store rejectedAdd)))
    <> State.playlists (State.musicData (State.state (State.store (sampleRuntime [])))) /\
  State.toasts (State.store rejectedAdd) = [] /\
  State.isUpdating rejectedAdd = false.
Proof.
  assert (H1 : State.isUpdating (sampleRuntime []) = false) by reflexivity.
  split; [exact H1|]. split; [reflexivity|].
  destruct startedAdd as [r1 [frame|]] eqn:Hstarted.
  - split; [eexists; reflexivity|].
    split; [vm_compute; reflexivity|].
    destruct rejected_call_is_not_rolled_back as [_ Hadd].
    assert (H2 : is_Some (State.playlists
                            (State.musicData (State.state (State.store (sampleRuntime []))))
                            !! State.activePlaylist
                                 (State.musicData (State.state (State.store (sampleRuntime [])))))
                 \/ State.activePlaylist
                      (State.musicData (State.state (State.store (sampleRuntime []))))
                      ∉ objectPrototype)
      by (left; eexists; vm_compute; reflexivity).
    destruct (Hadd [songB] (sampleRuntime []) r1 frame "offline"%string H1 H2 Hstarted)
      as (_ & _ & _ & _ & Hdiffer & _).
    assert (Hrejected :
      rejectedAdd = State.performOptimisticUpdate_resume frame (Rejected "offline") r1).
    { unfold rejectedAdd. rewrite Hstarted. reflexivity. }
    split; [rewrite Hrejected; vm_compute in Hstarted; injection Hstarted as <- <-;
            vm_compute; reflexivity|].
    split; [rewrite Hrejected; exact Hdiffer|].
    rewrite Hrejected. vm_compute in Hstarted. injection Hstarted as <- <-.
    split; vm_compute; reflexivity.
  - exfalso. vm_compute in Hstarted. discriminate.
Defined.

(** ** The lock of the transactions *)

Lemma performOptimisticUpdate_lock optimisticAction apiCall opts (r : State.Runtime) :
  match State.performOptimisticUpdate optimisticAction apiCall opts r with
  | (r', Some _) => State.isUpdating r = false /\ State.isUpdating r' = true
  | (r', None) => State.isUpdating r' = State.isUpdating r
  end.
Proof.
  unfold State.performOptimisticUpdate.
  destruct (State.isUpdating r) eqn:Hlock; [reflexivity|].
  destruct (optimisticAction (State.store r)); simpl; auto.
Qed.

Lemma step_lockInvariant (sys : State.System) (e : State.Event) :
  lockInvariant sys -> lockInvariant (State.step sys e).
Proof.
  unfold lockInvariant. intros Hinv.
  destruct e as [optimisticAction apiCall opts|k outcome|f]; simpl.
  - pose proof (performOptimisticUpdate_lock optimisticAction apiCall opts
                  (State.runtime sys)) as Hlock.
    destruct (State.performOptimisticUpdate _ _ _ _) as [r' [frame|]]; simpl.
    + destruct Hlock as [Hfree Hheld].
      destruct Hinv as [[Hbusy _]|[_ Hnone]]; [congruence|].
      left. rewrite Hnone. auto.
    + rewrite Hlock. exact Hinv.
  - destruct (State.suspended sys !! k) as [frame|] eqn:Hk; [|exact Hinv].
    simpl. right. split; [reflexivity|].
    destruct Hinv as [[_ Hone]|[_ Hnone]].
    + destruct (State.suspended sys) as [|x [|y rest]]; try discriminate.
      destruct k; [reflexivity|discriminate].
    + rewrite Hnone in Hk. discriminate.
  - exact Hinv.
Qed.

Lemma run_lockInvariant (events : list State.Event) :
  forall sys, lockInvariant sys -> lockInvariant (State.run sys events).
Proof.
  induction events as [|e rest IH]; intros sys Hinv; [exact Hinv|].
  simpl. apply IH, step_lockInvariant, Hinv.
Qed.

(** C2. A call of [performOptimisticUpdate] that finds the lock held
    returns at once: no frame is suspended, the "please wait" toast is
    the only effect, and state, published events and backend calls are
    what they were, whatever the optimistic action and the backend call
    are. The resumed half releases the lock on every outcome, as does a
    call whose optimistic action throws. Over any sequence of calls,
    settlements and other store writes, at most one transaction is
    suspended, and the lock is held exactly while one is. *)
Theorem optimistic_update_mutex :
  (forall optimisticAction apiCall opts r,
      State.isUpdating r = true ->
      State.performOptimisticUpdate optimisticAction apiCall opts r =
        ({| State.store :=
              State.showToast "Please wait for the current operation to complete."
                              State.info (State.store r);
            State.isUpdating := true |}, None)) /\
  (forall optimisticAction apiCall opts r r' frame,
      State.isUpdating r = true ->
      State.performOptimisticUpdate optimisticAction apiCall opts r = (r', frame) ->
      frame = None /\
      State.state (State.store r') = State.state (State.store r) /\
      State.published (State.store r') = State.published (State.store r) /\
      State.apiCalls (State.store r') = State.apiCalls (State.store r) /\
      State.isUpdating r' = true) /\
  (forall frame outcome r,
      State.isUpdating (State.performOptimisticUpdate_resume frame outcome r) = false) /\
  (forall optimisticAction apiCall opts r message s1,
      State.isUpdating r = false ->
      optimisticAction (State.store r) = State.Threw message s1 ->
      exists r',
        State.performOptimisticUpdate optimisticAction apiCall opts r = (r', None) /\
        State.isUpdating r' = false) /\
  (forall s events,
      let sys := State.run (State.loaded s) events in
      (length (State.suspended sys) <= 1)%nat /\
      (State.isUpdating (State.runtime sys) = true <->
       length (State.suspended sys) = 1%nat)).
Proof.
  split; [|split; [|split; [|split]]].
  - intros optimisticAction apiCall opts r Hheld.
    unfold State.performOptimisticUpdate. rewrite Hheld. reflexivity.
  - intros optimisticAction apiCall opts r r' frame Hheld Hrun.
    unfold State.performOptimisticUpdate in Hrun. rewrite Hheld in Hrun.
    injection Hrun as <- <-. simpl. repeat split; reflexivity.
  - intros frame outcome r. reflexivity.
  - intros optimisticAction apiCall opts r message s1 Hfree Hthrow.
    unfold State.performOptimisticUpdate. rewrite Hfree, Hthrow.
    eexists. split; reflexivity.
  - intros s events sys.
    assert (Hinv : lockInvariant sys).
    { apply run_lockInvariant. right. split; reflexivity. }
    destruct Hinv as [[Hheld Hone]|[Hfree Hnone]].
    + rewrite Hheld, Hone. split; [lia|tauto].
    + rewrite Hfree, Hnone. simpl. split; [lia|]. split; discriminate.
Qed.

Lemma optimistic_update_mutex_witness :
  State.isUpdating startedAdd.1 = true /\
  (Playlist.addSongsToActivePlaylist (Some [songA; songB]) startedAdd.1).2 = None /\
  State.state (State.store
    (State.performOptimisticUpdate
       (Playlist.addSongsToActivePlaylist_optimisticAction "Default" [songB])
       (fun _ => State.addSongsToPlaylist "Default" [songB])
       State.noOptions startedAdd.1).1)
  = State.state (State.store startedAdd.1).
Proof.
  assert (H1 : State.isUpdating startedAdd.1 = true) by (vm_compute; reflexivity).
  split; [exact H1|]. split; [vm_compute; reflexivity|].
  destruct optimistic_update_mutex as (Hbusy & _).
  rewrite (Hbusy _ _ _ _ H1). reflexivity.
Defined.

(** ** Deleting songs *)

(** C8 at the input where it fails. The song [a.mp3] is selected, cached
    and in the Default playlist. The optimistic action of
    [deleteSelectedSongs] builds a cache without it, but hands that
    cache to [setMusicData], which merges it into the old one: the path
    leaves the playlist and stays in the cache. *)
Theorem deleteSelectedSongs_leaves_cache_entry :
  Playlist.deleteSelectedSongs (sampleRuntime ["a.mp3"%string]) = Some ["a.mp3"%string] /\
  is_Some startedDelete.2 /\
  State.playlists (State.musicData (State.state (State.store startedDelete.1)))
    !! "Default"%string = Some [] /\
  State.songs (State.musicData (State.state (State.store startedDelete.1)))
    !! "a.mp3"%string = Some songA /\
  State.apiCalls (State.store startedDelete.1) = [State.deleteSongs ["a.mp3"%string]].
Proof.
  split; [reflexivity|]. split; [eexists; reflexivity|].
  repeat split; vm_compute; reflexivity.
Qed.

(** ** Markers *)

Lemma Qle_bool_false (a b : Q) : Qle_bool a b = false -> (b <= a)%Q.
Proof.
  intros H. apply Qlt_le_weak, Qnot_le_lt. intros Hle.
  apply Qle_bool_iff in Hle. congruence.
Qed.

Lemma Qle_bool_false_lt (a b : Q) : Qle_bool a b = false -> (b < a)%Q.
Proof.
  intros H. apply Qnot_le_lt. intros Hle. apply Qle_bool_iff in Hle. congruence.
Qed.

(** [Double.exponent] stays below its argument. *)
Lemma exponent_le (a : Q) : (0 < a)%Q -> (2 ^ Double.exponent a <= a)%Q.
Proof.
  intros Ha. unfold Double.exponent.
  set (e0 := Z.log2 (Qnum a) - Z.log2 (Z.pos (Qden a))).
  destruct (Qle_bool (2 ^ e0) a) eqn:Hle; [apply Qle_bool_iff; exact Hle|].
  destruct a as [n d]. unfold Qnum, Qden in e0.
  assert (Hn : 0 < n) by (unfold Qlt in Ha; simpl in Ha; lia).
  pose proof (Z.log2_spec n Hn) as [Hlow _].
  pose proof (Z.log2_spec (Z.pos d) (Pos2Z.is_pos d)) as [_ Hhigh].
  assert (Hln : 0 <= Z.log2 n) by apply Z.log2_nonneg.
  assert (Hld : 0 <= Z.log2 (Z.pos d)) by apply Z.log2_nonneg.
  replace (e0 - 1) with (Z.log2 n - Z.succ (Z.log2 (Z.pos d))) by (unfold e0; lia).
  rewrite Qpower_minus by discriminate.
  rewrite <- !(Zpower_Qpower 2) by lia.
  rewrite (Qmake_Qdiv n d).
  assert (Hpow : 0 < 2 ^ Z.succ (Z.log2 (Z.pos d))) by (apply Z.pow_pos_nonneg; lia).
  apply Qle_shift_div_l; [change 0%Q with (inject_Z 0); rewrite <- Zlt_Qlt; lia|].
  unfold Qdiv. rewrite <- Qmult_assoc, (Qmult_comm (/ _)), Qmult_assoc.
  apply Qle_shift_div_r; [change 0%Q with (inject_Z 0); rewrite <- Zlt_Qlt; lia|].
  rewrite <- !inject_Z_mult. rewrite <- Zle_Qle. nia.
Qed.

Lemma nearestEven_le (q : Q) : (inject_Z (Double.nearestEven q) <= q + (1 # 2))%Q.
Proof.
  unfold Double.nearestEven.
  pose proof (Qfloor_le q) as Hlow. pose proof (Qlt_floor q) as Hhigh.
  rewrite inject_Z_plus in Hhigh. change (inject_Z 1) with 1%Q in Hhigh.
  destruct (Qle_bool (q - inject_Z (Qfloor q)) (1 # 2)) eqn:Hhalf.
  - destruct (Qeq_bool (q - inject_Z (Qfloor q)) (1 # 2)) eqn:Htie.
    + apply Qeq_bool_iff in Htie.
      destruct (Z.even (Qfloor q)).
      * set (F := inject_Z (Qfloor q)) in *. clearbody F. lra.
      * rewrite inject_Z_plus. change (inject_Z 1) with 1%Q.
        set (F := inject_Z (Qfloor q)) in *. clearbody F. lra.
    + set (F := inject_Z (Qfloor q)) in *. clearbody F. lra.
  - apply Qle_bool_false_lt in Hhalf.
    rewrite inject_Z_plus. change (inject_Z 1) with 1%Q.
    set (F := inject_Z (Qfloor q)) in *. clearbody F. lra.
Qed.

Lemma nearestEven_nonneg (q : Q) : (0 <= q)%Q -> 0 <= Double.nearestEven q.
Proof.
  intros Hq. unfold Double.nearestEven.
  assert (Hf : 0 <= Qfloor q).
  { change 0 with (Qfloor 0). apply Qfloor_resp_le, Hq. }
  repeat match goal with |- context [if ?b then _ else _] => destruct b end; lia.
Qed.

Lemma magnitude_nonneg (a : Q) : (0 <= a)%Q -> (0 <= Double.magnitude a)%Q.
Proof.
  intros Ha. unfold Double.magnitude.
  set (e := Z.max _ _).
  assert (Hu : (0 < 2 ^ e)%Q) by (apply Qpower_0_lt; reflexivity).
  apply Qmult_le_0_compat; [|apply Qlt_le_weak, Hu].
  change 0%Q with (inject_Z 0). rewrite <- Zle_Qle.
  apply nearestEven_nonneg. apply Qle_shift_div_l; [exact Hu|]. lra.
Qed.

(** A number below one half by more than [2 ^ -55] rounds to a double
    below one half. *)
Lemma magnitude_below_half (a : Q) :
  (0 < a)%Q -> (a < (1 # 2) - (1 # 2) ^ 55)%Q -> (Double.magnitude a < 1 # 2)%Q.
Proof.
  intros Hpos Ha.
  assert (Hexp : Double.exponent a < -1).
  { apply (Qpower_lt_compat_l_inv 2); [|reflexivity].
    apply Qle_lt_trans with a; [apply exponent_le, Hpos|].
    change (2 ^ (-1))%Q with (1 # 2)%Q.
    assert (H55 : (0 < (1 # 2) ^ 55)%Q) by reflexivity. lra. }
  unfold Double.magnitude.
  set (e := Z.max (Double.exponent a - 52) (-1074)).
  assert (He : e <= -54) by (unfold e; lia).
  assert (Hu : (0 < 2 ^ e)%Q) by (apply Qpower_0_lt; reflexivity).
  assert (Hsmall : (2 ^ e <= 2 ^ (-54))%Q).
  { apply Qpower_le_compat_l; [exact He|discriminate]. }
  pose proof (nearestEven_le (a / 2 ^ e)) as Hnear.
  set (u := (2 ^ e)%Q) in *. clearbody u. clear e He Hexp.
  set (k := inject_Z (Double.nearestEven (a / u))) in *. clearbody k.
  assert (Hku : (k * u <= a + u * (1 # 2))%Q).
  { apply Qle_trans with ((a / u + (1 # 2)) * u)%Q.
    - apply Qmult_le_compat_r; [exact Hnear|lra].
    - assert (Heq : ((a / u + (1 # 2)) * u == a + u * (1 # 2))%Q) by (field; lra).
      rewrite Heq. lra. }
  assert (H54 : (2 ^ (-54) == 1 # 18014398509481984)%Q) by reflexivity.
  assert (H55 : ((1 # 2) ^ 55 == 1 # 36028797018963968)%Q) by reflexivity.
  rewrite H54 in Hsmall. rewrite H55 in Ha. lra.
Qed.

(** What the rounded test of the add-marker handler says about the
    exact distance: a rounded size of one half or more takes an exact
    size of one half less [2 ^ -55] or more. *)
Lemma round_far (x : Q) :
  (1 # 2 <= Qabs (Double.round x))%Q -> (Player.leastGap <= Qabs x)%Q.
Proof.
  unfold Player.leastGap.
  intros Hfar. destruct (Qlt_le_dec (Qabs x) ((1 # 2) - (1 # 2) ^ 55)) as [Hnear|]; [|assumption].
  exfalso. unfold Double.round in Hfar.
  pose proof (Qred_correct (Qabs x)) as Hred.
  pose proof (Qabs_nonneg x) as Hnonneg.
  assert (Hrounded : (Double.magnitude (Qred (Qabs x)) < 1 # 2)%Q).
  { destruct (Qle_lt_or_eq 0 (Qabs x) Hnonneg) as [Hpos|Hzero].
    - apply magnitude_below_half; rewrite Hred; assumption.
    - assert (Hr : Qred (Qabs x) = Qred 0) by (apply Qred_complete; symmetry; exact Hzero).
      rewrite Hr. reflexivity. }
  assert (Hsize : (0 <= Double.magnitude (Qred (Qabs x)))%Q).
  { apply magnitude_nonneg. rewrite Hred. exact Hnonneg. }
  set (r := Double.magnitude (Qred (Qabs x))) in *. clearbody r.
  destruct (Qle_bool 0 x).
  - rewrite Qabs_pos in Hfar by exact Hsize. lra.
  - rewrite Qabs_opp, Qabs_pos in Hfar by exact Hsize. lra.
Qed.

(** The rounded difference of two numbers has the same size whichever
    is taken from the other. *)
Lemma sub_abs_sym (a b : Q) : (Qabs (Double.sub a b) == Qabs (Double.sub b a))%Q.
Proof.
  unfold Double.sub, Double.round.
  assert (Hsize : Qred (Qabs (a - b)) = Qred (Qabs (b - a))).
  { apply Qred_complete. rewrite (Qabs_Qminus a b). reflexivity. }
  rewrite Hsize. set (r := Double.magnitude _).
  destruct (Qle_bool 0 (a - b)), (Qle_bool 0 (b - a)); try reflexivity.
  - symmetry. apply Qabs_opp.
  - apply Qabs_opp.
Qed.

Lemma far_sym (a b : Q) :
  (1 # 2 <= Qabs (Double.sub a b))%Q <-> (1 # 2 <= Qabs (Double.sub b a))%Q.
Proof. rewrite (sub_abs_sym a b). tauto. Qed.

Lemma Forall_insertByTimestamp (P : State.Marker -> Prop) (m : State.Marker)
    (l : list State.Marker) :
  Forall P (Player.insertByTimestamp m l) <-> P m /\ Forall P l.
Proof.
  induction l as [|x rest IH]; simpl.
  - rewrite Forall_singleton, Forall_nil. tauto.
  - destruct (Qle_bool (State.timestamp m) (State.timestamp x)).
    + rewrite !Forall_cons. tauto.
    + rewrite !Forall_cons, IH. tauto.
Qed.

Lemma Forall_sortByTimestamp (P : State.Marker -> Prop) (l : list State.Marker) :
  Forall P (Player.sortByTimestamp l) <-> Forall P l.
Proof.
  induction l as [|x rest IH]; simpl; [tauto|].
  rewrite Forall_insertByTimestamp, Forall_cons, IH. tauto.
Qed.

Lemma insertByTimestamp_ascending (m : State.Marker) (l : list State.Marker) :
  Player.ascending l -> Player.ascending (Player.insertByTimestamp m l).
Proof.
  induction l as [|x rest IH]; intros Hl; simpl.
  - split; [constructor|exact I].
  - destruct Hl as [Hx Hrest].
    destruct (Qle_bool (State.timestamp m) (State.timestamp x)) eqn:Hcmp.
    + apply Qle_bool_iff in Hcmp. simpl. split; [|split; assumption].
      constructor; [exact Hcmp|].
      eapply Forall_impl; [exact Hx|]. intros y Hy. simpl in Hy.
      eapply Qle_trans; eassumption.
    + apply Qle_bool_false in Hcmp. simpl. split; [|apply IH, Hrest].
      apply Forall_insertByTimestamp. split; assumption.
Qed.

Lemma sortByTimestamp_ascending (l : list State.Marker) :
  Player.ascending (Player.sortByTimestamp l).
Proof.
  induction l as [|x rest IH]; simpl; [exact I|].
  apply insertByTimestamp_ascending, IH.
Qed.

Lemma insertByTimestamp_spaced (m : State.Marker) (l : list State.Marker) :
  Player.spaced (Player.insertByTimestamp m l) <-> Player.spaced (m :: l).
Proof.
  induction l as [|x rest IH]; simpl; [tauto|].
  destruct (Qle_bool (State.timestamp m) (State.timestamp x)); simpl; [tauto|].
  rewrite Forall_insertByTimestamp, IH, Forall_cons. simpl.
  rewrite (far_sym (State.timestamp m) (State.timestamp x)). tauto.
Qed.

Lemma sortByTimestamp_spaced (l : list State.Marker) :
  Player.spaced (Player.sortByTimestamp l) <-> Player.spaced l.
Proof.
  induction l as [|x rest IH]; simpl; [tauto|].
  rewrite insertByTimestamp_spaced. simpl.
  rewrite Forall_sortByTimestamp, IH. tauto.
Qed.

Lemma spaced_snoc (l : list State.Marker) (m : State.Marker) :
  Player.spaced (l ++ [m]) <->
  Player.spaced l /\
  Forall (fun x => (1 # 2 <= Qabs (Double.sub (State.timestamp x) (State.timestamp m)))%Q) l.
Proof.
  induction l as [|x rest IH]; simpl.
  - rewrite Forall_nil. tauto.
  - rewrite Forall_app, Forall_singleton, IH, Forall_cons.
    rewrite (far_sym (State.timestamp m) (State.timestamp x)). tauto.
Qed.

Lemma tooClose_false (t : Q) (l : list State.Marker) :
  Player.tooClose t l = false <->
  Forall (fun x => (1 # 2 <= Qabs (Double.sub (State.timestamp x) t))%Q) l.
Proof.
  unfold Player.tooClose. induction l as [|x rest IH]; simpl.
  - rewrite Forall_nil. tauto.
  - rewrite orb_false_iff, negb_false_iff, Qle_bool_iff, IH, Forall_cons. tauto.
Qed.

(** Markers that are spaced as the handler measures are apart, exactly,
    by one half less [2 ^ -55] or more. *)
Lemma spaced_apart (l : list State.Marker) :
  Player.spaced l -> Player.apart Player.leastGap l.
Proof.
  induction l as [|m rest IH]; simpl; [tauto|].
  intros [Hm Hrest]. split; [|apply IH, Hrest].
  eapply Forall_impl; [exact Hm|]. intros x Hx. cbv beta in Hx.
  exact (round_far (State.timestamp x - State.timestamp m) Hx).
Qed.

(** The bound is met: the doubles nearest to 0.1 and 0.6 are apart by
    one half less [2 ^ -55], their difference rounds to one half, and
    the handler does not find them too close. *)
Lemma tooClose_rounds_the_difference :
  let a := Double.round (1 # 10) in
  let b := Double.round (6 # 10) in
  (Qabs (b - a) == Player.leastGap)%Q /\
  (Double.sub b a == 1 # 2)%Q /\
  Player.tooClose b [ {| State.id := "m1"; State.timestamp := a |} ] = false.
Proof. repeat split; vm_compute; reflexivity. Qed.

Lemma Forall_List_filter {A} (P : A -> Prop) (f : A -> bool) (l : list A) :
  Forall P l -> Forall P (List.filter f l).
Proof.
  induction 1 as [|x rest Hx _ IH]; simpl; [constructor|].
  destruct (f x); [constructor|]; assumption.
Qed.

Lemma filter_ascending (f : State.Marker -> bool) (l : list State.Marker) :
  Player.ascending l -> Player.ascending (List.filter f l).
Proof.
  induction l as [|x rest IH]; simpl; [tauto|].
  intros [Hx Hrest]. destruct (f x); simpl; [|apply IH, Hrest].
  split; [apply Forall_List_filter, Hx|apply IH, Hrest].
Qed.

Lemma filter_spaced (f : State.Marker -> bool) (l : list State.Marker) :
  Player.spaced l -> Player.spaced (List.filter f l).
Proof.
  induction l as [|x rest IH]; simpl; [tauto|].
  intros [Hx Hrest]. destruct (f x); simpl; [|apply IH, Hrest].
  split; [apply Forall_List_filter, Hx|apply IH, Hrest].
Qed.

(** Pushing a marker that is not too close keeps order and spacing. *)
Lemma pushMarker_ordered (now : Z) (t : Q) (l : list State.Marker) :
  Player.spaced l -> Player.tooClose t l = false ->
  Player.ascending (Player.pushMarker now t l) /\
  Player.spaced (Player.pushMarker now t l).
Proof.
  intros Hspaced Hfar. unfold Player.pushMarker.
  split; [apply sortByTimestamp_ascending|].
  apply sortByTimestamp_spaced, spaced_snoc. split; [exact Hspaced|].
  apply tooClose_false in Hfar. exact Hfar.
Qed.

(** The playing song, when its key is in the cache. *)
Lemma currentSong_hydrated (s : State.Store) (key : string) (song : State.Song) :
  Player.currentKey s = Some key ->
  State.songs (State.musicData (State.state s)) !! key = Some song ->
  js_index (State.getActivePlaylist s) (State.currentSongIndex (State.getState s))
    = Some song.
Proof.
  unfold Player.currentKey, State.getActivePlaylist, State.getState.
  intros Hkey Hsong. rewrite js_index_map, Hkey. simpl. rewrite Hsong. reflexivity.
Qed.

Lemma assignMarkers_current (s : State.Store) (key : string) (song : State.Song)
    (v : list State.Marker) :
  Player.currentKey s = Some key ->
  State.songs (State.musicData (State.state s)) !! key = Some song ->
  Player.currentKey (Player.assignMarkers key v s) = Some key /\
  State.songs (State.musicData (State.state (Player.assignMarkers key v s))) !! key
    = Some (Player.with_markers (Some v) song) /\
  Player.currentMarkers (Player.assignMarkers key v s) = Some v.
Proof.
  intros Hkey Hsong.
  assert (Hkey' : Player.currentKey (Player.assignMarkers key v s) = Some key)
    by exact Hkey.
  assert (Hsong' :
    State.songs (State.musicData (State.state (Player.assignMarkers key v s))) !! key
      = Some (Player.with_markers (Some v) song)).
  { simpl. rewrite lookup_alter_eq, Hsong. reflexivity. }
  split; [exact Hkey'|]. split; [exact Hsong'|].
  unfold Player.currentMarkers.
  rewrite (currentSong_hydrated _ key _ Hkey' Hsong'). reflexivity.
Qed.

Lemma currentMarkers_ext (s1 s2 : State.Store) :
  State.musicData (State.state s1) = State.musicData (State.state s2) ->
  State.currentSongIndex (State.state s1) = State.currentSongIndex (State.state s2) ->
  Player.currentMarkers s1 = Player.currentMarkers s2 /\
  Player.currentKey s1 = Player.currentKey s2.
Proof.
  intros Hdata Hindex.
  unfold Player.currentMarkers, Player.currentKey, State.getActivePlaylist, State.getState.
  rewrite Hdata, Hindex. split; reflexivity.
Qed.

Lemma maybeDeselect_library (b : bool) (s : State.Store) :
  let s' := if b then State.setSelectedMarker None s else s in
  State.musicData (State.state s') = State.musicData (State.state s) /\
  State.currentSongIndex (State.state s') = State.currentSongIndex (State.state s).
Proof. destruct b; split; reflexivity. Qed.

(** C7, as the code has it. Distances are taken as the add-marker
    handler takes them: the difference of two timestamps as a double,
    that is rounded to nearest. For the playing song, when it is in the
    cache and its markers are ascending and at least half a second
    apart in that measure: the add-marker handler completes and leaves
    them ascending and spaced, so that any two of them are apart,
    exactly, by half a second less [2 ^ -55] or more, and adds nothing
    when the new timestamp is within half a second of a marker in that
    measure; [deleteMarker]
    leaves them ascending and spaced, both after its optimistic step and
    after the backend has answered either way; [updateMarkerTimestamp]
    leaves them ascending, and a rejected save puts the old list
    back. *)
Theorem markers_stay_ordered (s : State.Store) (key : string) (song : State.Song) :
  Player.currentKey s = Some key ->
  State.songs (State.musicData (State.state s)) !! key = Some song ->
  Player.ascending (js_or (State.markers song) []) ->
  Player.spaced (js_or (State.markers song) []) ->
  (forall now audio,
      exists s',
        Player.addMarkerBtn_click now audio s = Some s' /\
        Player.ascending (js_or (Player.currentMarkers s') []) /\
        Player.spaced (js_or (Player.currentMarkers s') []) /\
        Player.apart Player.leastGap (js_or (Player.currentMarkers s') []) /\
        (Player.tooClose (Player.currentTime audio) (js_or (State.markers song) []) = true ->
         js_or (Player.currentMarkers s') [] = js_or (State.markers song) [])) /\
  (forall markerId,
      let started := Player.deleteMarker markerId s in
      Player.ascending (js_or (Player.currentMarkers started.1) []) /\
      Player.spaced (js_or (Player.currentMarkers started.1) []) /\
      forall frame outcome,
        started.2 = Some frame ->
        let s' := Player.deleteMarker_resume frame outcome started.1 in
        Player.ascending (js_or (Player.currentMarkers s') []) /\
        Player.spaced (js_or (Player.currentMarkers s') [])) /\
  (forall markerId newTimestamp,
      let started := Player.updateMarkerTimestamp markerId newTimestamp s in
      Player.ascending (js_or (Player.currentMarkers started.1) []) /\
      forall frame message,
        started.2 = Some frame ->
        js_or (Player.currentMarkers
                 (Player.updateMarkerTimestamp_resume frame (Rejected message) started.1)) []
        = js_or (State.markers song) []).
Proof.
  intros Hkey Hsong Hasc Hspaced.
  pose proof (currentSong_hydrated s key song Hkey Hsong) as Hcurrent.
  assert (Hnow : Player.currentMarkers s = State.markers song).
  { unfold Player.currentMarkers. rewrite Hcurrent. reflexivity. }
  split; [|split].
  - intros now audio. unfold Player.addMarkerBtn_click.
    destruct (bool_decide _ || Player.noDuration audio).
    { eexists. split; [reflexivity|].
      change (Player.currentMarkers (State.showToast ?m ?k s))
        with (Player.currentMarkers s).
      rewrite Hnow. pose proof (spaced_apart _ Hspaced). auto. }
    rewrite Hcurrent, Hkey.
    destruct (Player.tooClose _ _) eqn:Hclose.
    + eexists. split; [reflexivity|].
      destruct (assignMarkers_current s key song (js_or (State.markers song) [])
                  Hkey Hsong) as (_ & _ & Hm).
      change (Player.currentMarkers (State.showToast ?m ?k ?x))
        with (Player.currentMarkers x).
      rewrite Hm. simpl. pose proof (spaced_apart _ Hspaced). auto.
    + eexists. split; [reflexivity|].
      destruct (assignMarkers_current s key song
                  (Player.pushMarker now (Player.currentTime audio)
                     (js_or (State.markers song) []))
                  Hkey Hsong) as (_ & _ & Hm).
      change (Player.currentMarkers (State.callApi ?m ?x))
        with (Player.currentMarkers x).
      rewrite Hm. simpl.
      destruct (pushMarker_ordered now (Player.currentTime audio)
                  (js_or (State.markers song) []) Hspaced Hclose) as [Ha Hs].
      split; [exact Ha|]. split; [exact Hs|]. split; [apply spaced_apart, Hs|].
      discriminate.
  - intros markerId started. unfold started, Player.deleteMarker.
    rewrite Hcurrent, Hkey.
    destruct (State.markers song) as [ms|] eqn:Hms.
    2:{ simpl. rewrite Hnow. simpl. split; [exact I|]. split; [exact I|]. discriminate. }
    simpl in Hasc, Hspaced.
    destruct (negb (State.truthy markerId)).
    { simpl. rewrite Hnow. simpl. split; [assumption|]. split; [assumption|].
      discriminate. }
    set (kept := List.filter (fun m => negb (bool_decide (State.id m = markerId))) ms).
    set (sel := bool_decide (State.id <$> State.selectedMarker (State.getState s)
                             = Some markerId)).
    destruct (assignMarkers_current s key song kept Hkey Hsong) as (Hkey1 & Hsong1 & Hm1).
    destruct (maybeDeselect_library sel (Player.assignMarkers key kept s)) as [Hd Hi].
    set (s2 := if sel then State.setSelectedMarker None (Player.assignMarkers key kept s)
               else Player.assignMarkers key kept s) in *.
    destruct (currentMarkers_ext s2 (Player.assignMarkers key kept s) Hd Hi) as [Hm2 Hkey2].
    simpl.
    change (Player.currentMarkers (State.callApi ?m ?x)) with (Player.currentMarkers x).
    rewrite Hm2, Hm1. simpl.
    split; [apply filter_ascending, Hasc|]. split; [apply filter_spaced, Hspaced|].
    intros frame outcome Hframe. injection Hframe as <-.
    unfold Player.deleteMarker_resume. simpl.
    destruct outcome as [[]|message].
    + change (Player.currentMarkers (State.showToast ?m ?k ?x))
        with (Player.currentMarkers x).
      change (Player.currentMarkers (State.callApi ?m ?x)) with (Player.currentMarkers x).
      rewrite Hm2, Hm1. simpl.
      split; [apply filter_ascending, Hasc|apply filter_spaced, Hspaced].
    + match goal with
      | |- context [Player.assignMarkers key ms ?x] =>
          destruct (assignMarkers_current x key (Player.with_markers (Some kept) song) ms)
            as (_ & _ & Hback)
      end.
      { change (Player.currentKey s2 = Some key). rewrite Hkey2. exact Hkey1. }
      { change (State.songs (State.musicData (State.state s2)) !! key
                = Some (Player.with_markers (Some kept) song)).
        rewrite Hd. exact Hsong1. }
      destruct sel.
      * change (Player.currentMarkers (State.setSelectedMarker ?m ?x))
          with (Player.currentMarkers x).
        rewrite Hback. simpl. split; assumption.
      * rewrite Hback. simpl. split; assumption.
  - intros markerId newTimestamp started. unfold started, Player.updateMarkerTimestamp.
    rewrite Hcurrent, Hkey.
    destruct (State.markers song) as [ms|] eqn:Hms.
    2:{ simpl. rewrite Hnow. simpl. split; [exact I|]. discriminate. }
    simpl in Hasc, Hspaced.
    destruct (negb (State.truthy markerId)).
    { simpl. rewrite Hnow. simpl. split; [assumption|]. discriminate. }
    destruct (Player.retime markerId newTimestamp ms) as [retimed|].
    2:{ simpl. rewrite Hnow. simpl. split; [assumption|]. discriminate. }
    destruct (assignMarkers_current s key song (Player.sortByTimestamp retimed) Hkey Hsong)
      as (Hkey1 & Hsong1 & Hm1).
    simpl.
    change (Player.currentMarkers (State.callApi ?m ?x)) with (Player.currentMarkers x).
    rewrite Hm1. simpl. split; [apply sortByTimestamp_ascending|].
    intros frame message Hframe. injection Hframe as <-.
    unfold Player.updateMarkerTimestamp_resume. simpl.
    match goal with
    | |- context [Player.assignMarkers key ms ?x] =>
        destruct (assignMarkers_current x key
                    (Player.with_markers (Some (Player.sortByTimestamp retimed)) song) ms)
          as (_ & _ & Hback)
    end.
    { exact Hkey1. } { exact Hsong1. }
    rewrite Hback. reflexivity.
Qed.

(** C7, as the design document has it, fails for the timestamp update:
    two markers four seconds apart, the second dragged to 1.25 seconds,
    are left a quarter of a second apart, in the measure of the handler
    and exactly. *)
Lemma update_leaves_markers_too_close :
  Player.currentMarkers markedStore =
    Some [ {| State.id := "m1"; State.timestamp := 1 |};
           {| State.id := "m2"; State.timestamp := 5 |} ] /\
  Player.spaced [ {| State.id := "m1"; State.timestamp := 1 |};
                  {| State.id := "m2"; State.timestamp := 5 |} ] /\
  Player.currentMarkers draggedMarker.1 =
    Some [ {| State.id := "m1"; State.timestamp := 1 |};
           {| State.id := "m2"; State.timestamp := 5 # 4 |} ] /\
  ~ Player.spaced [ {| State.id := "m1"; State.timestamp := 1 |};
                    {| State.id := "m2"; State.timestamp := 5 # 4 |} ] /\
  ~ Player.apart (1 # 2) [ {| State.id := "m1"; State.timestamp := 1 |};
                           {| State.id := "m2"; State.timestamp := 5 # 4 |} ].
Proof.
  split; [vm_compute; reflexivity|]. split.
  { simpl. repeat constructor. vm_compute. discriminate. }
  split; [vm_compute; reflexivity|]. split.
  - simpl. intros [Hfar _]. apply Forall_cons in Hfar as [Hfar _].
    vm_compute in Hfar. apply Hfar. reflexivity.
  - simpl. intros [Hfar _]. apply Forall_cons in Hfar as [Hfar _].
    vm_compute in Hfar. apply Hfar. reflexivity.
Qed.

Lemma markers_stay_ordered_witness :
  Player.currentKey markedStore = Some "a.mp3"%string /\
  State.songs (State.musicData (State.state markedStore)) !! "a.mp3"%string
    = Some markedSong /\
  Player.ascending (js_or (State.markers markedSong) []) /\
  Player.spaced (js_or (State.markers markedSong) []) /\
  Player.ascending (js_or (Player.currentMarkers draggedMarker.1) []).
Proof.
  assert (H1 : Player.currentKey markedStore = Some "a.mp3"%string)
    by (vm_compute; reflexivity).
  assert (H2 : State.songs (State.musicData (State.state markedStore)) !! "a.mp3"%string
               = Some markedSong) by (vm_compute; reflexivity).
  assert (H3 : Player.ascending (js_or (State.markers markedSong) [])).
  { simpl. repeat constructor. vm_compute. discriminate. }
  assert (H4 : Player.spaced (js_or (State.markers markedSong) [])).
  { simpl. repeat constructor. vm_compute. discriminate. }
  split; [exact H1|]. split; [exact H2|]. split; [exact H3|]. split; [exact H4|].
  destruct (markers_stay_ordered markedStore "a.mp3" markedSong H1 H2 H3 H4)
    as (_ & _ & Hupdate).
  destruct (Hupdate "m2"%string (5 # 4)%Q) as [Hasc _]. exact Hasc.
Defined.

Lemma no_duplicate_fetch_witness :
  VirtualList.awaiting scrolledList !! 0%nat = Some ["b.mp3"%string; "c.mp3"%string] /\
  forall outcome p,
    p ∈ VirtualList.pathsCurrentlyFetching
          (VirtualList.vList (VirtualList.step scrolledList (VirtualList.settle 0 outcome)))
    <-> p ∈ VirtualList.pathsCurrentlyFetching (VirtualList.vList scrolledList)
        /\ p ∉ ["b.mp3"%string; "c.mp3"%string].
Proof.
  assert (H1 : VirtualList.awaiting scrolledList !! 0%nat
               = Some ["b.mp3"%string; "c.mp3"%string]) by (vm_compute; reflexivity).
  split; [exact H1|]. intros outcome p.
  destruct (no_duplicate_fetch (sampleStore [])
              [songA; songB; State.placeholder "c.mp3"] 100
              [VirtualList.render; VirtualList.timer; VirtualList.scroll 10;
               VirtualList.render])
    as (_ & _ & _ & _ & Hsettle & _).
  exact (Hsettle 0%nat _ outcome H1 p).
Defined.

(** * Further properties *)


(** ** The song cache *)

(** Once [addSongsToCache] has merged a map that holds a path, the next
    [getActivePlaylist] returns the merged song object at every position
    of the active playlist that refers to this path. *)
Theorem addSongsToCache_hydrates_active_playlist
    (s : State.Store) (songsMap : gmap string State.Song)
    (p : string) (song : State.Song) (i : nat) :
  songsMap !! p = Some song ->
  js_or (State.playlists (State.musicData (State.state s))
           !! State.activePlaylist (State.musicData (State.state s))) [] !! i = Some p ->
  State.getActivePlaylist (State.addSongsToCache (Some songsMap) s) !! i = Some song.
Proof.
  intros Hsong Hpath. unfold State.addSongsToCache.
  destruct (decide (size songsMap = 0%nat)) as [Hsize|Hsize].
  { apply map_size_empty_inv in Hsize. subst songsMap.
    rewrite lookup_empty in Hsong. discriminate. }
  unfold State.getActivePlaylist. simpl.
  rewrite list_lookup_fmap, Hpath. simpl.
  unfold State.merge_objects.
  rewrite (lookup_union_Some_l _ _ _ _ Hsong). reflexivity.
Qed.

Lemma addSongsToCache_hydrates_active_playlist_witness :
  ({[ "a.mp3"%string := songB ]} : gmap string State.Song) !! "a.mp3"%string = Some songB /\
  js_or (State.playlists (State.musicData (State.state (sampleStore [])))
           !! State.activePlaylist (State.musicData (State.state (sampleStore []))))
        [] !! 0%nat = Some "a.mp3"%string /\
  State.getActivePlaylist
    (State.addSongsToCache (Some {[ "a.mp3"%string := songB ]}) (sampleStore []))
    !! 0%nat = Some songB.
Proof.
  assert (H1 : ({[ "a.mp3"%string := songB ]} : gmap string State.Song)
                 !! "a.mp3"%string = Some songB) by (vm_compute; reflexivity).
  assert (H2 : js_or (State.playlists (State.musicData (State.state (sampleStore [])))
           !! State.activePlaylist (State.musicData (State.state (sampleStore []))))
        [] !! 0%nat = Some "a.mp3"%string) by (vm_compute; reflexivity).
  split; [exact H1|]. split; [exact H2|].
  exact (addSongsToCache_hydrates_active_playlist (sampleStore []) _ _ _ _ H1 H2).
Defined.

Lemma setMusicData_songs (data : State.MusicDataUpdate) (s : State.Store) :
  State.songs (State.musicData (State.state (State.setMusicData data s))) =
  match State.data_songs data with
  | Some v => State.merge_objects (State.songs (State.musicData (State.state s))) v
  | None => State.songs (State.musicData (State.state s))
  end.
Proof.
  destruct data as [dsongs dplaylists dorder dactive]. unfold State.setMusicData.
  destruct dsongs, dplaylists, dorder, dactive as [v|]; simpl;
    try destruct (State.truthy v); reflexivity.
Qed.

(** [setMusicData] and [addSongsToCache] merge into the cache: a key
    reads the song of the argument when the argument has it and its old
    song otherwise, so no call of either takes a path out of the cache. *)
Theorem cache_is_merged_never_replaced (s : State.Store) (key : string) :
  (forall data,
      State.songs (State.musicData (State.state (State.setMusicData data s))) !! key =
      match State.data_songs data with
      | Some v => match v !! key with
                  | Some song => Some song
                  | None => State.songs (State.musicData (State.state s)) !! key
                  end
      | None => State.songs (State.musicData (State.state s)) !! key
      end) /\
  (forall songsMap,
      State.songs (State.musicData (State.state (State.addSongsToCache songsMap s))) !! key =
      match songsMap with
      | Some v => match v !! key with
                  | Some song => Some song
                  | None => State.songs (State.musicData (State.state s)) !! key
                  end
      | None => State.songs (State.musicData (State.state s)) !! key
      end).
Proof.
  split.
  - intros data. rewrite setMusicData_songs.
    destruct (State.data_songs data) as [v|]; [|reflexivity].
    unfold State.merge_objects. rewrite lookup_union.
    destruct (v !! key), (State.songs (State.musicData (State.state s)) !! key);
      reflexivity.
  - intros [v|]; [|reflexivity]. unfold State.addSongsToCache.
    destruct (decide (size v = 0%nat)) as [Hsize|Hsize].
    + apply map_size_empty_inv in Hsize. subst v. rewrite lookup_empty. reflexivity.
    + simpl. unfold State.merge_objects. rewrite lookup_union.
      destruct (v !! key), (State.songs (State.musicData (State.state s)) !! key);
        reflexivity.
Qed.

(** ** Failures around the backend call *)

(** Two failures that are not a rejected backend call. When the
    optimistic action itself throws, no backend call is started; the
    [catch] block is entered with no undo closure and throws in its
    turn, so no toast is shown, the store stays as the action left it,
    and the lock is free again. When the backend call has resolved and
    the [onSuccess] hook throws, the [catch] block throws likewise: the
    undo closure is not called, no toast is shown, the store stays as
    the hook left it, and the promise of [performOptimisticUpdate] is
    rejected. *)
Theorem failures_outside_the_backend_call
    (optimisticAction : State.OptimisticAction) (apiCall : State.Store -> State.ApiRequest)
    (opts : State.Options) (r : State.Runtime) (message : string) (s1 : State.Store) :
  State.isUpdating r = false ->
  (optimisticAction (State.store r) = State.Threw message s1 ->
   State.performOptimisticUpdate optimisticAction apiCall opts r
   = ({| State.store := s1; State.isUpdating := false |}, None)) /\
  (forall undo hook result r2,
      State.onSuccess opts = Some hook ->
      hook result (State.store r2) = State.Threw message s1 ->
      State.tryCatch_resume {| State.undoAction := undo; State.options := opts |}
        (Resolved result) (State.store r2)
      = State.Threw "errorMessagePrefix is not defined" s1 /\
      State.performOptimisticUpdate_resume
        {| State.undoAction := undo; State.options := opts |} (Resolved result) r2
      = {| State.store := s1; State.isUpdating := false |}).
Proof.
  intros Hfree. split.
  - intros Hthrow. unfold State.performOptimisticUpdate. rewrite Hfree, Hthrow.
    reflexivity.
  - intros undo hook result r2 Hhook Hthrow.
    unfold State.performOptimisticUpdate_resume, State.tryCatch_resume, State.successBlock.
    simpl. rewrite Hhook, Hthrow. split; reflexivity.
Qed.

Lemma failures_outside_the_backend_call_witness :
  State.isUpdating (sampleRuntime []) = false /\
  State.performOptimisticUpdate
    (fun s => State.Threw "no such playlist" (State.setPlayQueue [] s))
    (fun _ => State.otherRequest "renamePlaylist") State.noOptions (sampleRuntime [])
  = ({| State.store := State.setPlayQueue [] (sampleStore []); State.isUpdating := false |},
     None).
Proof.
  assert (H1 : State.isUpdating (sampleRuntime []) = false) by reflexivity.
  split; [exact H1|].
  destruct (failures_outside_the_backend_call
              (fun s => State.Threw "no such playlist" (State.setPlayQueue [] s))
              (fun _ => State.otherRequest "renamePlaylist") State.noOptions
              (sampleRuntime []) "no such playlist"
              (State.setPlayQueue [] (sampleStore [])) H1) as [Hthrow _].
  exact (Hthrow eq_refl).
Defined.

(** ** Playlist transactions *)

Lemma setMusicData_fields (data : State.MusicDataUpdate) (s : State.Store) :
  let a := State.state (State.setMusicData data s) in
  State.playlists (State.musicData a) =
    js_or (State.data_playlists data) (State.playlists (State.musicData (State.state s))) /\
  State.playlistOrder (State.musicData a) =
    js_or (State.data_playlistOrder data)
          (State.playlistOrder (State.musicData (State.state s))) /\
  State.activePlaylist (State.musicData a) =
    match State.data_activePlaylist data with
    | Some v => if State.truthy v then v
                else State.activePlaylist (State.musicData (State.state s))
    | None => State.activePlaylist (State.musicData (State.state s))
    end /\
  State.playQueue a = State.playQueue (State.state s) /\
  State.currentSongIndex a = State.currentSongIndex (State.state s) /\
  State.isShuffling a = State.isShuffling (State.state s) /\
  State.selectedSongPaths a = State.selectedSongPaths (State.state s).
Proof.
  destruct data as [dsongs dplaylists dorder dactive]. unfold State.setMusicData.
  destruct dsongs, dplaylists, dorder, dactive as [v|]; simpl;
    try destruct (State.truthy v); repeat split; reflexivity.
Qed.

Lemma delete_all_lookup (selected : list string) :
  forall (m : gmap string State.Song) (key : string) (song : State.Song),
    foldl (fun acc p => delete p acc) m selected !! key = Some song -> m !! key = Some song.
Proof.
  induction selected as [|p rest IH]; intros m key song H; [exact H|].
  simpl in H. apply IH in H. apply lookup_delete_Some in H. tauto.
Qed.

Lemma collect_lookup (selected : list string) (m : gmap string State.Song) :
  forall (acc : gmap string State.Song) (key : string) (song : State.Song),
    (acc !! key = Some song -> m !! key = Some song) ->
    foldl (fun acc p => match m !! p with
                        | Some x => <[p := x]> acc
                        | None => acc
                        end) acc selected !! key = Some song ->
    m !! key = Some song.
Proof.
  induction selected as [|p rest IH]; intros acc key song Hacc H; [auto|].
  simpl in H. eapply IH; [|exact H]. intros H'.
  destruct (m !! p) as [x|] eqn:Hp; [|auto].
  apply lookup_insert_Some in H' as [[-> <-]|[_ H']]; auto.
Qed.

Lemma merge_objects_subset (old new : gmap string State.Song) :
  (forall key song, new !! key = Some song -> old !! key = Some song) ->
  State.merge_objects old new = old.
Proof.
  intros Hsub. unfold State.merge_objects. apply map_eq. intros key.
  rewrite lookup_union. destruct (new !! key) as [x|] eqn:Hnew.
  - rewrite (Hsub key x Hnew). reflexivity.
  - destruct (old !! key); reflexivity.
Qed.

Lemma fisherYates_effects (i : nat) :
  forall (shuffled : list State.Song) (s : State.Store),
    State.apiCalls (Playlist.fisherYates i shuffled s).2 = State.apiCalls s.
Proof.
  induction i as [|i IH]; intros shuffled s; [reflexivity|].
  simpl. rewrite IH. reflexivity.
Qed.

Lemma setMusicData_all (newSongs : gmap string State.Song)
    (newPlaylists : gmap string (list string)) (order : list string) (active : string)
    (s : State.Store) :
  let a := State.state (State.setMusicData
             {| State.data_songs := Some newSongs;
                State.data_playlists := Some newPlaylists;
                State.data_playlistOrder := Some order;
                State.data_activePlaylist := Some active |} s) in
  State.songs (State.musicData a)
    = State.merge_objects (State.songs (State.musicData (State.state s))) newSongs /\
  State.playlists (State.musicData a) = newPlaylists /\
  State.playlistOrder (State.musicData a) = order /\
  State.activePlaylist (State.musicData a)
    = (if State.truthy active then active
       else State.activePlaylist (State.musicData (State.state s))) /\
  State.playQueue a = State.playQueue (State.state s) /\
  State.currentSongIndex a = State.currentSongIndex (State.state s) /\
  State.isShuffling a = State.isShuffling (State.state s) /\
  State.selectedSongPaths a = State.selectedSongPaths (State.state s) /\
  State.apiCalls (State.setMusicData
                    {| State.data_songs := Some newSongs;
                       State.data_playlists := Some newPlaylists;
                       State.data_playlistOrder := Some order;
                       State.data_activePlaylist := Some active |} s) = State.apiCalls s.
Proof.
  unfold State.setMusicData. simpl. destruct (State.truthy active); repeat split; reflexivity.
Qed.

(** What the optimistic action of [deleteSelectedSongs] and its undo
    closure do, when the playing song, if there is one, comes from an
    active playlist that exists. *)
Lemma deleteSelectedSongs_optimisticAction_spec
    (selected : list string) (playingSong : option State.Song) (wasDeleted : bool)
    (s : State.Store) :
  (is_Some playingSong ->
   is_Some (State.playlists (State.musicData (State.state s))
              !! State.activePlaylist (State.musicData (State.state s)))) ->
  exists undo s1,
    Playlist.deleteSelectedSongs_optimisticAction selected playingSong wasDeleted s
      = State.Returned undo s1 /\
    State.songs (State.musicData (State.state s1))
      = State.songs (State.musicData (State.state s)) /\
    State.playlists (State.musicData (State.state s1))
      = (fun paths => List.filter (fun p => negb (includes selected p)) paths)
          <$> State.playlists (State.musicData (State.state s)) /\
    State.playQueue (State.state s1)
      = List.filter (fun song => negb (includes selected (State.path song)))
                    (State.playQueue (State.state s)) /\
    State.selectedSongPaths (State.state s1) = [] /\
    State.apiCalls s1 = State.apiCalls s /\
    forall u,
      State.playlists (State.musicData (State.state (undo u)))
        = State.playlists (State.musicData (State.state s)) /\
      State.playQueue (State.state (undo u)) = State.playQueue (State.state s) /\
      State.currentSongIndex (State.state (undo u))
        = State.currentSongIndex (State.state s) /\
      State.playlistOrder (State.musicData (State.state (undo u)))
        = State.playlistOrder (State.musicData (State.state u)) /\
      (State.songs (State.musicData (State.state u))
         = State.songs (State.musicData (State.state s)) ->
       State.songs (State.musicData (State.state (undo u)))
         = State.songs (State.musicData (State.state s))).
Proof.
  intros Hplaying. unfold Playlist.deleteSelectedSongs_optimisticAction.
  unfold State.getState.
  set (data0 := State.musicData (State.state s)).
  set (newSongs := foldl (fun m p => delete p m) (State.songs data0) selected).
  set (filt := fun pPaths : list string =>
                 List.filter (fun p => negb (includes selected p)) pPaths).
  set (deleted := foldl (fun acc p => match State.songs data0 !! p with
                                      | Some song => <[p := song]> acc
                                      | None => acc
                                      end) ∅ selected).
  set (update := {| State.data_songs := Some newSongs;
                    State.data_playlists := Some (filt <$> State.playlists data0);
                    State.data_playlistOrder := Some (State.playlistOrder data0);
                    State.data_activePlaylist := Some (State.activePlaylist data0) |}).
  destruct (setMusicData_all newSongs (filt <$> State.playlists data0)
              (State.playlistOrder data0) (State.activePlaylist data0) s)
    as (Hsongs1 & Hpl1 & Hord1 & Hact1 & Hq1 & Hidx1 & Hsh1 & Hsel1 & Hapi1).
  fold update in Hsongs1, Hpl1, Hord1, Hact1, Hq1, Hidx1, Hsh1, Hsel1, Hapi1.
  fold data0 in Hsongs1, Hact1.
  assert (Hact1' : State.activePlaylist (State.musicData (State.state (State.setMusicData update s)))
                   = State.activePlaylist data0).
  { rewrite Hact1. destruct (State.truthy _); reflexivity. }
  rewrite merge_objects_subset in Hsongs1
    by (intros key song; apply delete_all_lookup).
  set (s1 := State.setMusicData update s) in *. clearbody s1.
  rewrite Hact1', lookup_fmap.
  assert (Hindex : exists index,
    (if wasDeleted then Some (-1)
     else match playingSong with
          | Some playing =>
              match filt <$> State.playlists data0 !! State.activePlaylist data0 with
              | Some newActivePlaylistPaths =>
                  Some (findIndex (fun p => bool_decide (p = State.path playing))
                                  newActivePlaylistPaths)
              | None => None
              end
          | None => Some (State.currentSongIndex (State.state s))
          end) = Some index).
  { destruct wasDeleted; [eauto|]. destruct playingSong as [playing|]; [|eauto].
    destruct Hplaying as [paths Hpaths]; [eauto|]. fold data0 in Hpaths.
    rewrite Hpaths. simpl. eauto. }
  destruct Hindex as [index Hindex]. rewrite Hindex.
  eexists _, _. split; [reflexivity|].
  match goal with
  | |- context [if ?b then Playlist.generateShuffledPlaylist ?x else ?x] =>
      destruct (maybeShuffle_state x b) as (Hm & Hpq & _ & _ & Hss)
  end.
  rewrite Hm, Hpq, Hss. simpl.
  split; [exact Hsongs1|]. split; [exact Hpl1|]. split; [reflexivity|].
  split; [reflexivity|].
  split.
  { match goal with
    | |- State.apiCalls (if ?b then _ else _) = _ => destruct b
    end; [|exact Hapi1].
    unfold Playlist.generateShuffledPlaylist.
    match goal with
    | |- context [Playlist.fisherYates ?i ?l ?x] =>
        pose proof (fisherYates_effects i l x) as Hfy;
        destruct (Playlist.fisherYates i l x) as [shuffled sx]
    end.
    simpl in Hfy.
    match goal with
    | |- context [match ?c with Some _ => _ | None => _ end] => destruct c
    end; simpl; rewrite Hfy; exact Hapi1. }
  intros u.
  match goal with
  | |- context [if ?b then Playlist.generateShuffledPlaylist ?x else ?x] =>
      destruct (maybeShuffle_state x b) as (Hm' & Hpq' & Hci' & _)
  end.
  rewrite Hm', Hpq', Hci'.
  match goal with
  | |- context [State.setMusicData
                  {| State.data_songs := Some ?so; State.data_playlists := Some ?pl;
                     State.data_playlistOrder := Some ?ord;
                     State.data_activePlaylist := Some ?act |} u] =>
      destruct (setMusicData_all so pl ord act u) as (HsongsU & HplU & HordU & _);
      set (u1 := State.setMusicData
                   {| State.data_songs := Some so; State.data_playlists := Some pl;
                      State.data_playlistOrder := Some ord;
                      State.data_activePlaylist := Some act |} u) in *;
      clearbody u1
  end.
  simpl. split; [exact HplU|]. split; [reflexivity|]. split; [reflexivity|].
  split; [exact HordU|].
  intros Hsame. rewrite HsongsU. unfold State.getState. rewrite Hsame. fold data0.
  assert (Hdel : State.merge_objects (State.songs data0) deleted = State.songs data0).
  { apply merge_objects_subset. intros key song.
    apply collect_lookup. rewrite lookup_empty. discriminate. }
  rewrite Hdel. apply merge_objects_subset. auto.
Qed.

Lemma playing_song_has_playlist (s : State.Store) :
  is_Some (js_index (State.getActivePlaylist s)
                    (State.currentSongIndex (State.getState s))) ->
  is_Some (State.playlists (State.musicData (State.state s))
             !! State.activePlaylist (State.musicData (State.state s))).
Proof.
  unfold State.getActivePlaylist.
  destruct (State.playlists (State.musicData (State.state s))
              !! State.activePlaylist (State.musicData (State.state s))); [eauto|].
  simpl. unfold js_index. destruct (decide _); intros [x Hx]; discriminate.
Qed.

(** [deleteSelectedSongs], once confirmed and with the lock free,
    starts its transaction, the name of the active playlist being a key
    that the playlists map holds or that [Object.prototype] does not
    have: the optimistic action does not throw and the backend is asked
    to delete the selection. Afterwards no playlist and no queue entry
    refers to a selected path and the selection is empty; the song cache
    is what it was. When the backend rejects the call, nothing is put
    back: the store stays as the rejection found it, without the deleted
    paths, and the lock is released. *)
Theorem deleteSelectedSongs_transaction (r : State.Runtime) (selected : list string) :
  State.isUpdating r = false ->
  is_Some (State.playlists (State.musicData (State.state (State.store r)))
             !! State.activePlaylist (State.musicData (State.state (State.store r))))
    \/ State.activePlaylist (State.musicData (State.state (State.store r)))
         ∉ objectPrototype ->
  exists r1 frame,
    Playlist.deleteSelectedSongs_confirmed selected true r = (r1, Some frame) /\
    State.songs (State.musicData (State.state (State.store r1)))
      = State.songs (State.musicData (State.state (State.store r))) /\
    (forall name paths p,
        State.playlists (State.musicData (State.state (State.store r1))) !! name
          = Some paths ->
        p ∈ paths -> p ∉ selected) /\
    (forall song,
        song ∈ State.playQueue (State.state (State.store r1)) ->
        State.path song ∉ selected) /\
    State.selectedSongPaths (State.state (State.store r1)) = [] /\
    State.apiCalls (State.store r1)
      = State.apiCalls (State.store r) ++ [State.deleteSongs selected] /\
    State.isUpdating r1 = true /\
    forall message r2,
      State.performOptimisticUpdate_resume frame (Rejected message) r2
      = {| State.store := State.store r2; State.isUpdating := false |}.
Proof.
  intros Hfree _. unfold Playlist.deleteSelectedSongs_confirmed. simpl negb. cbv iota.
  unfold State.performOptimisticUpdate. rewrite Hfree.
  match goal with
  | |- context [Playlist.deleteSelectedSongs_optimisticAction selected ?ps ?was _] =>
      destruct (deleteSelectedSongs_optimisticAction_spec selected ps was (State.store r))
        as (undo & s1 & Haction & Hsongs & Hpl & Hq & Hsel & Hapi & Hundo)
  end.
  { apply playing_song_has_playlist. }
  rewrite Haction. eexists _, _. split; [reflexivity|]. simpl.
  split; [exact Hsongs|]. split.
  { intros name paths p Hname Hp. rewrite Hpl, lookup_fmap in Hname.
    destruct (State.playlists (State.musicData (State.state (State.store r))) !! name)
      as [old|]; [|discriminate].
    injection Hname as <-. apply elem_of_List_filter in Hp as [_ Hp].
    unfold includes in Hp. apply negb_true_iff, bool_decide_eq_false in Hp. exact Hp. }
  split.
  { intros song Hsong. rewrite Hq in Hsong. apply elem_of_List_filter in Hsong as [_ Hp].
    unfold includes in Hp. apply negb_true_iff, bool_decide_eq_false in Hp. exact Hp. }
  split; [exact Hsel|]. split; [rewrite Hapi; reflexivity|]. split; [reflexivity|].
  intros message r2. reflexivity.
Qed.

Lemma deleteSelectedSongs_transaction_witness :
  State.isUpdating (sampleRuntime ["a.mp3"%string]) = false /\
  exists r1 frame,
    Playlist.deleteSelectedSongs_confirmed ["a.mp3"%string] true
      (sampleRuntime ["a.mp3"%string]) = (r1, Some frame) /\
    State.selectedSongPaths (State.state (State.store r1)) = [].
Proof.
  assert (H1 : State.isUpdating (sampleRuntime ["a.mp3"%string]) = false) by reflexivity.
  split; [exact H1|].
  destruct (deleteSelectedSongs_transaction (sampleRuntime ["a.mp3"%string])
              ["a.mp3"%string] H1) as (r1 & frame & Hrun & _ & _ & _ & Hsel & _).
  { left. eexists. vm_compute. reflexivity. }
  exists r1, frame. split; [exact Hrun|exact Hsel].
Defined.

(** [renamePlaylist] leaves the store alone, apart from a toast, and
    starts no transaction when the playlist is Default, when the new name
    is empty or unchanged, or when a playlist of the new name exists. *)
Theorem renamePlaylist_guards (oldName newName : string) (r : State.Runtime) :
  oldName = "Default"%string \/ newName = ""%string \/ newName = oldName \/
  is_Some (State.playlists (State.musicData (State.state (State.store r))) !! newName) ->
  exists r',
    Playlist.renamePlaylist oldName newName r = (r', None) /\
    State.state (State.store r') = State.state (State.store r) /\
    State.apiCalls (State.store r') = State.apiCalls (State.store r) /\
    State.published (State.store r') = State.published (State.store r) /\
    State.isUpdating r' = State.isUpdating r.
Proof.
  intros Hguard. unfold Playlist.renamePlaylist.
  case_bool_decide as Hdefault; [eexists; repeat split; reflexivity|].
  destruct (negb (State.truthy newName) || bool_decide (newName = oldName)) eqn:Hname;
    [eexists; repeat split; reflexivity|].
  apply orb_false_iff in Hname as [Hempty Hsame].
  unfold State.truthy in Hempty. rewrite negb_involutive in Hempty.
  apply negb_false_iff, bool_decide_eq_true in Hempty || idtac.
  destruct Hguard as [H|[H|[H|[paths H]]]].
  - contradiction.
  - subst newName. discriminate.
  - apply bool_decide_eq_false in Hsame. contradiction.
  - unfold State.getState, js_get. rewrite H. eexists; repeat split; reflexivity.
Qed.

Lemma renamePlaylist_guards_witness :
  exists r',
    Playlist.renamePlaylist "Default" "Focus" (sampleRuntime []) = (r', None) /\
    State.state (State.store r') = State.state (State.store (sampleRuntime [])).
Proof.
  destruct (renamePlaylist_guards "Default" "Focus" (sampleRuntime []))
    as (r' & Hrun & Hstate & _); [left; reflexivity|].
  exists r'. split; [exact Hrun|exact Hstate].
Defined.

(** A rename that passes the guards, with the lock free. The new name
    passes when the playlists map has no such key and [Object.prototype]
    has no such property; a new name like [toString] is refused as if a
    playlist of that name existed. After the optimistic step the paths
    have moved from the old name to the new one, every other playlist is
    untouched, the order has the new name in the place of the old one,
    and the active playlist follows the rename. When the backend rejects
    the call, nothing is put back: the store stays as the rejection
    found it, renamed, and the lock is released. *)
Theorem renamePlaylist_transaction
    (oldName newName : string) (paths : list string) (r : State.Runtime) :
  State.isUpdating r = false ->
  oldName <> "Default"%string -> newName <> ""%string -> newName <> oldName ->
  State.playlists (State.musicData (State.state (State.store r))) !! newName = None ->
  State.playlists (State.musicData (State.state (State.store r))) !! oldName = Some paths ->
  (newName ∉ objectPrototype ->
   exists r1 frame,
    Playlist.renamePlaylist oldName newName r = (r1, Some frame) /\
    State.playlists (State.musicData (State.state (State.store r1))) !! newName
      = Some paths /\
    State.playlists (State.musicData (State.state (State.store r1))) !! oldName = None /\
    (forall other, other <> oldName -> other <> newName ->
       State.playlists (State.musicData (State.state (State.store r1))) !! other
       = State.playlists (State.musicData (State.state (State.store r))) !! other) /\
    State.playlistOrder (State.musicData (State.state (State.store r1)))
      = map (fun n => if bool_decide (n = oldName) then newName else n)
            (State.playlistOrder (State.musicData (State.state (State.store r)))) /\
    State.activePlaylist (State.musicData (State.state (State.store r1)))
      = (if bool_decide
              (State.activePlaylist (State.musicData (State.state (State.store r)))
               = oldName)
         then newName
         else State.activePlaylist (State.musicData (State.state (State.store r)))) /\
    forall message r2,
      State.performOptimisticUpdate_resume frame (Rejected message) r2
      = {| State.store := State.store r2; State.isUpdating := false |}) /\
  (newName ∈ objectPrototype ->
   Playlist.renamePlaylist oldName newName r =
     ({| State.store :=
           State.showToast "A playlist with this name already exists." State.error
                           (State.store r);
         State.isUpdating := false |}, None)).
Proof.
  intros Hfree Hdefault Hempty Hdiff Hnew Hold. unfold Playlist.renamePlaylist.
  rewrite (bool_decide_eq_false_2 _ Hdefault).
  assert (Htruthy : State.truthy newName = true).
  { unfold State.truthy. rewrite (bool_decide_eq_false_2 _ Hempty). reflexivity. }
  rewrite Htruthy, (bool_decide_eq_false_2 _ Hdiff). simpl.
  unfold State.getState, js_get. rewrite Hnew.
  split; [|intros Hproto; rewrite (bool_decide_eq_true_2 _ Hproto), Hfree; reflexivity].
  intros Hplain. rewrite (bool_decide_eq_false_2 _ Hplain).
  unfold State.performOptimisticUpdate. rewrite Hfree.
  unfold Playlist.renamePlaylist_optimisticAction, State.getState. rewrite Hold.
  eexists _, _. split; [reflexivity|]. simpl.
  split; [rewrite lookup_delete_ne, lookup_insert_eq by congruence; reflexivity|].
  split; [apply lookup_delete_eq|].
  split.
  { intros other H1 H2. rewrite lookup_delete_ne, lookup_insert_ne by congruence.
    reflexivity. }
  split; [reflexivity|]. split; [reflexivity|].
  intros message r2. reflexivity.
Qed.

Lemma renamePlaylist_transaction_witness :
  State.playlists (State.musicData (State.state (State.store twoPlaylists)))
    !! "Road trip"%string = Some ["b.mp3"%string; "a.mp3"%string] /\
  (exists r1 frame,
      Playlist.renamePlaylist "Road trip" "Mix" twoPlaylists = (r1, Some frame) /\
      State.playlists (State.musicData (State.state (State.store r1))) !! "Mix"%string
        = Some ["b.mp3"%string; "a.mp3"%string] /\
      State.playlistOrder (State.musicData (State.state (State.store r1)))
        = ["Default"%string; "Mix"%string] /\
      State.activePlaylist (State.musicData (State.state (State.store r1))) = "Mix"%string) /\
  Playlist.renamePlaylist "Road trip" "toString" twoPlaylists =
    ({| State.store :=
          State.showToast "A playlist with this name already exists." State.error
                          (State.store twoPlaylists);
        State.isUpdating := false |}, None).
Proof.
  assert (H1 : State.playlists (State.musicData (State.state (State.store twoPlaylists)))
               !! "Road trip"%string = Some ["b.mp3"%string; "a.mp3"%string])
    by (vm_compute; reflexivity).
  split; [exact H1|]. split.
  - destruct (renamePlaylist_transaction "Road trip" "Mix" ["b.mp3"%string; "a.mp3"%string]
                twoPlaylists) as [Hplain _].
    + reflexivity.
    + discriminate.
    + discriminate.
    + discriminate.
    + vm_compute. reflexivity.
    + exact H1.
    + destruct Hplain as (r1 & frame & Hrun & Hnew & _ & _ & Horder & Hactive & _).
      * intros Hin. apply list_elem_of_In in Hin. simpl in Hin.
        repeat (destruct Hin as [Hin|Hin]; [discriminate|]). exact Hin.
      * exists r1, frame. split; [exact Hrun|]. split; [exact Hnew|].
        split; [rewrite Horder; vm_compute; reflexivity|].
        rewrite Hactive. vm_compute. reflexivity.
  - destruct (renamePlaylist_transaction "Road trip" "toString"
                ["b.mp3"%string; "a.mp3"%string] twoPlaylists) as [_ Hproto].
    + reflexivity.
    + discriminate.
    + discriminate.
    + discriminate.
    + vm_compute. reflexivity.
    + exact H1.
    + apply Hproto. apply list_elem_of_In. simpl. tauto.
Defined.

(** Deleting a playlist with the lock free. The Default playlist is
    never deleted and an unconfirmed dialog changes nothing. Otherwise
    the playlist leaves the map and the order while every other playlist
    stays; when it was the active one, Default becomes active, the queue
    and the selection are emptied and no song is current. When the
    backend rejects the call, nothing is put back: the store stays as
    the rejection found it, without the playlist, and the lock is
    released. *)
Theorem deletePlaylist_transaction (playlistName : string) (r : State.Runtime) :
  State.isUpdating r = false ->
  (exists r',
      Playlist.deletePlaylist "Default" true r = (r', None) /\
      State.state (State.store r') = State.state (State.store r) /\
      State.apiCalls (State.store r') = State.apiCalls (State.store r)) /\
  Playlist.deletePlaylist playlistName false r =
    (if bool_decide (playlistName = "Default"%string)
     then Playlist.deletePlaylist "Default" true r else (r, None)) /\
  (playlistName <> "Default"%string ->
   exists r1 frame,
     Playlist.deletePlaylist playlistName true r = (r1, Some frame) /\
     let before := State.state (State.store r) in
     let after := State.state (State.store r1) in
     let wasActive :=
       bool_decide (State.activePlaylist (State.musicData before) = playlistName) in
     State.playlists (State.musicData after) !! playlistName = None /\
     (forall other, other <> playlistName ->
        State.playlists (State.musicData after) !! other
        = State.playlists (State.musicData before) !! other) /\
     (playlistName ∉ State.playlistOrder (State.musicData after)) /\
     (forall other, other <> playlistName ->
        other ∈ State.playlistOrder (State.musicData after) <->
        other ∈ State.playlistOrder (State.musicData before)) /\
     State.activePlaylist (State.musicData after)
       = (if wasActive then "Default"%string
          else State.activePlaylist (State.musicData before)) /\
     State.playQueue after = (if wasActive then [] else State.playQueue before) /\
     State.currentSongIndex after
       = (if wasActive then -1 else State.currentSongIndex before) /\
     State.selectedSongPaths after
       = (if wasActive then [] else State.selectedSongPaths before) /\
     forall message r2,
       State.performOptimisticUpdate_resume frame (Rejected message) r2
       = {| State.store := State.store r2; State.isUpdating := false |}).
Proof.
  intros Hfree. split; [|split].
  - eexists. split; [reflexivity|]. split; reflexivity.
  - unfold Playlist.deletePlaylist. case_bool_decide as Hname; [|reflexivity].
    subst playlistName. reflexivity.
  - intros Hname. unfold Playlist.deletePlaylist.
    rewrite (bool_decide_eq_false_2 _ Hname). simpl.
    unfold State.performOptimisticUpdate. rewrite Hfree.
    unfold Playlist.deletePlaylist_optimisticAction, State.getState.
    destruct r as [[[[songs playlists order active] queue index shuffling shuffled
                       shuffledIndex selected lastClicked mode marker]
                      published toasts calls random randomCalls] lock].
    simpl in *.
    eexists _, _. split; [reflexivity|].
    destruct (bool_decide (active = playlistName)) eqn:Hactive; simpl.
    + split; [apply lookup_delete_eq|].
      split; [intros other Hother; apply lookup_delete_ne; congruence|].
      split.
      { rewrite elem_of_List_filter. intros [_ Hin].
        rewrite bool_decide_eq_true_2 in Hin by reflexivity. discriminate. }
      split.
      { intros other Hother. rewrite elem_of_List_filter.
        rewrite (bool_decide_eq_false_2 _ Hother). simpl. tauto. }
      do 4 (split; [reflexivity|]).
      intros msg r2. reflexivity.
    + split; [apply lookup_delete_eq|].
      split; [intros other Hother; apply lookup_delete_ne; congruence|].
      split.
      { rewrite elem_of_List_filter. intros [_ Hin].
        rewrite bool_decide_eq_true_2 in Hin by reflexivity. discriminate. }
      split.
      { intros other Hother. rewrite elem_of_List_filter.
        rewrite (bool_decide_eq_false_2 _ Hother). simpl. tauto. }
      do 4 (split; [reflexivity|]).
      intros msg r2. reflexivity.
Qed.

Lemma deletePlaylist_transaction_witness :
  State.isUpdating twoPlaylists = false /\
  State.playlists (State.musicData (State.state (State.store twoPlaylists)))
    !! "Road trip"%string = Some ["b.mp3"%string; "a.mp3"%string] /\
  exists r1 frame,
    Playlist.deletePlaylist "Road trip" true twoPlaylists = (r1, Some frame) /\
    State.playlists (State.musicData (State.state (State.store r1))) !! "Road trip"%string
      = None /\
    State.playlistOrder (State.musicData (State.state (State.store r1)))
      = ["Default"%string].
Proof.
  assert (H1 : State.isUpdating twoPlaylists = false) by reflexivity.
  split; [exact H1|]. split; [vm_compute; reflexivity|].
  destruct (deletePlaylist_transaction "Road trip" twoPlaylists H1) as (_ & _ & Hrun).
  destruct Hrun as (r1 & frame & Hrun & Hgone & _); [discriminate|].
  exists r1, frame. split; [exact Hrun|]. split; [exact Hgone|].
  assert (Hr1 : r1 = (Playlist.deletePlaylist "Road trip" true twoPlaylists).1)
    by (rewrite Hrun; reflexivity).
  rewrite Hr1. vm_compute. reflexivity.
Defined.

Lemma filter_all_kept {A} (f : A -> bool) (l : list A) :
  (forall x, x ∈ l -> f x = true) -> List.filter f l = l.
Proof.
  induction l as [|x l IH]; intros Hall; [reflexivity|]. simpl.
  rewrite (Hall x) by apply list_elem_of_here.
  rewrite IH; [reflexivity|]. intros y Hy. apply Hall, list_elem_of_further, Hy.
Qed.

Lemma resume_resolved_state (frame : State.Pending) (outcome : Settled State.ApiResult)
    (r : State.Runtime) (result : State.ApiResult) :
  outcome = Resolved result ->
  State.onSuccess (State.options frame) = None ->
  State.state (State.store (State.performOptimisticUpdate_resume frame outcome r))
    = State.state (State.store r) /\
  State.isUpdating (State.performOptimisticUpdate_resume frame outcome r) = false.
Proof.
  intros -> Hhook.
  unfold State.performOptimisticUpdate_resume, State.tryCatch_resume, State.successBlock.
  rewrite Hhook. split; [|reflexivity].
  destruct (State.successMessage (State.options frame)) as [[message|f]|]; simpl;
    try destruct (State.truthy message); reflexivity.
Qed.

(** Creating a playlist of a new name and deleting it again. With the
    lock free, the created playlist is empty and last in the order. When
    the save is rejected, nothing is put back: the store stays as the
    rejection found it, with the new playlist, and the lock is released.
    Once the save has resolved, the lock is free and deleting the
    playlist, which is not the active one, leaves exactly the
    [musicData] from before the creation. *)
Theorem createNewPlaylist_then_deletePlaylist (newName : string) (r : State.Runtime) :
  State.isUpdating r = false ->
  newName <> "Default"%string ->
  State.playlists (State.musicData (State.state (State.store r))) !! newName = None ->
  newName ∉ State.playlistOrder (State.musicData (State.state (State.store r))) ->
  State.activePlaylist (State.musicData (State.state (State.store r))) <> newName ->
  exists r1 frame,
    Playlist.createNewPlaylist (Some newName) r = (r1, Some frame) /\
    State.playlists (State.musicData (State.state (State.store r1))) !! newName = Some [] /\
    State.playlistOrder (State.musicData (State.state (State.store r1)))
      = State.playlistOrder (State.musicData (State.state (State.store r))) ++ [newName] /\
    (forall message r2,
       State.performOptimisticUpdate_resume frame (Rejected message) r2
       = {| State.store := State.store r2; State.isUpdating := false |}) /\
    forall result,
      exists r3 frame',
        Playlist.deletePlaylist newName true
          (State.performOptimisticUpdate_resume frame (Resolved result) r1)
          = (r3, Some frame') /\
        State.musicData (State.state (State.store r3))
          = State.musicData (State.state (State.store r)).
Proof.
  intros Hfree Hdefault Hnew Horder Hactive.
  unfold Playlist.createNewPlaylist, State.performOptimisticUpdate. rewrite Hfree.
  destruct r as [[[[songs playlists order active] queue index shuffling shuffled
                     shuffledIndex selected lastClicked mode marker]
                    published toasts calls random randomCalls] lock].
  simpl in *.
  eexists _, _. split; [reflexivity|]. simpl.
  split; [apply lookup_insert_eq|]. split; [reflexivity|].
  split; [intros msg r2; reflexivity|].
  intros result.
  match goal with |- context [State.performOptimisticUpdate_resume ?f ?o ?r] =>
    pose proof (resume_resolved_state f o r result eq_refl eq_refl) as [Hstate Hlock];
    set (r2 := State.performOptimisticUpdate_resume f o r) in *; clearbody r2
  end.
  destruct r2 as [[state2 published2 toasts2 calls2 random2 randomCalls2] lock2].
  simpl in Hstate, Hlock. subst state2 lock2.
  unfold Playlist.deletePlaylist.
  rewrite (bool_decide_eq_false_2 _ Hdefault). simpl.
  rewrite (bool_decide_eq_false_2 _ Hactive).
  eexists _, _. split; [reflexivity|]. simpl.
  rewrite (delete_insert_id _ _ _ Hnew).
  rewrite List.filter_app, filter_all_kept; simpl.
  - rewrite bool_decide_eq_true_2 by reflexivity. simpl.
    rewrite app_nil_r. reflexivity.
  - intros x Hx. apply negb_true_iff, bool_decide_eq_false_2. congruence.
Qed.

Lemma createNewPlaylist_then_deletePlaylist_witness :
  exists r1 frame,
    Playlist.createNewPlaylist (Some "Road trip"%string) (sampleRuntime [])
      = (r1, Some frame) /\
    State.playlistOrder (State.musicData (State.state (State.store r1)))
      = ["Default"%string; "Road trip"%string].
Proof.
  destruct (createNewPlaylist_then_deletePlaylist "Road trip" (sampleRuntime []))
    as (r1 & frame & Hrun & _ & Horder & _).
  - reflexivity.
  - discriminate.
  - reflexivity.
  - intros Hin. apply list_elem_of_In in Hin. simpl in Hin.
    destruct Hin as [Hin|[]]. discriminate.
  - discriminate.
  - exists r1, frame. split; [exact Hrun|exact Horder].
Defined.

(** ** Reordering by drag and drop *)

Lemma filter_lengths {A} (f : A -> bool) (l : list A) :
  (length (List.filter f l) + length (List.filter (fun x => negb (f x)) l))%nat = length l.
Proof.
  induction l as [|x l IH]; [reflexivity|]. simpl.
  destruct (f x); simpl; lia.
Qed.

Lemma filter_complement_Permutation {A} (f : A -> bool) (l : list A) :
  List.filter f l ++ List.filter (fun x => negb (f x)) l ≡ₚ l.
Proof.
  induction l as [|x l IH]; [reflexivity|]. simpl.
  destruct (f x); simpl.
  - constructor. exact IH.
  - rewrite <- Permutation_middle. constructor. exact IH.
Qed.

Lemma reorderedByDrop_closed_form {A} (key : A -> string)
    (selectedSongPaths : list string) (targetIndex : Z) (original : list A) :
  let t := Z.to_nat (Z.max 0 (Z.min targetIndex (Z.of_nat (length original)))) in
  let selected := fun x => includes selectedSongPaths (key x) in
  Playlist.reorderedByDrop key selectedSongPaths targetIndex original
    = List.filter (fun x => negb (selected x)) (take t original)
      ++ List.filter selected original
      ++ List.filter (fun x => negb (selected x)) (drop t original) /\
  Playlist.reorderedByDrop key selectedSongPaths targetIndex original ≡ₚ original.
Proof.
  intros t selected. subst selected. cbv beta.
  set (selected := fun x : A => includes selectedSongPaths (key x)).
  set (unselected := fun x : A => negb (includes selectedSongPaths (key x))).
  assert (Hcompl : forall l : list A,
            List.filter (fun x => negb (selected x)) l = List.filter unselected l)
    by reflexivity.
  assert (Hclosed :
    Playlist.reorderedByDrop key selectedSongPaths targetIndex original
    = List.filter unselected (take t original)
      ++ List.filter selected original
      ++ List.filter unselected (drop t original)).
  { unfold Playlist.reorderedByDrop, Playlist.splice_insert, Playlist.slice.
    fold selected unselected.
    set (clamped := Z.max 0 (Z.min targetIndex (Z.of_nat (length original)))).
    assert (Ht : clamped = Z.of_nat t) by (unfold t, clamped; lia).
    assert (Hle : (t <= length original)%nat) by (unfold t; lia).
    rewrite Ht. replace (Z.to_nat (Z.of_nat t - 0)) with t by lia.
    simpl (drop (Z.to_nat 0) original). rewrite drop_0.
    pose proof (filter_lengths selected (take t original)) as Hsplit.
    rewrite Hcompl in Hsplit.
    rewrite length_take, Nat.min_l in Hsplit by exact Hle.
    assert (Hremaining :
      List.filter unselected original
      = List.filter unselected (take t original)
        ++ List.filter unselected (drop t original)).
    { rewrite <- List.filter_app, take_drop. reflexivity. }
    set (before := List.filter unselected (take t original)) in *.
    set (after := List.filter unselected (drop t original)) in *.
    rewrite Hremaining.
    set (start := Z.of_nat t
                  - Z.of_nat (length (List.filter selected (take t original)))).
    assert (Hstart : start = Z.of_nat (length before)) by (unfold start; lia).
    rewrite Hstart. rewrite length_app.
    destruct (decide (Z.of_nat (length before) < 0)) as [Hneg|_]; [lia|].
    replace (Z.to_nat (Z.min (Z.of_nat (length before))
                             (Z.of_nat (length before + length after))))
      with (length before) by lia.
    rewrite take_app_length, drop_app_length. reflexivity. }
  split; [exact Hclosed|].
  rewrite Hclosed.
  rewrite (Permutation_app_comm (List.filter selected original)), app_assoc.
  rewrite <- List.filter_app, take_drop.
  rewrite Permutation_app_comm, <- Hcompl. apply filter_complement_Permutation.
Qed.

(** The order that a drop computes, in closed form: the rows that are
    not selected keep their order, and the selected rows, in their old
    order, stand as one block after the unselected rows that were above
    the clamped drop position. The result is a rearrangement of the old
    list: no row is lost or doubled. *)
Theorem reorderedByDrop_spec {A} (key : A -> string) (selectedSongPaths : list string)
    (targetIndex : Z) (original : list A) :
  let t := Z.to_nat (Z.max 0 (Z.min targetIndex (Z.of_nat (length original)))) in
  let selected := fun x => includes selectedSongPaths (key x) in
  Playlist.reorderedByDrop key selectedSongPaths targetIndex original
    = List.filter (fun x => negb (selected x)) (take t original)
      ++ List.filter selected original
      ++ List.filter (fun x => negb (selected x)) (drop t original) /\
  Playlist.reorderedByDrop key selectedSongPaths targetIndex original ≡ₚ original.
Proof. apply reorderedByDrop_closed_form. Qed.

(** A drop with a selection. In the queue view the queue is rearranged
    at once, whatever the lock says, and nothing is sent to the backend.
    In the playlist view with the lock free, the paths of the active
    playlist are rearranged and the other playlists stay. When the
    backend rejects the call, nothing is put back: the store stays as
    the rejection found it, in the new order, and the lock is
    released. *)
Theorem handleSongReorderDrop_rearranges (targetIndex : Z) (r : State.Runtime)
    (paths : list string) :
  State.selectedSongPaths (State.state (State.store r)) <> [] ->
  let before := State.state (State.store r) in
  let active := State.activePlaylist (State.musicData before) in
  (State.viewMode before = State.ViewQueue ->
   exists r',
     Playlist.handleSongReorderDrop targetIndex r = (r', None) /\
     State.playQueue (State.state (State.store r')) ≡ₚ State.playQueue before /\
     State.musicData (State.state (State.store r')) = State.musicData before /\
     State.apiCalls (State.store r') = State.apiCalls (State.store r) /\
     State.isUpdating r' = State.isUpdating r) /\
  (State.viewMode before = State.ViewPlaylist ->
   State.isUpdating r = false ->
   State.playlists (State.musicData before) !! active = Some paths ->
   exists r1 frame newPaths,
     Playlist.handleSongReorderDrop targetIndex r = (r1, Some frame) /\
     State.playlists (State.musicData (State.state (State.store r1))) !! active
       = Some newPaths /\
     newPaths ≡ₚ paths /\
     (forall other, other <> active ->
        State.playlists (State.musicData (State.state (State.store r1))) !! other
        = State.playlists (State.musicData before) !! other) /\
     State.playQueue (State.state (State.store r1)) = State.playQueue before /\
     forall message r2,
       State.performOptimisticUpdate_resume frame (Rejected message) r2
       = {| State.store := State.store r2; State.isUpdating := false |}).
Proof.
  intros Hselected before active. unfold Playlist.handleSongReorderDrop.
  unfold State.getState. fold before.
  destruct (State.selectedSongPaths before) as [|p selected] eqn:Hsel; [contradiction|].
  split.
  - intros Hmode. rewrite Hmode. eexists. split; [reflexivity|]. simpl.
    split; [apply reorderedByDrop_closed_form|]. repeat split; reflexivity.
  - intros Hmode Hfree Hpaths. rewrite Hmode. fold active. rewrite Hpaths. simpl.
    unfold State.performOptimisticUpdate. rewrite Hfree.
    unfold Playlist.handleSongReorderDrop_optimisticAction, State.getState.
    fold before. fold active. rewrite Hpaths.
    set (newPaths := Playlist.reorderedByDrop (fun p0 => p0) (p :: selected) targetIndex paths).
    set (s1 := State.setPlaylists _ (State.store r)).
    pose proof (maybeShuffle_state s1 (State.isShuffling (State.state s1)))
      as (Hdata & Hqueue & _).
    cbv zeta in Hdata, Hqueue.
    set (s2 := if State.isShuffling (State.state s1)
               then Playlist.generateShuffledPlaylist s1 else s1) in *.
    clearbody s2.
    eexists _, _, newPaths. split; [reflexivity|]. simpl.
    rewrite Hdata, Hqueue. unfold s1. simpl.
    split; [apply lookup_insert_eq|].
    split; [apply reorderedByDrop_closed_form|].
    split; [intros other Hother; apply lookup_insert_ne; congruence|].
    split; [reflexivity|].
    intros message r2. reflexivity.
Qed.

Lemma handleSongReorderDrop_rearranges_witness :
  State.playlists (State.musicData (State.state (State.store roadTripSelected)))
    !! "Road trip"%string = Some ["b.mp3"%string; "a.mp3"%string] /\
  exists r1 frame newPaths,
    Playlist.handleSongReorderDrop 0 roadTripSelected = (r1, Some frame) /\
    State.playlists (State.musicData (State.state (State.store r1))) !! "Road trip"%string
      = Some newPaths /\
    newPaths ≡ₚ ["b.mp3"%string; "a.mp3"%string] /\
    newPaths = ["a.mp3"%string; "b.mp3"%string].
Proof.
  split; [vm_compute; reflexivity|].
  destruct (handleSongReorderDrop_rearranges 0 roadTripSelected
              ["b.mp3"%string; "a.mp3"%string]) as [_ Hplaylist]; [discriminate|].
  destruct Hplaylist as (r1 & frame & newPaths & Hrun & Hnew & Hperm & _);
    [reflexivity|reflexivity|vm_compute; reflexivity|].
  exists r1, frame, newPaths. split; [exact Hrun|]. split; [exact Hnew|].
  split; [exact Hperm|].
  assert (Hr1 : r1 = (Playlist.handleSongReorderDrop 0 roadTripSelected).1)
    by (rewrite Hrun; reflexivity).
  rewrite Hr1 in Hnew. vm_compute in Hnew. injection Hnew as <-. reflexivity.
Defined.

Lemma shuffle_keeps_view (s : State.Store) (b : bool) :
  let a := State.state (if b then Playlist.generateShuffledPlaylist s else s) in
  State.lastClickedPath a = State.lastClickedPath (State.state s) /\
  State.viewMode a = State.viewMode (State.state s).
Proof.
  destruct b; [|split; reflexivity].
  unfold Playlist.generateShuffledPlaylist.
  pose proof (fisherYates_state (length (State.getActivePlaylist s) - 1)
                (State.getActivePlaylist s) s) as Hfy.
  destruct (Playlist.fisherYates _ _ _) as [shuffled s1]. simpl in Hfy.
  unfold State.getState. rewrite Hfy.
  destruct (if decide (State.currentSongIndex (State.state s) > -1)
            then js_index (State.getActivePlaylist s)
                          (State.currentSongIndex (State.state s))
            else None);
    simpl; rewrite Hfy; split; reflexivity.
Qed.

(** ** Switching playlists *)

Lemma findIndex_from_key {A} (key : A -> string) (v : string) (l : list A) :
  forall (k : nat) (i : Z) (x : A),
    NoDup (map key l) -> l !! k = Some x -> key x = v ->
    findIndex_from (fun y => bool_decide (key y = v)) l i = i + Z.of_nat k.
Proof.
  induction l as [|y l IH]; intros k i x Hnodup Hk Hx; [discriminate|].
  simpl in Hnodup. apply NoDup_cons in Hnodup as [Hy Hnodup]. simpl.
  destruct k as [|k]; simpl in Hk.
  - injection Hk as ->. rewrite bool_decide_eq_true_2 by exact Hx. lia.
  - case_bool_decide as Heq.
    + exfalso. apply Hy. rewrite Heq, <- Hx.
      apply list_elem_of_fmap. exists x. split; [reflexivity|].
      eapply list_elem_of_lookup_2, Hk.
    + rewrite (IH k (i + 1) x Hnodup Hk Hx). lia.
Qed.

Lemma findIndex_from_NoDup (x : string) (l : list string) :
  forall (k : nat) (i : Z),
    NoDup l -> l !! k = Some x ->
    findIndex_from (fun n => bool_decide (n = x)) l i = i + Z.of_nat k.
Proof.
  intros k i Hnodup Hk.
  apply (findIndex_from_key (fun n => n) x l k i x); [|exact Hk|reflexivity].
  rewrite map_id. exact Hnodup.
Qed.

Lemma switchPlaylist_state (playlistName : string) (s : State.Store) :
  State.activePlaylist (State.musicData (State.state s)) <> playlistName ->
  let a := State.state (Playlist.switchPlaylist playlistName s) in
  State.musicData a =
    State.with_activePlaylist playlistName (State.musicData (State.state s)) /\
  State.playQueue a = [] /\
  State.currentSongIndex a = -1 /\
  State.selectedSongPaths a = [] /\
  State.lastClickedPath a = None /\
  State.viewMode a = State.ViewPlaylist.
Proof.
  intros Hother. unfold Playlist.switchPlaylist, State.getState.
  rewrite (bool_decide_eq_false_2 _ Hother).
  match goal with |- context [if ?b then Playlist.generateShuffledPlaylist ?u else ?u] =>
    pose proof (maybeShuffle_state u b) as (Hdata & Hqueue & Hindex & _ & Hselected);
    pose proof (shuffle_keeps_view u b) as [Hclicked Hmode];
    set (s7 := if b then Playlist.generateShuffledPlaylist u else u) in *; clearbody s7
  end.
  cbv zeta in *. simpl.
  rewrite Hdata, Hqueue, Hindex, Hselected, Hclicked, Hmode. repeat split; reflexivity.
Qed.

(** Cycling forward and then back. When the playlist order has at least
    two names, none of them empty or repeated, and the active playlist
    is one of them, [cyclePlaylist('next')] makes another playlist of the
    order active and resets queue, selection and current song; a
    following [cyclePlaylist('prev')] makes the first playlist active
    again. The order and the playlists themselves are never touched. *)
Theorem cyclePlaylist_next_then_prev (s : State.Store) :
  let data := State.musicData (State.state s) in
  NoDup (State.playlistOrder data) ->
  ""%string ∉ State.playlistOrder data ->
  State.activePlaylist data ∈ State.playlistOrder data ->
  (2 <= length (State.playlistOrder data))%nat ->
  let s1 := Playlist.cyclePlaylist Playlist.next s in
  let s2 := Playlist.cyclePlaylist Playlist.prev s1 in
  State.activePlaylist (State.musicData (State.state s1)) ∈ State.playlistOrder data /\
  State.activePlaylist (State.musicData (State.state s1)) <> State.activePlaylist data /\
  State.playQueue (State.state s1) = [] /\
  State.currentSongIndex (State.state s1) = -1 /\
  State.selectedSongPaths (State.state s1) = [] /\
  State.musicData (State.state s2) = data.
Proof.
  intros data Hnodup Hnonempty Hactive Hlen.
  destruct (list_elem_of_lookup_1 _ _ Hactive) as [i Hi].
  pose proof (lookup_lt_Some _ _ _ Hi) as Hilt.
  set (len := length (State.playlistOrder data)) in *.
  set (j := if decide (S i = len) then 0%nat else S i).
  assert (Hjlt : (j < len)%nat) by (unfold j; destruct (decide (S i = len)); lia).
  destruct (lookup_lt_is_Some_2 (State.playlistOrder data) j Hjlt) as [nxt Hj].
  assert (Hij : i <> j) by (unfold j; destruct (decide (S i = len)); lia).
  assert (Hnxt : nxt <> State.activePlaylist data).
  { intros ->. apply Hij. eapply NoDup_lookup; eassumption. }
  assert (Htruthy : forall n k, State.playlistOrder data !! k = Some n ->
                                State.truthy n = true).
  { intros n k Hk. unfold State.truthy. apply negb_true_iff, bool_decide_eq_false_2.
    intros ->. apply Hnonempty. eapply list_elem_of_lookup_2, Hk. }
  assert (Hs1 : Playlist.cyclePlaylist Playlist.next s = Playlist.switchPlaylist nxt s).
  { unfold Playlist.cyclePlaylist, State.getState. fold data. fold len.
    destruct (decide (Z.of_nat len < 2)) as [Hshort|_]; [lia|].
    unfold findIndex. rewrite (findIndex_from_NoDup _ _ i 0 Hnodup Hi).
    replace (Playlist.js_rem (0 + Z.of_nat i + 1) (Z.of_nat len)) with (Z.of_nat j).
    - unfold js_index. destruct (decide (Z.of_nat j < 0)) as [Hneg|_]; [lia|].
      rewrite Nat2Z.id, Hj, (Htruthy nxt j Hj). reflexivity.
    - unfold Playlist.js_rem, j. destruct (decide (S i = len)) as [Hlast|Hmore].
      + replace (0 + Z.of_nat i + 1) with (Z.of_nat len) by lia.
        rewrite Z.rem_same by lia. reflexivity.
      + rewrite Z.rem_small by lia. lia. }
  intros s1 s2. subst s1 s2. rewrite Hs1.
  assert (Hother : State.activePlaylist (State.musicData (State.state s)) <> nxt)
    by (intros Heq; apply Hnxt; symmetry; exact Heq).
  destruct (switchPlaylist_state nxt s Hother)
    as (Hdata1 & Hqueue1 & Hindex1 & Hselected1 & _).
  cbv zeta in Hdata1, Hqueue1, Hindex1, Hselected1.
  rewrite Hdata1, Hqueue1, Hindex1, Hselected1. simpl.
  split; [eapply list_elem_of_lookup_2, Hj|].
  split; [exact Hnxt|]. do 3 (split; [reflexivity|]).
  assert (Hs2 : Playlist.cyclePlaylist Playlist.prev (Playlist.switchPlaylist nxt s)
                = Playlist.switchPlaylist (State.activePlaylist data)
                    (Playlist.switchPlaylist nxt s)).
  { unfold Playlist.cyclePlaylist at 1. unfold State.getState. rewrite Hdata1. simpl.
    fold data. fold len.
    destruct (decide (Z.of_nat len < 2)) as [Hshort|_]; [lia|].
    unfold findIndex. rewrite (findIndex_from_NoDup _ _ j 0 Hnodup Hj).
    replace (Playlist.js_rem (0 + Z.of_nat j - 1 + Z.of_nat len) (Z.of_nat len))
      with (Z.of_nat i).
    - unfold js_index. destruct (decide (Z.of_nat i < 0)) as [Hneg|_]; [lia|].
      rewrite Nat2Z.id, Hi, (Htruthy _ i Hi). reflexivity.
    - unfold Playlist.js_rem, j. destruct (decide (S i = len)) as [Hlast|Hmore].
      + rewrite Z.rem_small by lia. lia.
      + replace (0 + Z.of_nat (S i) - 1 + Z.of_nat len)
          with (Z.of_nat i + 1 * Z.of_nat len) by lia.
        rewrite Z.rem_add by lia. rewrite Z.rem_small by lia. reflexivity. }
  rewrite Hs2.
  assert (Hback : State.activePlaylist
                    (State.musicData (State.state (Playlist.switchPlaylist nxt s)))
                  <> State.activePlaylist data) by (rewrite Hdata1; exact Hnxt).
  destruct (switchPlaylist_state _ _ Hback) as (Hdata2 & _).
  cbv zeta in Hdata2. rewrite Hdata2, Hdata1. unfold data.
  destruct (State.musicData (State.state s)). reflexivity.
Qed.

Lemma cyclePlaylist_next_then_prev_witness :
  State.musicData (State.state
    (Playlist.cyclePlaylist Playlist.prev
       (Playlist.cyclePlaylist Playlist.next
          (State.setPlaylistOrder ["Default"%string; "Road trip"%string] (sampleStore [])))))
  = State.musicData (State.state
      (State.setPlaylistOrder ["Default"%string; "Road trip"%string] (sampleStore []))).
Proof.
  apply (cyclePlaylist_next_then_prev
           (State.setPlaylistOrder ["Default"%string; "Road trip"%string] (sampleStore []))).
  - apply (bool_decide_unpack _). vm_compute. exact I.
  - apply (bool_decide_unpack _). vm_compute. exact I.
  - apply (bool_decide_unpack _). vm_compute. exact I.
  - simpl. lia.
Defined.

(** ** Shuffling *)






(** ** The play queue *)

Lemma filter_none_kept {A} (f : A -> bool) (l : list A) :
  (forall x, x ∈ l -> f x = false) -> List.filter f l = [].
Proof.
  induction l as [|x l IH]; intros Hall; [reflexivity|]. simpl.
  rewrite (Hall x) by apply list_elem_of_here.
  apply IH. intros y Hy. apply Hall, list_elem_of_further, Hy.
Qed.

(** Queueing the selection, at the end or at the front, only ever adds
    songs of the active playlist that are selected and not missing, and
    leaves the old queue entries in place. Taking the selection out of
    the queue afterwards gives the old queue without its selected
    songs, whichever of the two ways they were added. *)
Theorem queue_selection_round_trip (s : State.Store) :
  let selected := State.selectedSongPaths (State.state s) in
  let queue := State.playQueue (State.state s) in
  (exists added,
      State.playQueue (State.state (Playlist.addSelectedToQueue s)) = queue ++ added /\
      State.playQueue (State.state (Playlist.playSelectedNext s)) = added ++ queue /\
      forall song, song ∈ added ->
        song ∈ State.getActivePlaylist s /\
        State.path song ∈ selected /\ State.isMissing song = false) /\
  State.playQueue (State.state
    (Playlist.removeSelectedFromQueue (Playlist.addSelectedToQueue s)))
    = List.filter (fun song => negb (includes selected (State.path song))) queue /\
  State.playQueue (State.state
    (Playlist.removeSelectedFromQueue (Playlist.playSelectedNext s)))
    = List.filter (fun song => negb (includes selected (State.path song))) queue.
Proof.
  intros selected queue.
  set (songsToAdd :=
         List.filter (fun song => includes selected (State.path song)
                                  && negb (State.isMissing song))
                     (State.getActivePlaylist s)).
  assert (Hadded : forall song, song ∈ songsToAdd ->
            song ∈ State.getActivePlaylist s /\
            State.path song ∈ selected /\ State.isMissing song = false).
  { intros song Hin. apply elem_of_List_filter in Hin as [Hin Hsong].
    apply andb_true_iff in Hsong as [Hsel Hmissing].
    split; [exact Hin|]. split.
    - apply bool_decide_eq_true in Hsel. exact Hsel.
    - apply negb_true_iff in Hmissing. exact Hmissing. }
  assert (Hadd : State.state (Playlist.addSelectedToQueue s)
                 = State.with_playQueue (queue ++ songsToAdd) (State.state s)).
  { unfold Playlist.addSelectedToQueue, State.getState. fold selected queue songsToAdd.
    destruct songsToAdd as [|first rest]; [|reflexivity].
    rewrite app_nil_r. destruct (State.state s). reflexivity. }
  assert (Hnext : State.state (Playlist.playSelectedNext s)
                  = State.with_playQueue (songsToAdd ++ queue) (State.state s)).
  { unfold Playlist.playSelectedNext, State.getState. fold selected queue songsToAdd.
    destruct songsToAdd as [|first rest]; [|reflexivity].
    destruct (State.state s). reflexivity. }
  assert (Hnone : List.filter (fun song => negb (includes selected (State.path song)))
                              songsToAdd = []).
  { apply filter_none_kept. intros song Hin. apply Hadded in Hin as (_ & Hsel & _).
    apply negb_false_iff, bool_decide_eq_true_2, Hsel. }
  split; [|split].
  - exists songsToAdd. rewrite Hadd, Hnext. split; [reflexivity|]. split; [reflexivity|].
    exact Hadded.
  - unfold Playlist.removeSelectedFromQueue, State.getState. rewrite Hadd. simpl.
    fold selected. destruct selected as [|p rest] eqn:Hsel.
    + rewrite Hadd. simpl. destruct songsToAdd as [|x added].
      * rewrite app_nil_r. symmetry. apply filter_all_kept. intros y _. reflexivity.
      * destruct (Hadded x) as (_ & Hin & _); [apply list_elem_of_here|].
        apply elem_of_nil in Hin. contradiction.
    + simpl. rewrite List.filter_app, Hnone, app_nil_r. reflexivity.
  - unfold Playlist.removeSelectedFromQueue, State.getState. rewrite Hnext. simpl.
    fold selected. destruct selected as [|p rest] eqn:Hsel.
    + rewrite Hnext. simpl. destruct songsToAdd as [|x added].
      * symmetry. apply filter_all_kept. intros y _. reflexivity.
      * destruct (Hadded x) as (_ & Hin & _); [apply list_elem_of_here|].
        apply elem_of_nil in Hin. contradiction.
    + simpl. rewrite List.filter_app, Hnone. reflexivity.
Qed.

(** ** Selection *)

(** A click with Ctrl or Cmd held, and Shift either not held or without
    an anchor to start from, toggles the clicked path: afterwards the
    selection holds exactly the other paths that were selected and, when
    it was not selected before, the clicked path. The new selection has
    no duplicate, and the clicked path becomes the anchor. *)
Theorem handleSongSelection_ctrl_toggles
    (vListDataSource : list State.Song) (clickedPath : string)
    (event : Playlist.ClickEvent) (s : State.Store) :
  Playlist.ctrlKey event || Playlist.metaKey event = true ->
  Playlist.shiftKey event = false \/ State.lastClickedPath (State.state s) = None ->
  let s' := Playlist.handleSongSelection vListDataSource clickedPath event s in
  let selected := State.selectedSongPaths (State.state s) in
  (forall p, p ∈ State.selectedSongPaths (State.state s') <->
             (p ∈ selected /\ p <> clickedPath) \/ (p = clickedPath /\ clickedPath ∉ selected)) /\
  NoDup (State.selectedSongPaths (State.state s')) /\
  State.lastClickedPath (State.state s') = Some clickedPath.
Proof.
  intros Hctrl Hplain s' selected. subst s'. unfold Playlist.handleSongSelection.
  unfold State.getState. fold selected.
  assert (Hbranch :
    (if Playlist.shiftKey event
     then match State.lastClickedPath (State.state s) with
          | Some p => if State.truthy p then Some p else None
          | None => None
          end
     else None) = None).
  { destruct Hplain as [->| ->]; [reflexivity|].
    destruct (Playlist.shiftKey event); reflexivity. }
  rewrite Hbranch, Hctrl. simpl.
  unfold JsSet.has. case_bool_decide as Hin; rewrite JsSet_from_elem in Hin.
  - split; [|split; [|reflexivity]].
    + intros p. unfold JsSet.delete. rewrite list_elem_of_filter, JsSet_from_elem.
      split; [intros [Hne Hp]; left; tauto|].
      intros [[Hp Hne]|[-> Hout]]; [tauto|contradiction].
    + unfold JsSet.delete. apply NoDup_filter, JsSet_from_NoDup.
  - split; [|split; [|reflexivity]].
    + intros p. rewrite JsSet_add_elem, JsSet_from_elem.
      split.
      * intros [->|Hp]; [right; tauto|]. left. split; [exact Hp|].
        intros ->. contradiction.
      * intros [[Hp _]|[-> _]]; tauto.
    + apply JsSet_add_NoDup, JsSet_from_NoDup.
Qed.

Lemma handleSongSelection_ctrl_toggles_witness :
  State.selectedSongPaths (State.state
    (Playlist.handleSongSelection [songA; songB] "b.mp3"
       {| Playlist.shiftKey := false; Playlist.ctrlKey := true; Playlist.metaKey := false |}
       (sampleStore ["a.mp3"%string])))
  = ["a.mp3"%string; "b.mp3"%string] /\
  NoDup (State.selectedSongPaths (State.state
    (Playlist.handleSongSelection [songA; songB] "b.mp3"
       {| Playlist.shiftKey := false; Playlist.ctrlKey := true; Playlist.metaKey := false |}
       (sampleStore ["a.mp3"%string])))).
Proof.
  split; [vm_compute; reflexivity|].
  apply (handleSongSelection_ctrl_toggles [songA; songB] "b.mp3"
           {| Playlist.shiftKey := false; Playlist.ctrlKey := true;
              Playlist.metaKey := false |}
           (sampleStore ["a.mp3"%string])).
  - reflexivity.
  - left. reflexivity.
Defined.

(** A click with Shift held and an anchor set, where the anchor is row
    [a] and the clicked path row [b] of the visible list, whose paths
    are distinct: the selection becomes the paths of the rows from the
    upper to the lower of the two, both included, in list order, and the
    anchor stays where it was. *)
Theorem handleSongSelection_shift_range
    (vListDataSource : list State.Song) (clickedPath anchor : string)
    (event : Playlist.ClickEvent) (s : State.Store) (a b : nat) :
  Playlist.shiftKey event = true ->
  State.lastClickedPath (State.state s) = Some anchor ->
  anchor <> ""%string ->
  NoDup (map State.path vListDataSource) ->
  map State.path vListDataSource !! a = Some anchor ->
  map State.path vListDataSource !! b = Some clickedPath ->
  let s' := Playlist.handleSongSelection vListDataSource clickedPath event s in
  State.selectedSongPaths (State.state s')
    = take (S (Nat.max a b - Nat.min a b))
           (drop (Nat.min a b) (map State.path vListDataSource)) /\
  length (State.selectedSongPaths (State.state s')) = S (Nat.max a b - Nat.min a b) /\
  anchor ∈ State.selectedSongPaths (State.state s') /\
  clickedPath ∈ State.selectedSongPaths (State.state s') /\
  State.lastClickedPath (State.state s') = Some anchor.
Proof.
  intros Hshift Hlast Hanchor Hnodup Ha Hb s'.
  rewrite list_lookup_fmap in Ha, Hb.
  destruct (vListDataSource !! a) as [rowA|] eqn:HrowA; [|discriminate].
  destruct (vListDataSource !! b) as [rowB|] eqn:HrowB; [|discriminate].
  simpl in Ha, Hb. injection Ha as Ha. injection Hb as Hb.
  pose proof (lookup_lt_Some _ _ _ HrowA) as HaLt.
  pose proof (lookup_lt_Some _ _ _ HrowB) as HbLt.
  assert (Hsel : State.selectedSongPaths (State.state s')
                 = take (S (Nat.max a b - Nat.min a b))
                        (drop (Nat.min a b) (map State.path vListDataSource))).
  { subst s'. unfold Playlist.handleSongSelection, State.getState.
    rewrite Hshift, Hlast. unfold State.truthy.
    rewrite (bool_decide_eq_false_2 _ Hanchor). simpl.
    unfold findIndex.
    rewrite (findIndex_from_key State.path anchor _ a 0 rowA Hnodup HrowA Ha).
    rewrite (findIndex_from_key State.path clickedPath _ b 0 rowB Hnodup HrowB Hb).
    destruct (decide (0 + Z.of_nat a > -1 /\ 0 + Z.of_nat b > -1)) as [_|Hneg]; [|lia].
    simpl. unfold Playlist.slice.
    replace (Z.to_nat (Z.max (0 + Z.of_nat a) (0 + Z.of_nat b) + 1
                       - Z.min (0 + Z.of_nat a) (0 + Z.of_nat b)))
      with (S (Nat.max a b - Nat.min a b)) by lia.
    replace (Z.to_nat (Z.min (0 + Z.of_nat a) (0 + Z.of_nat b)))
      with (Nat.min a b) by lia.
    rewrite <- fmap_drop, <- fmap_take. reflexivity. }
  assert (Hrow : forall k x, (Nat.min a b <= k <= Nat.max a b)%nat ->
                   map State.path vListDataSource !! k = Some x ->
                   x ∈ State.selectedSongPaths (State.state s')).
  { intros k x Hk Hx. rewrite Hsel. apply list_elem_of_lookup.
    exists (k - Nat.min a b)%nat.
    rewrite lookup_take_lt by lia. rewrite lookup_drop.
    replace (Nat.min a b + (k - Nat.min a b))%nat with k by lia. exact Hx. }
  split; [exact Hsel|]. split.
  { rewrite Hsel, length_take, length_drop, length_map. lia. }
  split; [|split].
  - apply (Hrow a); [lia|]. rewrite list_lookup_fmap, HrowA. simpl. congruence.
  - apply (Hrow b); [lia|]. rewrite list_lookup_fmap, HrowB. simpl. congruence.
  - subst s'. unfold Playlist.handleSongSelection, State.getState.
    rewrite Hshift, Hlast. unfold State.truthy.
    rewrite (bool_decide_eq_false_2 _ Hanchor). simpl.
    destruct (decide _); simpl; exact Hlast.
Qed.

Lemma handleSongSelection_shift_range_witness :
  State.selectedSongPaths (State.state
    (Playlist.handleSongSelection [songA; songB] "a.mp3"
       {| Playlist.shiftKey := true; Playlist.ctrlKey := false; Playlist.metaKey := false |}
       (State.setLastClickedPath (Some "b.mp3"%string) (sampleStore []))))
  = ["a.mp3"%string; "b.mp3"%string].
Proof.
  apply (handleSongSelection_shift_range [songA; songB] "a.mp3" "b.mp3"
           {| Playlist.shiftKey := true; Playlist.ctrlKey := false;
              Playlist.metaKey := false |}
           (State.setLastClickedPath (Some "b.mp3"%string) (sampleStore [])) 1 0).
  - reflexivity.
  - reflexivity.
  - discriminate.
  - apply (bool_decide_unpack _). vm_compute. exact I.
  - reflexivity.
  - reflexivity.
Defined.

(** ** The cover cache *)







(** ** The virtual list: what the rows show *)


Lemma setHidden_memoCoherent (b : bool) (node : VirtualList.Node) :
  memoCoherent node -> memoCoherent (VirtualList.setHidden b node).
Proof. intros H. exact H. Qed.


Lemma rowLoop_painted (songCache : gmap string State.Song) (playing : option string)
    (selected : list string) (dataSource : list State.Song) (n : nat) :
  forall (i : Z) (k : nat) (nodes nodes' : list VirtualList.Node)
         (pending pending' : JsSet.t) (last : nat),
    VirtualList.rowLoop songCache playing selected dataSource n i k nodes pending
      = Some (nodes', pending', last) ->
    last = (k + n)%nat /\
    length nodes' = length nodes /\
    (forall j, (j < k)%nat \/ (k + n <= j)%nat -> nodes' !! j = nodes !! j) /\
    (forall j, (j < n)%nat ->
       exists songData node,
         js_index dataSource (i + Z.of_nat j) = Some songData /\
         nodes !! (k + j)%nat = Some node /\
         nodes' !! (k + j)%nat
           = Some (VirtualList.paintRow songCache playing selected
                     (i + Z.of_nat j) songData node)) /\
    (forall p, p ∈ pending' <->
       p ∈ pending \/
       exists j songData, (j < n)%nat /\
         js_index dataSource (i + Z.of_nat j) = Some songData /\
         State.path songData = p /\ songCache !! p = None).
Proof.
  induction n as [|n IH]; intros i k nodes nodes' pending pending' last Hrun.
  - simpl in Hrun. injection Hrun as <- <- <-.
    split; [lia|]. split; [reflexivity|]. split; [reflexivity|].
    split; [intros j Hj; lia|].
    intros p. split; [tauto|]. intros [Hp|(j & _ & Hj & _)]; [exact Hp|lia].
  - simpl in Hrun.
    destruct (js_index dataSource i) as [songData|] eqn:HsongData; [|discriminate].
    destruct (nodes !! k) as [node|] eqn:Hnode; [|discriminate].
    apply IH in Hrun as (Hlast & Hlen & Hkeep & Hrows & Hpending).
    split; [lia|]. split; [rewrite Hlen; apply length_insert|].
    split.
    { intros j Hj. rewrite Hkeep by lia. apply list_lookup_insert_ne. lia. }
    split.
    { intros j Hj. destruct j as [|j].
      - exists songData, node. replace (i + Z.of_nat 0) with i by lia.
        rewrite Nat.add_0_r. split; [exact HsongData|]. split; [exact Hnode|].
        rewrite Hkeep by lia. apply list_lookup_insert_eq.
        apply lookup_lt_Some in Hnode. exact Hnode.
      - destruct (Hrows j) as (sd & nd & Hsd & Hnd & Hpainted); [lia|].
        exists sd, nd.
        replace (i + Z.of_nat (S j)) with (i + 1 + Z.of_nat j) by lia.
        replace (k + S j)%nat with (S k + j)%nat by lia.
        split; [exact Hsd|]. split; [|exact Hpainted].
        rewrite list_lookup_insert_ne in Hnd by lia. exact Hnd. }
    intros p. rewrite Hpending. split.
    + intros [Hp|(j & sd & Hj & Hsd & Hpath & Hmiss)].
      * destruct (songCache !! State.path songData) eqn:Hcached; [left; exact Hp|].
        apply JsSet_add_elem in Hp as [->|Hp]; [|left; exact Hp].
        right. exists 0%nat, songData.
        replace (i + Z.of_nat 0) with i by lia. split; [lia|]. tauto.
      * right. exists (S j), sd. split; [lia|].
        replace (i + Z.of_nat (S j)) with (i + 1 + Z.of_nat j) by lia. tauto.
    + intros [Hp|(j & sd & Hj & Hsd & Hpath & Hmiss)].
      * left. destruct (songCache !! State.path songData); [exact Hp|].
        apply JsSet_add_elem. right. exact Hp.
      * destruct j as [|j].
        -- left. replace (i + Z.of_nat 0) with i in Hsd by lia.
           rewrite HsongData in Hsd. injection Hsd as <-. rewrite Hpath, Hmiss.
           apply JsSet_add_elem. left. reflexivity.
        -- right. exists j, sd. split; [lia|].
           replace (i + 1 + Z.of_nat j) with (i + Z.of_nat (S j)) by lia. tauto.
Qed.










(** ** The virtual list: the size of the pool *)

Lemma renderVisibleSongs_pool (s : State.Store) (v v' : VirtualList.VList) :
  VirtualList.renderVisibleSongs s v = Some v' ->
  let first := VirtualList.renderStartIndex (VirtualList.scrollTop v) in
  let last :=
    VirtualList.renderEndIndex (VirtualList.scrollTop v) (VirtualList.clientHeight v)
      (Z.of_nat (length (VirtualList.dataSource v))) in
  length (VirtualList.visibleNodes v')
    = Nat.max (length (VirtualList.visibleNodes v)) (Z.to_nat (last - first + 1)) /\
  VirtualList.clientHeight v' = VirtualList.clientHeight v.
Proof.
  intros Hrun first last. unfold VirtualList.renderVisibleSongs in Hrun.
  fold first last in Hrun.
  destruct (VirtualList.rowLoop _ _ _ _ _ _ _ _ _) as [[[nodes' pending'] idx]|] eqn:Hloop;
    [|discriminate].
  injection Hrun as <-. simpl.
  apply rowLoop_painted in Hloop as (_ & Hlen & _).
  split; [|reflexivity].
  unfold VirtualList.hideFrom.
  rewrite length_app, length_take, length_map, length_drop, Hlen.
  unfold VirtualList.growPool. rewrite length_app, length_replicate. lia.
Qed.

Lemma window_size (scrollTop : Q) (clientHeight limit : Z) (len : Z) :
  clientHeight <= limit ->
  VirtualList.renderEndIndex scrollTop clientHeight len
    - VirtualList.renderStartIndex scrollTop + 1
  <= VirtualList.numVisibleItems limit + 11.
Proof.
  intros Hlimit.
  assert (Hmono : VirtualList.numVisibleItems clientHeight
                  <= VirtualList.numVisibleItems limit).
  { unfold VirtualList.numVisibleItems. apply Qceiling_resp_le.
    unfold Qdiv. apply Qmult_le_compat_r; [|discriminate].
    rewrite <- Zle_Qle. exact Hlimit. }
  unfold VirtualList.renderEndIndex, VirtualList.renderStartIndex,
    VirtualList.BUFFER_ITEMS.
  lia.
Qed.

(** The pool of list nodes is bounded by the height of the container
    and not by the number of rows: as long as the container is never
    higher than [limit] pixels, the pool never holds more than
    [ceil(limit / 46) + 11] nodes, whatever is scrolled, loaded or
    rendered, and it never shrinks. *)
Theorem pool_is_bounded_by_the_viewport
    (s : State.Store) (rows : list State.Song) (height limit : Z)
    (events : list VirtualList.Event) :
  height <= limit ->
  Forall (fun ev => match ev with
                    | VirtualList.resize h => h <= limit
                    | _ => True
                    end) events ->
  (length (VirtualList.visibleNodes
             (VirtualList.vList (VirtualList.run (VirtualList.initial s rows height) events)))
   <= Z.to_nat (VirtualList.numVisibleItems limit + 11))%nat /\
  forall ev,
    (length (VirtualList.visibleNodes
               (VirtualList.vList (VirtualList.run (VirtualList.initial s rows height) events)))
     <= length (VirtualList.visibleNodes
                  (VirtualList.vList
                     (VirtualList.step
                        (VirtualList.run (VirtualList.initial s rows height) events) ev))))%nat.
Proof.
  intros Hheight Hevents.
  set (bound := Z.to_nat (VirtualList.numVisibleItems limit + 11)).
  assert (Hrender : forall s0 v v',
             VirtualList.renderVisibleSongs s0 v = Some v' ->
             VirtualList.clientHeight v <= limit ->
             (length (VirtualList.visibleNodes v) <= bound)%nat ->
             (length (VirtualList.visibleNodes v) <= length (VirtualList.visibleNodes v')
              <= bound)%nat /\ VirtualList.clientHeight v' <= limit).
  { intros s0 v v' Hrun Hh Hlen.
    destruct (renderVisibleSongs_pool s0 v v' Hrun) as [Hpool Hsame].
    pose proof (window_size (VirtualList.scrollTop v) (VirtualList.clientHeight v) limit
                  (Z.of_nat (length (VirtualList.dataSource v))) Hh) as Hwindow.
    rewrite Hsame. unfold bound in *. lia. }
  assert (Hstep : forall e ev,
             match ev with VirtualList.resize h => h <= limit | _ => True end ->
             VirtualList.clientHeight (VirtualList.vList e) <= limit ->
             (length (VirtualList.visibleNodes (VirtualList.vList e)) <= bound)%nat ->
             (length (VirtualList.visibleNodes (VirtualList.vList e))
              <= length (VirtualList.visibleNodes
                           (VirtualList.vList (VirtualList.step e ev))) <= bound)%nat /\
             VirtualList.clientHeight (VirtualList.vList (VirtualList.step e ev)) <= limit).
  { intros e ev Hev Hh Hlen.
    destruct ev as [top|h|rows0| | |k outcome|f]; simpl; try (split; [lia|assumption]).
    - destruct (VirtualList.renderVisibleSongs _ _) as [v'|] eqn:Hrun; simpl;
        [|split; [lia|assumption]].
      apply (Hrender _ _ _ Hrun Hh Hlen).
    - destruct (VirtualList.fetchTimer _); [|split; [lia|assumption]].
      unfold VirtualList.processPendingFetches.
      repeat (destruct (decide _); simpl; [split; [lia|assumption]|]).
      destruct (List.filter _ _); simpl; (split; [lia|assumption]).
    - destruct (VirtualList.awaiting e !! k) as [newPaths|]; [|split; [lia|assumption]].
      unfold VirtualList.fetchSongData_resume.
      destruct outcome as [songsMap|message]; simpl; [|split; [lia|assumption]].
      destruct (VirtualList.renderVisibleSongs _ _) as [v'|] eqn:Hrun; simpl;
        [|split; [lia|assumption]].
      apply (Hrender _ _ _ Hrun Hh Hlen). }
  assert (Hrun : forall events e,
             Forall (fun ev => match ev with
                               | VirtualList.resize h => h <= limit
                               | _ => True
                               end) events ->
             VirtualList.clientHeight (VirtualList.vList e) <= limit ->
             (length (VirtualList.visibleNodes (VirtualList.vList e)) <= bound)%nat ->
             (length (VirtualList.visibleNodes
                        (VirtualList.vList (VirtualList.run e events))) <= bound)%nat /\
             VirtualList.clientHeight (VirtualList.vList (VirtualList.run e events))
               <= limit).
  { clear Hevents events. induction events as [|ev events IH]; intros e Hall Hh Hlen.
    - simpl. split; assumption.
    - apply Forall_cons in Hall as [Hev Hall]. simpl.
      destruct (Hstep e ev Hev Hh Hlen) as [[_ Hlen'] Hh'].
      apply IH; assumption. }
  destruct (Hrun events (VirtualList.initial s rows height) Hevents Hheight)
    as [Hlen Hh]; [simpl; lia|].
  split; [exact Hlen|].
  intros ev.
  destruct ev as [top|h|rows0| | |k outcome|f]; simpl; try lia.
  - destruct (VirtualList.renderVisibleSongs _ _) as [v'|] eqn:Hr; simpl; [|lia].
    apply (renderVisibleSongs_pool _ _ _) in Hr as [Hr _]. lia.
  - destruct (VirtualList.fetchTimer _); [|lia].
    unfold VirtualList.processPendingFetches.
    repeat (destruct (decide _); simpl; [lia|]).
    destruct (List.filter _ _); simpl; lia.
  - destruct (VirtualList.awaiting _ !! k) as [newPaths|]; [|lia].
    unfold VirtualList.fetchSongData_resume.
    destruct outcome as [songsMap|message]; simpl; [|lia].
    destruct (VirtualList.renderVisibleSongs _ _) as [v'|] eqn:Hr; simpl; [|lia].
    apply (renderVisibleSongs_pool _ _ _) in Hr as [Hr _]. lia.
Qed.

Lemma pool_is_bounded_by_the_viewport_witness :
  (length (VirtualList.visibleNodes
             (VirtualList.vList
                (VirtualList.run (VirtualList.initial (sampleStore []) [songA; songB] 460)
                   [VirtualList.scroll 92; VirtualList.render])))
   <= 21)%nat.
Proof.
  apply (pool_is_bounded_by_the_viewport (sampleStore []) [songA; songB] 460 460
           [VirtualList.scroll 92; VirtualList.render]).
  - lia.
  - repeat constructor.
Defined.

(** ** The virtual list: empty states *)


(** ** The render scheduler: updates that arrive during a frame *)

(** Calls of [scheduleRender] that arrive while the frame callback
    waits for [UI.renderSongList()], the awaited promise then resolving.
    They request no frame of their own, because [isRenderScheduled] is
    still set. The callback goes on with the flags as those calls left
    them, so a flag of a section that is still to come is honoured in
    this frame, here [playlists]. But the list section has already run:
    whatever the calls asked for the song list, the list is rendered
    once, from before them, and when the callback has run to its end no
    flag is set and no frame is pending, so that what they asked for the
    list is lost. *)
Theorem update_during_list_render_is_dropped
    (s : State.Store) (m : Main.Scheduler) (first second : Main.Await) :
  Main.isRenderScheduled m = true ->
  Main.dirty m Main.songList = true ->
  Main.settled first = Resolved tt ->
  let started := Main.performScheduledRenders_start s m in
  let waiting := Main.scheduleAll (Main.arrivals first) started.1 in
  started.2 = Main.Suspended Main.atRenderSongList /\
  Main.drawn started.1 = Main.drawn m ++ [Main.renderSongList] /\
  Main.isRenderScheduled waiting = true /\
  Main.requestedFrames waiting = pred (Main.requestedFrames m) /\
  exists final outcome rest,
    Main.performScheduledRenders s first second m = (final, Main.Ended outcome) /\
    Main.drawn final = Main.drawn m ++ [Main.renderSongList] ++ rest /\
    (Main.renderSongList ∉ rest) /\ (Main.updateSongListUI ∉ rest) /\
    (Main.dirty waiting Main.playlists = true -> Main.renderPlaylists ∈ rest) /\
    Main.requestedFrames final = pred (Main.requestedFrames m) /\
    (outcome = Resolved tt ->
     Main.isRenderScheduled final = false /\ forall flag, Main.dirty final flag = false).
Proof.
  intros Hscheduled Hlist Hfirst started waiting.
  destruct m as [scheduled dirty frames drawn]. simpl in Hscheduled, Hlist.
  subst scheduled.
  destruct first as [arrivals1 store1 settled1]; destruct second as [arrivals2 store2 settled2].
  simpl in Hfirst. subst settled1.
  assert (Hstart : started
                   = ({| Main.isRenderScheduled := true; Main.dirty := dirty;
                         Main.requestedFrames := pred frames;
                         Main.drawn := drawn ++ [Main.renderSongList] |},
                      Main.Suspended Main.atRenderSongList)).
  { unfold started, Main.performScheduledRenders_start. simpl. rewrite Hlist. reflexivity. }
  unfold waiting. unfold Main.performScheduledRenders. fold started.
  clearbody started. subst started. simpl.
  destruct (scheduleAll_scheduled arrivals1
              {| Main.isRenderScheduled := true; Main.dirty := dirty;
                 Main.requestedFrames := pred frames;
                 Main.drawn := drawn ++ [Main.renderSongList] |} eq_refl) as [d1 Hd1].
  rewrite Hd1. clear Hd1. simpl.
  do 4 (split; [reflexivity|]).
  after_list.
  all: try (arrive; destruct settled2 as [[]|message2]; unfold_frame; reads).
  all: unfold Main.frameEnd, Main.draw; simpl; flags.
  all: rewrite <- ?app_assoc; simpl.
  all: eexists _, _, _; split; [reflexivity|].
  all: split; [reflexivity|].
  all: split; [rewrite list_elem_of_In; simpl; intuition discriminate|].
  all: split; [rewrite list_elem_of_In; simpl; intuition discriminate|].
  all: split; [intros; first [discriminate | apply list_elem_of_here]|].
  all: split; [reflexivity|].
  all: intros; first [discriminate | split; [reflexivity|intros; reflexivity]].
Qed.

Lemma update_during_list_render_is_dropped_witness :
  let m := Main.deliver [musicDataEvent] (Main.idle []) in
  Main.isRenderScheduled m = true /\
  Main.dirty m Main.songList = true /\
  Main.settled playlistsDuringRender = Resolved tt /\
  Main.dirty
    (Main.scheduleAll (Main.arrivals playlistsDuringRender)
       (Main.performScheduledRenders_start (sampleStore []) m).1) Main.songList = true /\
  exists final,
    Main.performScheduledRenders (sampleStore []) playlistsDuringRender searchResolved m
      = (final, Main.Ended (Resolved tt)) /\
    Main.drawn final
      = [Main.renderSongList; Main.renderPlaylists;
         Main.updateActiveListHeader; Main.updateSearchUI] /\
    Main.requestedFrames final = 0%nat /\
    forall flag, Main.dirty final flag = false.
Proof.
  intros m.
  assert (H1 : Main.isRenderScheduled m = true) by reflexivity.
  assert (H2 : Main.dirty m Main.songList = true) by reflexivity.
  assert (H3 : Main.settled playlistsDuringRender = Resolved tt) by reflexivity.
  split; [exact H1|]. split; [exact H2|]. split; [exact H3|]. split; [reflexivity|].
  destruct (update_during_list_render_is_dropped (sampleStore []) m playlistsDuringRender
              searchResolved H1 H2 H3)
    as (_ & _ & _ & _ & final & outcome & rest & Hrun & _ & _ & _ & _ & Hframes & Hclear).
  assert (Hfinal : (final, Main.Ended outcome)
                   = (Main.performScheduledRenders (sampleStore []) playlistsDuringRender
                        searchResolved m)) by (symmetry; exact Hrun).
  vm_compute in Hfinal. injection Hfinal as -> ->.
  eexists. split; [reflexivity|]. split; [reflexivity|]. split; [reflexivity|].
  intros flag. reflexivity.
Defined.

(** ** Markers: jumping and deleting *)

Lemma find_after_ascending (bound : Q) (l : list State.Marker) :
  Player.ascending l ->
  match List.find (fun m => negb (Qle_bool (State.timestamp m) bound)) l with
  | Some target =>
      target ∈ l /\ (bound < State.timestamp target)%Q /\
      forall m, m ∈ l -> (bound < State.timestamp m)%Q ->
                (State.timestamp target <= State.timestamp m)%Q
  | None => forall m, m ∈ l -> (State.timestamp m <= bound)%Q
  end.
Proof.
  induction l as [|x l IH]; intros Hasc; simpl.
  - intros m Hm. apply elem_of_nil in Hm. contradiction.
  - destruct Hasc as [Hx Hasc].
    destruct (Qle_bool (State.timestamp x) bound) eqn:Hle; simpl.
    + apply Qle_bool_iff in Hle. specialize (IH Hasc).
      destruct (List.find _ l) as [target|].
      * destruct IH as (Hin & Hafter & Hleast).
        split; [apply list_elem_of_further, Hin|]. split; [exact Hafter|].
        intros m Hm Hm'. apply elem_of_cons in Hm as [->|Hm]; [|auto].
        exfalso. apply (Qlt_not_le _ _ Hm'). exact Hle.
      * intros m Hm. apply elem_of_cons in Hm as [->|Hm]; auto.
    + apply Qle_bool_false_lt in Hle.
      split; [apply list_elem_of_here|]. split; [exact Hle|].
      intros m Hm _. apply elem_of_cons in Hm as [->|Hm]; [apply Qle_refl|].
      rewrite Forall_forall in Hx. apply Hx, Hm.
Qed.

Lemma List_find_app {A} (f : A -> bool) (l1 l2 : list A) :
  List.find f (l1 ++ l2)
  = match List.find f l1 with Some x => Some x | None => List.find f l2 end.
Proof.
  induction l1 as [|x l1 IH]; simpl; [reflexivity|].
  destruct (f x); [reflexivity|exact IH].
Qed.

Lemma find_before_ascending (bound : Q) (l : list State.Marker) :
  Player.ascending l ->
  match List.find (fun m => negb (Qle_bool bound (State.timestamp m))) (rev l) with
  | Some target =>
      target ∈ l /\ (State.timestamp target < bound)%Q /\
      forall m, m ∈ l -> (State.timestamp m < bound)%Q ->
                (State.timestamp m <= State.timestamp target)%Q
  | None => forall m, m ∈ l -> (bound <= State.timestamp m)%Q
  end.
Proof.
  induction l as [|x l IH]; intros Hasc; simpl.
  - intros m Hm. apply elem_of_nil in Hm. contradiction.
  - destruct Hasc as [Hx Hasc]. specialize (IH Hasc).
    rewrite Forall_forall in Hx.
    rewrite List_find_app.
    destruct (List.find _ (rev l)) as [target|].
    + destruct IH as (Hin & Hbefore & Hlatest).
      split; [apply list_elem_of_further, Hin|]. split; [exact Hbefore|].
      intros m Hm Hm'. apply elem_of_cons in Hm as [->|Hm]; [|auto].
      apply Hx, Hin.
    + simpl. destruct (Qle_bool bound (State.timestamp x)) eqn:Hle; simpl.
      * apply Qle_bool_iff in Hle.
        intros m Hm. apply elem_of_cons in Hm as [->|Hm]; auto.
      * apply Qle_bool_false_lt in Hle.
        split; [apply list_elem_of_here|]. split; [exact Hle|].
        intros m Hm Hm'. apply elem_of_cons in Hm as [->|Hm]; [apply Qle_refl|].
        exfalso. apply (Qlt_not_le _ _ Hm'). apply IH, Hm.
Qed.

(** [jumpToMarker] on a playing song with a duration and at least one
    marker, the markers being in ascending order. The two bounds are the
    doubles that the handler computes: [currentTime + 0.1], the sum with
    the double nearest to one tenth, rounded, and [currentTime - 0.5],
    rounded. Forward, it assigns the timestamp of the nearest marker
    beyond the first bound, and nothing when there is none. Backward, it
    always assigns a time: that of the nearest marker below the second
    bound, or 0 when there is none. *)
Theorem jumpToMarker_nearest (audio : Player.AudioPlayer) (s : State.Store)
    (markers : list State.Marker) :
  Player.currentMarkers s = Some markers ->
  markers <> [] ->
  Player.noDuration audio = false ->
  Player.ascending markers ->
  let ahead := Double.add (Player.currentTime audio) Double.tenth in
  let behind := Double.sub (Player.currentTime audio) (1 # 2) in
  match Player.jumpToMarker Playlist.next audio s with
  | Some t =>
      (ahead < t)%Q /\
      (exists m, m ∈ markers /\ State.timestamp m = t) /\
      forall m, m ∈ markers -> (ahead < State.timestamp m)%Q ->
                (t <= State.timestamp m)%Q
  | None => forall m, m ∈ markers -> (State.timestamp m <= ahead)%Q
  end /\
  exists t,
    Player.jumpToMarker Playlist.prev audio s = Some t /\
    (forall m, m ∈ markers -> (State.timestamp m < behind)%Q ->
               (State.timestamp m <= t)%Q) /\
    ((exists m, m ∈ markers /\ State.timestamp m = t /\ (t < behind)%Q) \/
     (t = 0%Q /\ forall m, m ∈ markers -> (behind <= State.timestamp m)%Q)).
Proof.
  intros Hcurrent Hsome Hduration Hasc ahead behind.
  unfold Player.jumpToMarker. rewrite Hcurrent, Hduration.
  destruct markers as [|first rest] eqn:Hmarkers; [contradiction|].
  rewrite <- Hmarkers in *. clear Hsome.
  split.
  - pose proof (find_after_ascending ahead markers Hasc) as Hfind.
    fold ahead. destruct (List.find _ markers) as [target|].
    + destruct Hfind as (Hin & Hafter & Hleast).
      split; [exact Hafter|]. split; [exists target; tauto|exact Hleast].
    + exact Hfind.
  - pose proof (find_before_ascending behind markers Hasc) as Hfind.
    fold behind. destruct (List.find _ (rev markers)) as [target|].
    + destruct Hfind as (Hin & Hbefore & Hlatest).
      exists (State.timestamp target). split; [reflexivity|]. split; [exact Hlatest|].
      left. exists target. tauto.
    + exists 0%Q. split; [reflexivity|]. split.
      * intros m Hm Hm'. exfalso. apply (Qlt_not_le _ _ Hm'). apply Hfind, Hm.
      * right. split; [reflexivity|exact Hfind].
Qed.

(** The forward bound is the rounded sum. With the playing time at the
    double nearest to 1.2 and a marker at the double nearest to 1.3, the
    marker is ahead of the exact sum of the time and the double nearest
    to 0.1, but the sum rounds to the timestamp of the marker: the
    handler does not jump. *)
Lemma jumpToMarker_rounds_the_bound :
  let now := Double.round (12 # 10) in
  let m := {| State.id := "m1"; State.timestamp := Double.round (13 # 10) |} in
  (now + Double.tenth < State.timestamp m)%Q /\
  (Double.add now Double.tenth == State.timestamp m)%Q /\
  Player.currentMarkers (Player.assignMarkers "a.mp3" [m] markedStore) = Some [m] /\
  Player.jumpToMarker Playlist.next
    {| Player.currentTime := now; Player.duration := Some 10%Q |}
    (Player.assignMarkers "a.mp3" [m] markedStore) = None.
Proof. repeat split; vm_compute; reflexivity. Qed.

Lemma jumpToMarker_nearest_witness :
  Player.jumpToMarker Playlist.next
    {| Player.currentTime := 3; Player.duration := Some 10%Q |} markedStore = Some 5%Q /\
  exists t,
    Player.jumpToMarker Playlist.prev
      {| Player.currentTime := 3; Player.duration := Some 10%Q |} markedStore = Some t.
Proof.
  split; [vm_compute; reflexivity|].
  destruct (jumpToMarker_nearest
              {| Player.currentTime := 3; Player.duration := Some 10%Q |} markedStore
              [ {| State.id := "m1"; State.timestamp := 1 |};
                {| State.id := "m2"; State.timestamp := 5 |} ])
    as [_ (t & Hjump & _)].
  - vm_compute. reflexivity.
  - discriminate.
  - reflexivity.
  - simpl. repeat split; repeat constructor; discriminate.
  - exists t. exact Hjump.
Defined.

(** [deleteMarker] on the playing song, which is in the cache and has
    a marker list, for a non-empty id: the markers with that id leave
    the list, the others stay in their order, and the remaining
    timestamps are sent to the backend. A rejected save puts the old
    list back; the selection, when the deleted marker was the selected
    one, goes to the first marker of that id in the old list, and is
    otherwise what it was. *)
Theorem deleteMarker_rollback (s : State.Store) (key markerId : string)
    (song : State.Song) (markers0 : list State.Marker) :
  Player.currentKey s = Some key ->
  State.songs (State.musicData (State.state s)) !! key = Some song ->
  State.markers song = Some markers0 ->
  markerId <> ""%string ->
  let remaining :=
    List.filter (fun m => negb (bool_decide (State.id m = markerId))) markers0 in
  let wasSelected :=
    bool_decide (State.id <$> State.selectedMarker (State.state s) = Some markerId) in
  exists s1 frame,
    Player.deleteMarker markerId s = (s1, Some frame) /\
    Player.currentMarkers s1 = Some remaining /\
    State.apiCalls s1
      = State.apiCalls s ++ [State.saveMarkers (State.path song)
                               (map State.timestamp remaining)] /\
    State.selectedMarker (State.state s1)
      = (if wasSelected then None else State.selectedMarker (State.state s)) /\
    forall message,
      let s2 := Player.deleteMarker_resume frame (Rejected message) s1 in
      Player.currentMarkers s2 = Some markers0 /\
      State.selectedMarker (State.state s2)
        = (if wasSelected
           then List.find (fun m => bool_decide (State.id m = markerId)) markers0
           else State.selectedMarker (State.state s)).
Proof.
  intros Hkey Hsong Hmarkers Hid remaining wasSelected.
  pose proof (currentSong_hydrated s key song Hkey Hsong) as Hcurrent.
  unfold Player.deleteMarker. rewrite Hcurrent, Hkey, Hmarkers.
  unfold State.truthy. rewrite (bool_decide_eq_false_2 _ Hid). simpl negb. cbv iota.
  fold remaining. unfold State.getState. fold wasSelected.
  eexists _, _. split; [reflexivity|].
  destruct (assignMarkers_current s key song remaining Hkey Hsong)
    as (Hkey1 & Hsong1 & Hmarkers1).
  set (s1 := Player.assignMarkers key remaining s) in *.
  assert (Hs1 : State.selectedMarker (State.state s1) = State.selectedMarker (State.state s)
                /\ State.apiCalls s1 = State.apiCalls s) by (split; reflexivity).
  destruct Hs1 as [Hsel1 Hcalls1]. clearbody s1.
  destruct (maybeDeselect_library wasSelected s1) as [Hdata Hindex].
  cbv zeta in Hdata, Hindex.
  set (s1' := if wasSelected then State.setSelectedMarker None s1 else s1) in *.
  assert (Hs1' : State.selectedMarker (State.state s1')
                 = (if wasSelected then None else State.selectedMarker (State.state s))
                 /\ State.apiCalls s1' = State.apiCalls s).
  { subst s1'. destruct wasSelected; simpl; rewrite ?Hsel1, ?Hcalls1; split; reflexivity. }
  destruct Hs1' as [Hsel1' Hcalls1'].
  assert (Hkey1' : Player.currentKey s1' = Some key).
  { rewrite <- Hkey1. apply (currentMarkers_ext s1' s1 Hdata Hindex). }
  assert (Hsong1' : State.songs (State.musicData (State.state s1')) !! key
                    = Some (Player.with_markers (Some remaining) song))
    by (rewrite Hdata; exact Hsong1).
  assert (Hmarkers1' : Player.currentMarkers s1' = Some remaining).
  { rewrite <- Hmarkers1. apply (currentMarkers_ext s1' s1 Hdata Hindex). }
  clearbody s1'.
  split.
  { rewrite <- Hmarkers1'.
    apply (currentMarkers_ext (State.callApi _ s1') s1'); reflexivity. }
  split; [simpl; rewrite Hcalls1'; reflexivity|].
  split; [simpl; exact Hsel1'|].
  intros message. unfold Player.deleteMarker_resume. simpl Player.songKey.
  simpl Player.originalMarkers. simpl Player.wasSelected. simpl Player.frameMarkerId.
  set (s2 := State.showToast _ State.error (State.callApi _ s1')).
  assert (Hkey2 : Player.currentKey s2 = Some key) by exact Hkey1'.
  assert (Hsong2 : State.songs (State.musicData (State.state s2)) !! key
                   = Some (Player.with_markers (Some remaining) song)) by exact Hsong1'.
  assert (Hsel2 : State.selectedMarker (State.state s2)
                  = (if wasSelected then None else State.selectedMarker (State.state s)))
    by exact Hsel1'.
  clearbody s2.
  destruct (assignMarkers_current s2 key _ markers0 Hkey2 Hsong2) as (_ & _ & Hback).
  destruct wasSelected.
  - split; [|reflexivity].
    rewrite <- Hback.
    apply (currentMarkers_ext (State.setSelectedMarker _ _) _); reflexivity.
  - split; [exact Hback|]. simpl. exact Hsel2.
Qed.

Lemma deleteMarker_rollback_witness :
  exists s1 frame,
    Player.deleteMarker "m1" markedStore = (s1, Some frame) /\
    Player.currentMarkers s1 = Some [ {| State.id := "m2"; State.timestamp := 5 |} ].
Proof.
  destruct (deleteMarker_rollback markedStore "a.mp3" "m1" markedSong
              [ {| State.id := "m1"; State.timestamp := 1 |};
                {| State.id := "m2"; State.timestamp := 5 |} ])
    as (s1 & frame & Hrun & Hmarkers & _).
  - vm_compute. reflexivity.
  - vm_compute. reflexivity.
  - reflexivity.
  - discriminate.
  - exists s1, frame. split; [exact Hrun|exact Hmarkers].
Defined.

(** ** utils.js *)

Lemma debounce_invocations {Args} (burst : list Args) :
  forall d : Utils.Debounced Args,
    Utils.run d (map Utils.invoke burst)
    = {| Utils.timeout := match last burst with
                          | Some args => Some args
                          | None => Utils.timeout d
                          end;
         Utils.funcCalls := Utils.funcCalls d |}.
Proof.
  induction burst as [|args burst IH]; intros d; simpl.
  - destruct d. reflexivity.
  - rewrite IH. simpl.
    destruct burst as [|args' burst']; simpl; [reflexivity|].
    destruct (last (args' :: burst')) eqn:Hlast; [reflexivity|].
    apply last_None in Hlast. discriminate.
Qed.

(** A debounced function that is invoked any number of times before
    its timer expires calls [func] once, at the expiry, with the
    arguments of the last invocation; a further expiry without a new
    invocation calls nothing. *)
Theorem debounce_calls_once_with_last_arguments {Args}
    (d : Utils.Debounced Args) (burst : list Args) (args : Args) :
  Utils.run d (map Utils.invoke (burst ++ [args]) ++ [Utils.expire])
    = {| Utils.timeout := None; Utils.funcCalls := Utils.funcCalls d ++ [args] |} /\
  Utils.run d (map Utils.invoke (burst ++ [args]) ++ [Utils.expire; Utils.expire])
    = {| Utils.timeout := None; Utils.funcCalls := Utils.funcCalls d ++ [args] |}.
Proof.
  unfold Utils.run. rewrite !foldl_app.
  pose proof (debounce_invocations (burst ++ [args]) d) as Hburst.
  unfold Utils.run in Hburst. rewrite Hburst, last_snoc. split; reflexivity.
Qed.

Lemma Qfloor_unique (y : Q) (z : Z) :
  (inject_Z z <= y)%Q -> (y < inject_Z (z + 1))%Q -> Qfloor y = z.
Proof.
  intros Hle Hlt.
  assert (H1 : z <= Qfloor y).
  { rewrite <- (Qfloor_Z z). apply Qfloor_resp_le, Hle. }
  assert (H2 : Qfloor y < z + 1).
  { rewrite Zlt_Qlt. eapply Qle_lt_trans; [apply Qfloor_le|exact Hlt]. }
  lia.
Qed.

(** [formatTime] gives 00:00 for [NaN]. For a time that is not negative
    it shows the whole seconds split into minutes and seconds: the
    minutes are the whole seconds divided by 60, the seconds field is
    the remainder, which is below 60, and each field is padded to two
    digits. *)
Theorem formatTime_minutes_and_seconds (seconds : Q) :
  (0 <= seconds)%Q ->
  Utils.formatTime None = "00:00"%string /\
  Utils.formatTime (Some seconds)
    = (Utils.padStart2 (pretty (Qfloor seconds / 60)) ++ ":"
       ++ Utils.padStart2 (pretty (Qfloor seconds mod 60)))%string /\
  0 <= Qfloor seconds mod 60 < 60 /\
  60 * (Qfloor seconds / 60) + Qfloor seconds mod 60 = Qfloor seconds.
Proof.
  intros Hpos. split; [reflexivity|].
  set (n := Qfloor seconds).
  assert (Hn1 : (inject_Z n <= seconds)%Q) by apply Qfloor_le.
  assert (Hn2 : (seconds < inject_Z (n + 1))%Q) by apply Qlt_floor.
  assert (Hn0 : 0 <= n).
  { rewrite <- (Qfloor_Z 0). apply Qfloor_resp_le. exact Hpos. }
  pose proof (Z.div_mod n 60 ltac:(lia)) as Hdm.
  pose proof (Z.mod_pos_bound n 60 ltac:(lia)) as Hm.
  set (q := n / 60) in *. set (r := n mod 60) in *.
  clearbody q r. clearbody n.
  assert (Hq1 : (inject_Z (60 * q) <= seconds)%Q).
  { eapply Qle_trans; [|exact Hn1]. rewrite <- Zle_Qle. lia. }
  assert (Hq2 : (seconds < inject_Z (60 * q + 60))%Q).
  { eapply Qlt_le_trans; [exact Hn2|]. rewrite <- Zle_Qle. lia. }
  rewrite inject_Z_plus, !inject_Z_mult in *.
  change (inject_Z 60) with 60%Q in *.
  assert (Hmin : Qfloor (seconds / 60) = q).
  { apply Qfloor_unique.
    - apply Qle_shift_div_l; [reflexivity|]. rewrite Qmult_comm. exact Hq1.
    - apply Qlt_shift_div_r; [reflexivity|].
      rewrite inject_Z_plus. change (inject_Z 1) with 1%Q.
      set (b := inject_Z q) in *; clearbody b. lra. }
  assert (Htrunc : Utils.trunc (seconds / 60) = q).
  { unfold Utils.trunc.
    assert (H0 : (0 <= seconds / 60)%Q) by (apply Qle_shift_div_l; [reflexivity|lra]).
    apply Qle_bool_iff in H0. rewrite H0. exact Hmin. }
  assert (Hsec : Qfloor (Utils.js_mod seconds 60) = r).
  { unfold Utils.js_mod. rewrite Htrunc. apply Qfloor_unique.
    - assert (Hr : (inject_Z r == inject_Z n - 60 * inject_Z q)%Q).
      { replace r with (n - 60 * q) by lia.
        unfold Zminus. rewrite inject_Z_plus, inject_Z_opp, inject_Z_mult.
        change (inject_Z 60) with 60%Q. ring. }
      rewrite Hr. clear Hr Hmin Htrunc Hdm.
      set (a := inject_Z n) in *; set (b := inject_Z q) in *; clearbody a b. lra.
    - assert (Hr : (inject_Z (r + 1) == inject_Z (n + 1) - 60 * inject_Z q)%Q).
      { replace (r + 1) with (n + 1 - 60 * q) by lia.
        unfold Zminus. rewrite inject_Z_plus, inject_Z_opp, inject_Z_mult.
        change (inject_Z 60) with 60%Q. ring. }
      rewrite Hr. clear Hr Hmin Htrunc Hdm. rewrite inject_Z_plus.
      set (a := inject_Z n) in *; set (b := inject_Z q) in *; clearbody a b. lra. }
  split; [|split; [exact Hm|lia]].
  unfold Utils.formatTime. rewrite Hmin, Hsec. reflexivity.
Qed.

Lemma formatTime_minutes_and_seconds_witness :
  Utils.formatTime (Some (251 # 2)) = "02:05"%string.
Proof.
  destruct (formatTime_minutes_and_seconds (251 # 2)) as (_ & Hformat & _).
  - discriminate.
  - rewrite Hformat. vm_compute. reflexivity.
Defined.

(** [getDragAfterElement] returns an element whose vertical midpoint
    lies below the pointer and is nearest to it among all such
    elements, and nothing when the pointer is at or below every
    midpoint. *)
Theorem getDragAfterElement_nearest_below {A} (box : A -> Utils.Box) (y : Q)
    (draggableElements : list A) :
  let mid := fun child => (Utils.top (box child) + Utils.height (box child) / 2)%Q in
  match Utils.getDragAfterElement box y draggableElements with
  | Some element =>
      element ∈ draggableElements /\ (y < mid element)%Q /\
      forall child, child ∈ draggableElements -> (y < mid child)%Q ->
                    (mid element <= mid child)%Q
  | None => forall child, child ∈ draggableElements -> (mid child <= y)%Q
  end.
Proof.
  intros mid. unfold Utils.getDragAfterElement.
  set (body := fun (closest : Utils.Closest A) child => _).
  assert (Hinv : forall (l seen : list A) (acc : Utils.Closest A),
    match acc with
    | Some (offset, element) =>
        (offset == y - mid element)%Q /\ element ∈ seen /\ (y < mid element)%Q /\
        forall child, child ∈ seen -> (y < mid child)%Q -> (mid element <= mid child)%Q
    | None => forall child, child ∈ seen -> (mid child <= y)%Q
    end ->
    match foldl body acc l with
    | Some (offset, element) =>
        element ∈ seen ++ l /\ (y < mid element)%Q /\
        forall child, child ∈ seen ++ l -> (y < mid child)%Q ->
                      (mid element <= mid child)%Q
    | None => forall child, child ∈ seen ++ l -> (mid child <= y)%Q
    end).
  { induction l as [|x l IH]; intros seen acc Hacc.
    - simpl. rewrite app_nil_r. destruct acc as [[offset element]|]; [tauto|exact Hacc].
    - simpl. replace (seen ++ x :: l) with ((seen ++ [x]) ++ l)
        by (rewrite <- app_assoc; reflexivity).
      apply IH. unfold body.
      set (offset := (y - Utils.top (box x) - Utils.height (box x) / 2)%Q).
      assert (Hoffset : (offset == y - mid x)%Q) by (unfold offset, mid; ring).
      destruct (Qle_bool 0 offset) eqn:Hbelow; simpl.
      + apply Qle_bool_iff in Hbelow.
        assert (Hx : (mid x <= y)%Q) by lra.
        destruct acc as [[best element]|].
        * destruct Hacc as (Hbest & Hin & Hmid & Hleast).
          split; [exact Hbest|]. split; [apply elem_of_app; left; exact Hin|].
          split; [exact Hmid|].
          intros child Hchild Hy. apply elem_of_app in Hchild as [Hchild|Hchild];
            [auto|].
          apply list_elem_of_singleton in Hchild. subst child. lra.
        * intros child Hchild. apply elem_of_app in Hchild as [Hchild|Hchild]; [auto|].
          apply list_elem_of_singleton in Hchild. subst child. exact Hx.
      + apply Qle_bool_false_lt in Hbelow.
        assert (Hx : (y < mid x)%Q) by lra.
        destruct acc as [[best element]|].
        * destruct Hacc as (Hbest & Hin & Hmid & Hleast).
          destruct (Qle_bool offset best) eqn:Hcmp; simpl.
          -- apply Qle_bool_iff in Hcmp.
             split; [exact Hbest|]. split; [apply elem_of_app; left; exact Hin|].
             split; [exact Hmid|].
             intros child Hchild Hy. apply elem_of_app in Hchild as [Hchild|Hchild];
               [auto|].
             apply list_elem_of_singleton in Hchild. subst child. lra.
          -- apply Qle_bool_false_lt in Hcmp.
             split; [exact Hoffset|].
             split; [apply elem_of_app; right; apply list_elem_of_here|].
             split; [exact Hx|].
             intros child Hchild Hy. apply elem_of_app in Hchild as [Hchild|Hchild].
             ++ specialize (Hleast child Hchild Hy). lra.
             ++ apply list_elem_of_singleton in Hchild. subst child. apply Qle_refl.
        * simpl. split; [exact Hoffset|].
          split; [apply elem_of_app; right; apply list_elem_of_here|].
          split; [exact Hx|].
          intros child Hchild Hy. apply elem_of_app in Hchild as [Hchild|Hchild].
          -- specialize (Hacc child Hchild). lra.
          -- apply list_elem_of_singleton in Hchild. subst child. apply Qle_refl. }
  specialize (Hinv draggableElements [] None).
  simpl in Hinv.
  destruct (foldl body None draggableElements) as [[offset element]|]; simpl.
  - apply Hinv. intros child Hchild. apply elem_of_nil in Hchild. contradiction.
  - apply Hinv. intros child Hchild. apply elem_of_nil in Hchild. contradiction.
Qed.

(** ** The render scheduler: the subscriptions *)

Lemma subscribedUpdates_true_only (d : Main.Delivery) :
  Forall (Forall (fun kv : Main.Flag * bool => kv.2 = true)) (Main.subscribedUpdates d).
Proof.
  unfold Main.subscribedUpdates.
  repeat match goal with
         | |- context [bool_decide ?P] => destruct (bool_decide P); simpl
         | |- context [match ?x with _ => _ end] => destruct x; simpl
         end;
    repeat constructor.
Qed.

Lemma subscribedUpdates_songList (d : Main.Delivery) :
  (exists updates, updates ∈ Main.subscribedUpdates d /\ (Main.songList, true) ∈ updates) <->
  Main.event d ∈ ["musicData"; "playlists"; "activePlaylist"; "viewMode"; "searchMode"]%string \/
  (Main.event d = "playQueue"%string /\ Main.viewModeThen d = State.ViewQueue).
Proof.
  destruct d as [ev mode current]. unfold Main.subscribedUpdates. simpl.
  repeat (case_bool_decide; simpl; try subst ev).
  all: try destruct mode; try destruct current.
  all: split.
  all: try (intros (u & Hu & Hin);
            repeat (apply elem_of_cons in Hu as [->|Hu]);
            try (apply elem_of_nil in Hu; contradiction);
            repeat (apply elem_of_cons in Hin as [Hin|Hin]; [try discriminate|]);
            try (apply elem_of_nil in Hin; contradiction);
            rewrite ?elem_of_cons; solve [intuition]).
  all: rewrite ?elem_of_cons, ?elem_of_nil; intros Hevent.
  all: first
    [ solve [exfalso; intuition (discriminate || congruence)]
    | solve [eexists; split; [apply list_elem_of_here|];
             rewrite ?elem_of_cons; intuition] ].
Qed.

(** The calls of [scheduleRender] that the subscriptions make pass
    [true] only, so no callback ever clears a flag that another one has
    set. For any sequence of events delivered between two frames: at
    most one frame is requested, a flag is dirty exactly when the
    callback of some delivered event named it, the song list is due for
    a full render exactly when [musicData], [playlists],
    [activePlaylist], [viewMode] or [searchMode] was published, or
    [playQueue] while the queue view was on, and as long as no frame is
    requested no flag is dirty. *)
Theorem subscriptions_only_set_flags (deliveries : list Main.Delivery)
    (done : list Main.Draw) :
  let m := Main.deliver deliveries (Main.idle done) in
  Forall (Forall (fun kv : Main.Flag * bool => kv.2 = true))
         (concat (map Main.subscribedUpdates deliveries)) /\
  (Main.requestedFrames m <= 1)%nat /\
  (forall key,
      Main.dirty m key = true <->
      exists d updates,
        d ∈ deliveries /\ updates ∈ Main.subscribedUpdates d /\ (key, true) ∈ updates) /\
  (Main.dirty m Main.songList = true <->
   exists d, d ∈ deliveries /\
     (Main.event d
        ∈ ["musicData"; "playlists"; "activePlaylist"; "viewMode"; "searchMode"]%string \/
      (Main.event d = "playQueue"%string /\ Main.viewModeThen d = State.ViewQueue))) /\
  (Main.isRenderScheduled m = false -> forall key, Main.dirty m key = false).
Proof.
  intros m.
  assert (Htrue : Forall (Forall (fun kv : Main.Flag * bool => kv.2 = true))
                         (concat (map Main.subscribedUpdates deliveries))).
  { apply Forall_concat, Forall_fmap, Forall_forall. intros d _.
    apply subscribedUpdates_true_only. }
  assert (Hdirty : forall key,
             Main.dirty m key = true <->
             exists d updates,
               d ∈ deliveries /\ updates ∈ Main.subscribedUpdates d /\
               (key, true) ∈ updates).
  { intros key. unfold m, Main.deliver. rewrite (scheduleAll_dirty _ Htrue). simpl.
    split.
    - intros [H|(u & Hu & Hkey)]; [discriminate|].
      apply elem_of_concat in Hu as (us & Hus & Hu).
      apply list_elem_of_fmap in Hus as (d & -> & Hd). exists d, u. tauto.
    - intros (d & u & Hd & Hu & Hkey). right. exists u. split; [|exact Hkey].
      apply elem_of_concat. exists (Main.subscribedUpdates d). split; [|exact Hu].
      apply list_elem_of_fmap. exists d. tauto. }
  split; [exact Htrue|]. split; [|split; [exact Hdirty|split]].
  - unfold m, Main.deliver.
    destruct (concat (map Main.subscribedUpdates deliveries)) as [|u rest] eqn:Hcalls.
    + simpl. lia.
    + destruct (scheduleAll_frames (u :: rest) (Main.idle done)) as (_ & Hframes & _);
        [discriminate|].
      rewrite Hframes. simpl. lia.
  - rewrite Hdirty. split.
    + intros (d & u & Hd & Hu & Hkey). exists d. split; [exact Hd|].
      apply subscribedUpdates_songList. exists u. tauto.
    + intros (d & Hd & Hevent). apply subscribedUpdates_songList in Hevent as (u & Hu & Hkey).
      exists d, u. tauto.
  - unfold m, Main.deliver.
    destruct (concat (map Main.subscribedUpdates deliveries)) as [|u rest] eqn:Hcalls.
    + simpl. intros _ key. reflexivity.
    + destruct (scheduleAll_frames (u :: rest) (Main.idle done)) as (Hscheduled & _);
        [discriminate|].
      rewrite Hscheduled. discriminate.
Qed.

(** ** Keyboard navigation *)

(** [navigateSongList] never reads past the list. With the anchor on
    row [i] of a list whose paths are distinct, an arrow key moves
    selection and anchor to the row above or below, and changes nothing
    at the first row going up and at the last row going down. Without
    an anchor, either arrow key selects the first row. *)
Theorem navigateSongList_moves_one_row (direction : Playlist.Arrow)
    (dataSource : list State.Song) (s : State.Store) :
  NoDup (map State.path dataSource) ->
  (forall (i : nat) (row : State.Song),
      dataSource !! i = Some row ->
      State.lastClickedPath (State.state s) = Some (State.path row) ->
      State.path row <> ""%string ->
      let target :=
        match direction with
        | Playlist.up => pred i
        | Playlist.down => Nat.min (S i) (length dataSource - 1)
        end in
      exists s',
        Playlist.navigateSongList direction dataSource s = Some s' /\
        (target = i -> s' = s) /\
        (target <> i ->
         exists next,
           dataSource !! target = Some next /\
           State.selectedSongPaths (State.state s') = [State.path next] /\
           State.lastClickedPath (State.state s') = Some (State.path next))) /\
  (forall (first : State.Song) (rest : list State.Song),
      dataSource = first :: rest ->
      State.lastClickedPath (State.state s) = None ->
      exists s',
        Playlist.navigateSongList direction dataSource s = Some s' /\
        State.selectedSongPaths (State.state s') = [State.path first] /\
        State.lastClickedPath (State.state s') = Some (State.path first)).
Proof.
  intros Hnodup. split.
  - intros i row Hrow Hanchor Hpath.
    pose proof (lookup_lt_Some _ _ _ Hrow) as Hi.
    remember (length dataSource) as n eqn:Hn.
    intros target.
    assert (Hbody : Playlist.navigateSongList direction dataSource s
      = let nextIndex :=
          match direction with
          | Playlist.up => if decide (Z.of_nat i > 0) then Z.of_nat i - 1 else 0
          | Playlist.down =>
              if decide (Z.of_nat i < Z.of_nat n - 1) then Z.of_nat i + 1
              else Z.of_nat n - 1
          end in
        if decide (nextIndex = Z.of_nat i) then Some s
        else match js_index dataSource nextIndex with
             | Some nextSong =>
                 Some (State.setLastClickedPath (Some (State.path nextSong))
                         (State.setSelectedSongPaths [State.path nextSong] s))
             | None => None
             end).
    { unfold Playlist.navigateSongList.
      destruct dataSource as [|first rest] eqn:Hds; [discriminate|].
      rewrite <- Hds in *. rewrite <- Hn.
      unfold State.getState. rewrite Hanchor. unfold State.truthy.
      rewrite (bool_decide_eq_false_2 _ Hpath). simpl negb. cbv iota.
      unfold findIndex.
      rewrite (findIndex_from_key State.path (State.path row) dataSource i 0 row
                 Hnodup Hrow eq_refl).
      replace (0 + Z.of_nat i) with (Z.of_nat i) by lia. reflexivity. }
    rewrite Hbody. clear Hbody. cbv zeta.
    assert (Htarget :
      match direction with
      | Playlist.up => if decide (Z.of_nat i > 0) then Z.of_nat i - 1 else 0
      | Playlist.down =>
          if decide (Z.of_nat i < Z.of_nat n - 1) then Z.of_nat i + 1 else Z.of_nat n - 1
      end = Z.of_nat target).
    { unfold target. destruct direction; destruct (decide _); lia. }
    rewrite Htarget.
    destruct (decide (Z.of_nat target = Z.of_nat i)) as [Hsame|Hmoved].
    + exists s. split; [reflexivity|]. split; [reflexivity|]. intros Hne. lia.
    + assert (Hlt : (target < length dataSource)%nat).
      { rewrite <- Hn. unfold target. destruct direction; lia. }
      destruct (lookup_lt_is_Some_2 dataSource target Hlt) as [next Hnext].
      unfold js_index. destruct (decide (Z.of_nat target < 0)) as [Hneg|_]; [lia|].
      rewrite Nat2Z.id, Hnext.
      eexists. split; [reflexivity|]. split; [intros Heq; lia|].
      intros _. exists next. split; [reflexivity|]. split; reflexivity.
  - intros first rest -> Hanchor. unfold Playlist.navigateSongList.
    unfold State.getState. rewrite Hanchor.
    destruct direction.
    + destruct (decide (-1 > 0)) as [Hpos|_]; [lia|].
      destruct (decide (0 = -1)) as [Heq|_]; [lia|]. simpl.
      eexists. split; [reflexivity|]. split; reflexivity.
    + destruct (decide (-1 < Z.of_nat (length (first :: rest)) - 1)) as [_|Hge];
        [|simpl in Hge; lia].
      destruct (decide (-1 + 1 = -1)) as [Heq|_]; [lia|]. simpl.
      eexists. split; [reflexivity|]. split; reflexivity.
Qed.

Lemma navigateSongList_moves_one_row_witness :
  exists s',
    Playlist.navigateSongList Playlist.down [songA; songB] (sampleStore []) = Some s' /\
    State.selectedSongPaths (State.state s') = ["a.mp3"%string].
Proof.
  destruct (navigateSongList_moves_one_row Playlist.down [songA; songB] (sampleStore []))
    as [_ Hfirst].
  - apply (bool_decide_unpack _). vm_compute. exact I.
  - destruct (Hfirst songA [songB] eq_refl eq_refl) as (s' & Hrun & Hsel & _).
    exists s'. split; [exact Hrun|exact Hsel].
Defined.

(** ** Imported playlists *)

(** An imported playlist whose songs come with it is shown without
    placeholders: after [addPlaylistToState] the name is last in the
    playlist order and the other playlists are what they were, and once
    [switchPlaylist] has made the playlist active, [getActivePlaylist]
    returns at every position the imported song of the path there. A
    playlist object without a name, paths or songs changes nothing. *)
Theorem addPlaylistToState_then_switchPlaylist
    (name : string) (paths : list string) (songs : gmap string State.Song)
    (s : State.Store) :
  name <> ""%string ->
  State.activePlaylist (State.musicData (State.state s)) <> name ->
  (forall p, p ∈ paths -> is_Some (songs !! p)) ->
  let s1 :=
    Playlist.addPlaylistToState
      (Some {| Playlist.imported_name := Some name;
               Playlist.imported_paths := Some paths;
               Playlist.imported_songs := Some songs |}) s in
  let s2 := Playlist.switchPlaylist name s1 in
  State.playlistOrder (State.musicData (State.state s1))
    = State.playlistOrder (State.musicData (State.state s)) ++ [name] /\
  (forall other, other <> name ->
     State.playlists (State.musicData (State.state s1)) !! other
     = State.playlists (State.musicData (State.state s)) !! other) /\
  length (State.getActivePlaylist s2) = length paths /\
  (forall i p, paths !! i = Some p ->
     exists song, songs !! p = Some song /\ State.getActivePlaylist s2 !! i = Some song) /\
  Playlist.addPlaylistToState None s = s /\
  (forall data,
     Playlist.imported_name data = None \/ Playlist.imported_paths data = None \/
     Playlist.imported_songs data = None ->
     Playlist.addPlaylistToState (Some data) s = s).
Proof.
  intros Hname Hactive Hsongs s1 s2.
  assert (Hdata1 : State.musicData (State.state s1)
    = {| State.songs :=
           State.merge_objects (State.songs (State.musicData (State.state s)))
             (State.merge_objects (State.songs (State.musicData (State.state s))) songs);
         State.playlists := <[name := paths]> (State.playlists (State.musicData (State.state s)));
         State.playlistOrder :=
           State.playlistOrder (State.musicData (State.state s)) ++ [name];
         State.activePlaylist := State.activePlaylist (State.musicData (State.state s)) |}).
  { subst s1. unfold Playlist.addPlaylistToState, State.truthy.
    rewrite (bool_decide_eq_false_2 _ Hname). simpl negb. cbv iota.
    unfold State.getState.
    match goal with
    | |- context [State.setMusicData {| State.data_songs := Some ?a;
                                        State.data_playlists := Some ?b;
                                        State.data_playlistOrder := Some ?c;
                                        State.data_activePlaylist := Some ?d |} s] =>
        destruct (setMusicData_all a b c d s) as (H1 & H2 & H3 & H4 & _)
    end.
    cbv zeta in H1, H2, H3, H4.
    destruct (State.musicData (State.state (State.setMusicData _ s))) as [so pl or ac].
    simpl in H1, H2, H3, H4. subst so pl or. f_equal.
    rewrite H4. destruct (State.truthy _); reflexivity. }
  assert (Hother : State.activePlaylist (State.musicData (State.state s1)) <> name)
    by (rewrite Hdata1; exact Hactive).
  destruct (switchPlaylist_state name s1 Hother) as (Hdata2 & _).
  cbv zeta in Hdata2. fold s2 in Hdata2.
  assert (Hlist : State.getActivePlaylist s2
                  = map (fun p => js_or (State.songs (State.musicData (State.state s1)) !! p)
                                        (State.placeholder p)) paths).
  { unfold State.getActivePlaylist. rewrite Hdata2, Hdata1. simpl.
    rewrite lookup_insert_eq. reflexivity. }
  split; [rewrite Hdata1; reflexivity|].
  split; [intros other Hne; rewrite Hdata1; simpl; apply lookup_insert_ne; congruence|].
  split; [rewrite Hlist; apply length_map|].
  split.
  { intros i p Hp.
    destruct (Hsongs p) as [song Hsong]; [eapply list_elem_of_lookup_2, Hp|].
    exists song. split; [exact Hsong|].
    rewrite Hlist, list_lookup_fmap, Hp, Hdata1. simpl.
    unfold State.merge_objects.
    rewrite (lookup_union_Some_l _ _ _ song); [reflexivity|].
    apply lookup_union_Some_l. exact Hsong. }
  split; [reflexivity|].
  intros [n p so] [H|[H|H]]; simpl in H; subst; simpl.
  - reflexivity.
  - destruct n; reflexivity.
  - destruct n, p; reflexivity.
Qed.

Lemma addPlaylistToState_then_switchPlaylist_witness :
  State.getActivePlaylist
    (Playlist.switchPlaylist "Mix"
       (Playlist.addPlaylistToState
          (Some {| Playlist.imported_name := Some "Mix"%string;
                   Playlist.imported_paths := Some ["b.mp3"%string];
                   Playlist.imported_songs := Some {[ "b.mp3"%string := songB ]} |})
          (sampleStore []))) !! 0%nat = Some songB.
Proof.
  destruct (addPlaylistToState_then_switchPlaylist "Mix" ["b.mp3"%string]
              {[ "b.mp3"%string := songB ]} (sampleStore []))
    as (_ & _ & _ & Hrows & _).
  - discriminate.
  - discriminate.
  - intros p Hp. apply list_elem_of_singleton in Hp. subst p.
    exists songB. vm_compute. reflexivity.
  - destruct (Hrows 0%nat "b.mp3"%string eq_refl) as (song & Hsong & Hrow).
    rewrite Hrow. rewrite <- Hsong. vm_compute. reflexivity.
Defined.
